(** * OfflineQuizWhiz: the generation-and-validation pipeline

    A shallow embedding of the core of the repository: the question model and
    its validation gate ([models.py]), the response parser and the generation
    loop ([mcq_generator.py]), and the question bank, section builder and paper
    assembler ([paper_builder.py]); and, around that core, the documents and
    pairs of [multimodal_models.py] and [pdf_extractor.py], the hint of
    [multimodal_prompts.py], the generator of [multimodal_generator.py] and
    the client of [llm_client.py].

    Conventions.
    - Python [str] is [string]; a character is one of the 256 code points of
      Latin-1, and the [str] methods below are given on that range.
    - Python [int] is [Z]; [//] and [%] are [Z.div] and [Z.modulo], which
      agree with Python for a positive divisor.
    - A [dict] iterated in order is an association list; a [dict] only looked
      up is a [gmap]; a [set] is a [gset].
    - A function that may raise returns a sum whose left side is the
      exception; code that touches the outside world (model calls, uuid4,
      the clock, the state file) passes the state explicitly. *)

From Stdlib Require Import ZArith Ascii String List Lia Bool.
From stdpp Require Import gmap strings list pretty.

Set Warnings "-register-all".

Open Scope string_scope.
Open Scope list_scope.
Open Scope Z_scope.

(* ===================================================================== *)
(** * Python text *)
(* ===================================================================== *)

Module Text.

(** [len(s)] *)
Definition len (s : string) : Z := Z.of_nat (String.length s).

Definition code (c : ascii) : N := N_of_ascii c.

Definition between (lo hi : N) (c : ascii) : bool :=
  ((lo <=? code c) && (code c <=? hi))%N.

(** [c.isspace()]: TAB..CR, FS..US, SPACE, NEL and NBSP. The same set is
    what [\s] matches in a [str] pattern. *)
Definition isspace (c : ascii) : bool :=
  between 9 13 c || between 28 32 c || (code c =? 133)%N || (code c =? 160)%N.

Fixpoint lstrip (s : string) : string :=
  match s with
  | EmptyString => EmptyString
  | String c s' => if isspace c then lstrip s' else s
  end.

Fixpoint rstrip (s : string) : string :=
  match s with
  | EmptyString => EmptyString
  | String c s' =>
      match rstrip s' with
      | EmptyString => if isspace c then EmptyString else String c EmptyString
      | r => String c r
      end
  end.

(** [s.strip()] *)
Definition strip (s : string) : string := rstrip (lstrip s).

Definition shift (c : ascii) (d : Z) : ascii :=
  ascii_of_N (Z.to_N (Z.of_N (code c) + d)).

(** [c.lower()]: A-Z and the Latin-1 capitals (all of 0xC0-0xDE but the
    multiplication sign) move up by 32. *)
Definition lower_char (c : ascii) : ascii :=
  if between 65 90 c || (between 192 222 c && negb (code c =? 215)%N)
  then shift c 32 else c.

(** [c.upper()]: a-z and the Latin-1 small letters 0xE0-0xFE but the division
    sign move down by 32. The capitals of sharp s, micro and y-diaeresis lie
    outside Latin-1; those three letters are left as they are. *)
Definition upper_char (c : ascii) : ascii :=
  if between 97 122 c || (between 224 254 c && negb (code c =? 247)%N)
  then shift c (-32) else c.

Fixpoint map_chars (f : ascii -> ascii) (s : string) : string :=
  match s with
  | EmptyString => EmptyString
  | String c s' => String (f c) (map_chars f s')
  end.

Definition lower : string -> string := map_chars lower_char.
Definition upper : string -> string := map_chars upper_char.

(** Truth value of a [str]: [not s] is [is_empty s]. *)
Definition is_empty (s : string) : bool :=
  match s with EmptyString => true | _ => false end.

(** [x in xs] for a list of strings. *)
Definition str_in (x : string) (xs : list string) : bool :=
  existsb (String.eqb x) xs.

(** [len(xs) != len(set(xs))] *)
Fixpoint has_duplicates (xs : list string) : bool :=
  match xs with
  | [] => false
  | x :: xs' => str_in x xs' || has_duplicates xs'
  end.

(** [", ".join(xs)] and the like. *)
Fixpoint join (sep : string) (xs : list string) : string :=
  match xs with
  | [] => ""
  | [x] => x
  | x :: xs' => x +:+ sep +:+ join sep xs'
  end.

End Text.

(* ===================================================================== *)
(** * Python dicts that are iterated: insertion-ordered association lists *)
(* ===================================================================== *)

Module Dict.

Section Ops.
Context {V : Type}.

(** [d[k] = v]: an existing key keeps its place, a new one goes last. *)
Fixpoint dict_set (k : string) (v : V) (d : list (string * V)) : list (string * V) :=
  match d with
  | [] => [(k, v)]
  | (k', v') :: d' =>
      if String.eqb k k' then (k', v) :: d' else (k', v') :: dict_set k v d'
  end.

(** [d.get(k)] *)
Fixpoint dict_get (k : string) (d : list (string * V)) : option V :=
  match d with
  | [] => None
  | (k', v) :: d' => if String.eqb k k' then Some v else dict_get k d'
  end.

(** [dict(pairs)] *)
Definition dict (pairs : list (string * V)) : list (string * V) :=
  fold_left (fun d kv => dict_set (fst kv) (snd kv) d) pairs [].

(** [list(d.keys())] and [list(d.values())] *)
Definition keys (d : list (string * V)) : list string := map fst d.
Definition values (d : list (string * V)) : list V := map snd d.

End Ops.

End Dict.

(* ===================================================================== *)
(** * Exceptions and effects *)
(* ===================================================================== *)

(** The exceptions that the modelled code raises or lets through. The
    payload of [MCQGenerationError] is the number of attempts that its
    message reports. *)
Inductive exception :=
| ValueError (msg : string)
| TypeError
| AttributeError
| KeyError (key : string)
| LLMError (msg : string)
| MCQGenerationError (attempts : Z)
| OtherException (msg : string).

(** A computation that may raise. *)
Definition result (A : Type) : Type := (exception + A)%type.

(** A computation over the outside world [W] that may raise. *)
Definition io (W A : Type) : Type := W -> result A * W.

(* ===================================================================== *)
(** * models.py *)
(* ===================================================================== *)

Module Models.
Import Text Dict.

Inductive DifficultyLevel := EASY | MEDIUM | HARD.

(** [DifficultyLevel.value] *)
Definition value (d : DifficultyLevel) : string :=
  match d with EASY => "Easy" | MEDIUM => "Medium" | HARD => "Hard" end.

Record Question := mkQuestion {
  question_id : string;
  test_section : string;
  main_topic : string;
  subtopic : string;
  difficulty : DifficultyLevel;
  question_text_en : string;
  option_a_en : string;
  option_b_en : string;
  option_c_en : string;
  option_d_en : string;
  correct_answer : string;
  explanation : string;
  references : list string;
  created_at : string;
  source_pdf : option string;
  has_diagram : bool;
  image_reference : option string;
  image_description : option string;
  tags : list string
}.

(** [errors.append(msg)] when [cond] holds. *)
Definition append_if (cond : bool) (msg : string) (errors : list string) : list string :=
  if cond then errors ++ [msg] else errors.

(** [Question.validate] *)
Definition validate (self : Question) : list string :=
  let errors := [] in
  (* Check required fields *)
  let errors := append_if (is_empty (strip (question_text_en self)))
                  "Question text is empty" errors in
  let errors := append_if (is_empty (strip (option_a_en self))) "Option A is empty" errors in
  let errors := append_if (is_empty (strip (option_b_en self))) "Option B is empty" errors in
  let errors := append_if (is_empty (strip (option_c_en self))) "Option C is empty" errors in
  let errors := append_if (is_empty (strip (option_d_en self))) "Option D is empty" errors in
  (* Check correct answer *)
  let errors := append_if (negb (str_in (correct_answer self) ["A"; "B"; "C"; "D"]))
                  ("Correct answer must be A, B, C, or D (got '"
                     +:+ correct_answer self +:+ "')") errors in
  (* Check explanation *)
  let errors :=
    if is_empty (strip (explanation self)) then errors ++ ["Explanation is empty"]
    else if len (strip (explanation self)) <? 20
         then errors ++ ["Explanation is too short (< 20 characters)"]
         else errors in
  (* Check for duplicate options *)
  let options := [ lower (strip (option_a_en self)); lower (strip (option_b_en self));
                   lower (strip (option_c_en self)); lower (strip (option_d_en self)) ] in
  let errors := append_if (has_duplicates options) "Options contain duplicates" errors in
  (* Check metadata *)
  let errors := append_if (is_empty (strip (test_section self))) "Test section is empty" errors in
  let errors := append_if (is_empty (strip (main_topic self))) "Main topic is empty" errors in
  errors.

(** [Question.is_valid] *)
Definition is_valid (self : Question) : bool :=
  (Z.of_nat (length (validate self)) =? 0).

(** [PaperConfig]. The percentages are Python floats; the model leaves
    their type open. *)
Record PaperConfig (float : Type) := mkPaperConfig {
  paper_name : string;
  subject : string;
  total_questions : Z;
  section_distribution : list (string * Z);
  difficulty_distribution : list (string * float)
}.
Arguments mkPaperConfig {float}.
Arguments paper_name {float}.
Arguments subject {float}.
Arguments total_questions {float}.
Arguments section_distribution {float}.
Arguments difficulty_distribution {float}.

Section DifficultyCounts.

Context {float : Type}.

(** [int(section_count * percentage)]: the product is a float and [int]
    truncates it; [int] raises when the product is not finite, and the
    product itself when [section_count] is too large for a float. *)
Variable int_of_product : Z -> float -> result Z.

(** The [for] loop of [get_difficulty_counts]. *)
Fixpoint difficulty_counts_loop (last_key : string) (section_count : Z)
    (items : list (string * float)) (counts : list (string * Z)) (remaining : Z)
  : result (list (string * Z)) :=
  match items with
  | [] => inr counts
  | (difficulty, percentage) :: items' =>
      if String.eqb difficulty last_key then
        (* Last difficulty gets remaining questions *)
        difficulty_counts_loop last_key section_count items'
          (dict_set difficulty remaining counts) remaining
      else
        match int_of_product section_count percentage with
        | inl e => inl e
        | inr count =>
            difficulty_counts_loop last_key section_count items'
              (dict_set difficulty count counts) (remaining - count)
        end
  end.

(** [PaperConfig.get_difficulty_counts] *)
Definition get_difficulty_counts (self : PaperConfig float) (section_count : Z)
  : result (list (string * Z)) :=
  let items := difficulty_distribution self in
  (* list(self.difficulty_distribution.keys())[-1]; the loop does not run
     on an empty dict *)
  let last_key := List.last (keys items) "" in
  difficulty_counts_loop last_key section_count items [] section_count.

End DifficultyCounts.

End Models.

(* ===================================================================== *)
(** * The json module of the Python library, as far as [json.loads] goes *)
(* ===================================================================== *)

Module Json.
Import Text Dict.

(** The decoder follows [json.decoder] and [json.scanner] function by
    function. What it leaves out are the limits of the interpreter (the
    recursion limit, the limit on the digits of an integer).

    A decoded JSON value. A number with a fraction or an exponent is kept as
    its lexeme, so that no floating-point arithmetic is needed; a [dict] keeps
    its keys in insertion order. *)
Inductive json :=
| JNull
| JBool (b : bool)
| JInt (z : Z)
| JFloat (lexeme : string)
| JStr (s : string)
| JList (values : list json)
| JDict (items : list (string * json)).

(** Outcome of a scanning function: a value, a [JSONDecodeError] (or the
    [StopIteration] that [json] turns into one), or the recursion budget of
    the model used up. *)
Inductive decoded (A : Type) :=
| Done (a : A)
| DecodeError
| OutOfFuel.
Arguments Done {A} a.
Arguments DecodeError {A}.
Arguments OutOfFuel {A}.

#[global] Instance decoded_bind : MBind decoded := fun A B f x =>
  match x with
  | Done a => f a
  | DecodeError => DecodeError
  | OutOfFuel => OutOfFuel
  end.

Definition of_option {A} (x : option A) : decoded A :=
  match x with Some a => Done a | None => DecodeError end.

Definition quote : ascii := "034"%char.
Definition backslash : ascii := "\"%char.

(** [WHITESPACE_STR = ' \t\n\r'] *)
Definition is_ws (c : ascii) : bool :=
  (code c =? 32)%N || (code c =? 9)%N || (code c =? 10)%N || (code c =? 13)%N.

(** [WHITESPACE.match(s, end).end()] *)
Fixpoint skip_ws (s : string) : string :=
  match s with
  | EmptyString => EmptyString
  | String c s' => if is_ws c then skip_ws s' else s
  end.

(** [s[idx:idx + len(p)] == p], giving what follows. *)
Fixpoint strip_prefix (p s : string) : option string :=
  match p with
  | EmptyString => Some s
  | String a p' =>
      match s with
      | EmptyString => None
      | String b s' => if (a =? b)%char then strip_prefix p' s' else None
      end
  end.

(** The [BACKSLASH] table. *)
Definition BACKSLASH (esc : ascii) : option ascii :=
  if (esc =? quote)%char then Some quote
  else if (esc =? backslash)%char then Some backslash
  else if (esc =? "/")%char then Some "/"%char
  else if (esc =? "b")%char then Some "008"%char
  else if (esc =? "f")%char then Some "012"%char
  else if (esc =? "n")%char then Some "010"%char
  else if (esc =? "r")%char then Some "013"%char
  else if (esc =? "t")%char then Some "009"%char
  else None.

Definition hex_digit (c : ascii) : option N :=
  if between 48 57 c then Some (code c - 48)%N
  else if between 65 70 c then Some (code c - 55)%N
  else if between 97 102 c then Some (code c - 87)%N
  else None.

(** [_decode_uXXXX] on the four characters after [\u]. An escape that names
    a code point beyond U+00FF has no character in this model of text and is
    reported as a failure. *)
Definition decode_uXXXX (h1 h2 h3 h4 : ascii) : option ascii :=
  match hex_digit h1, hex_digit h2, hex_digit h3, hex_digit h4 with
  | Some a, Some b, Some c, Some d =>
      let uni := (((a * 16 + b) * 16 + c) * 16 + d)%N in
      if (uni <=? 255)%N then Some (ascii_of_N uni) else None
  | _, _, _, _ => None
  end.

Definition cons_char (c : ascii) (r : option (string * string)) : option (string * string) :=
  match r with
  | Some (v, rest) => Some (String c v, rest)
  | None => None
  end.

(** [py_scanstring(s, end, strict=True)], started after the opening quote:
    the decoded text and what follows the closing quote. *)
Fixpoint py_scanstring (s : string) : option (string * string) :=
  match s with
  | EmptyString => None
  | String c s' =>
      if (c =? quote)%char then Some (EmptyString, s')
      else if (c =? backslash)%char then
        match s' with
        | EmptyString => None
        | String esc s'' =>
            if (esc =? "u")%char then
              match s'' with
              | String h1 (String h2 (String h3 (String h4 rest))) =>
                  match decode_uXXXX h1 h2 h3 h4 with
                  | Some ch => cons_char ch (py_scanstring rest)
                  | None => None
                  end
              | _ => None
              end
            else
              match BACKSLASH esc with
              | Some ch => cons_char ch (py_scanstring s'')
              | None => None
              end
        end
      else if (code c <? 32)%N then None
      else cons_char c (py_scanstring s')
  end.

Definition is_digit (c : ascii) : bool := between 48 57 c.

(** The longest run of digits at the head of [s], and the rest. *)
Fixpoint span_digits (s : string) : string * string :=
  match s with
  | EmptyString => (EmptyString, EmptyString)
  | String c s' =>
      if is_digit c then let '(d, r) := span_digits s' in (String c d, r)
      else (EmptyString, s)
  end.

(** The integer group of [NUMBER_RE]: an optional minus sign, then a single
    zero or a non-zero digit followed by digits. *)
Definition match_integer (s : string) : option (string * string) :=
  let '(sign, s1) :=
    match s with
    | String c s' => if (c =? "-")%char then ("-", s') else ("", s)
    | EmptyString => ("", s)
    end in
  match s1 with
  | EmptyString => None
  | String c s2 =>
      if (c =? "0")%char then Some (sign +:+ "0", s2)
      else if is_digit c then
        let '(d, r) := span_digits s2 in Some (sign +:+ String c d, r)
      else None
  end.

(** The fraction group of [NUMBER_RE]: a dot and at least one digit. *)
Definition match_frac (s : string) : option (string * string) :=
  match s with
  | String c s1 =>
      if (c =? ".")%char then
        match span_digits s1 with
        | (EmptyString, _) => None
        | (d, r) => Some (String c d, r)
        end
      else None
  | EmptyString => None
  end.

(** The exponent group of [NUMBER_RE]: e or E, an optional sign, at least one
    digit. *)
Definition match_exp (s : string) : option (string * string) :=
  match s with
  | String e s1 =>
      if (e =? "e")%char || (e =? "E")%char then
        let '(sign, s2) :=
          match s1 with
          | String c s' =>
              if (c =? "-")%char || (c =? "+")%char then (String c "", s') else ("", s1)
          | EmptyString => ("", s1)
          end in
        match span_digits s2 with
        | (EmptyString, _) => None
        | (d, r) => Some (String e (sign +:+ d), r)
        end
      else None
  | EmptyString => None
  end.

(** [int(integer)] for a lexeme matched by [match_integer]. *)
Definition digits_value (d : string) : Z :=
  fold_left (fun acc c => acc * 10 + (Z.of_N (code c) - 48))
            (list_ascii_of_string d) 0.

Definition parse_int (integer : string) : Z :=
  match integer with
  | String c d => if (c =? "-")%char then - digits_value d else digits_value integer
  | EmptyString => 0
  end.

(** [NUMBER_RE.match] followed by the choice between [parse_int] and
    [parse_float]. *)
Definition match_number (s : string) : option (json * string) :=
  match match_integer s with
  | None => None
  | Some (integer, r) =>
      let '(frac, r1) :=
        match match_frac r with Some (f, r') => (Some f, r') | None => (None, r) end in
      let '(exp, r2) :=
        match match_exp r1 with Some (e, r') => (Some e, r') | None => (None, r1) end in
      match frac, exp with
      | None, None => Some (JInt (parse_int integer), r2)
      | _, _ => Some (JFloat (integer +:+ default "" frac +:+ default "" exp), r2)
      end
  end.

(** [JSONArray], given the loop over the elements. *)
Definition JSONArray (loop : string -> decoded (list json * string)) (s : string)
  : decoded (list json * string) :=
  let s1 := skip_ws s in
  match s1 with
  | String c r => if (c =? "]")%char then Done ([], r) else loop s1
  | EmptyString => loop s1
  end.

(** [JSONObject], given the loop over the pairs; the loop starts after the
    opening quote of a key. *)
Definition JSONObject (loop : string -> decoded (list (string * json) * string)) (s : string)
  : decoded (list (string * json) * string) :=
  match skip_ws s with
  | String c r =>
      if (c =? "}")%char then Done ([], r)
      else if (c =? quote)%char then loop r
      else DecodeError
  | EmptyString => DecodeError
  end.

(** [scan_once] with the loops of [JSONArray] and [JSONObject]. *)
Fixpoint scan_once (fuel : nat) (s : string) {struct fuel} : decoded (json * string) :=
  match fuel with
  | O => OutOfFuel
  | S fuel' =>
      match s with
      | EmptyString => DecodeError
      | String nextchar s' =>
          if (nextchar =? quote)%char then
            '(v, r) ← of_option (py_scanstring s'); Done (JStr v, r)
          else if (nextchar =? "{")%char then
            '(pairs, r) ← JSONObject (object_loop fuel') s'; Done (JDict (dict pairs), r)
          else if (nextchar =? "[")%char then
            '(values, r) ← JSONArray (array_loop fuel') s'; Done (JList values, r)
          else
            match strip_prefix "null" s, strip_prefix "true" s, strip_prefix "false" s with
            | Some r, _, _ => Done (JNull, r)
            | None, Some r, _ => Done (JBool true, r)
            | None, None, Some r => Done (JBool false, r)
            | None, None, None =>
                match match_number s with
                | Some res => Done res
                | None =>
                    match strip_prefix "NaN" s, strip_prefix "Infinity" s,
                          strip_prefix "-Infinity" s with
                    | Some r, _, _ => Done (JFloat "NaN", r)
                    | None, Some r, _ => Done (JFloat "Infinity", r)
                    | None, None, Some r => Done (JFloat "-Infinity", r)
                    | None, None, None => DecodeError
                    end
                end
            end
      end
  end

with array_loop (fuel : nat) (s : string) {struct fuel} : decoded (list json * string) :=
  match fuel with
  | O => OutOfFuel
  | S fuel' =>
      '(value, r) ← scan_once fuel' s;
      match skip_ws r with
      | String nextchar r1 =>
          if (nextchar =? "]")%char then Done ([value], r1)
          else if (nextchar =? ",")%char then
            '(values, r2) ← array_loop fuel' (skip_ws r1); Done (value :: values, r2)
          else DecodeError
      | EmptyString => DecodeError
      end
  end

with object_loop (fuel : nat) (s : string) {struct fuel}
  : decoded (list (string * json) * string) :=
  match fuel with
  | O => OutOfFuel
  | S fuel' =>
      '(key, r) ← of_option (py_scanstring s);
      match skip_ws r with
      | String colon r1 =>
          if (colon =? ":")%char then
            '(value, r2) ← scan_once fuel' (skip_ws r1);
            match skip_ws r2 with
            | String nextchar r3 =>
                if (nextchar =? "}")%char then Done ([(key, value)], r3)
                else if (nextchar =? ",")%char then
                  match skip_ws r3 with
                  | String q r4 =>
                      if (q =? quote)%char then
                        '(pairs, r5) ← object_loop fuel' r4;
                        Done ((key, value) :: pairs, r5)
                      else DecodeError
                  | EmptyString => DecodeError
                  end
                else DecodeError
            | EmptyString => DecodeError
            end
          else DecodeError
      | EmptyString => DecodeError
      end
  end.

(** Recursion budget that [json_loads] gives the scanner: enough for every
    text of that length ([json_loads_fuel] below). *)
Definition loads_fuel (s : string) : nat := (2 * String.length s + 2)%nat.

(** [JSONDecoder.decode]: leading whitespace, one value, trailing whitespace,
    nothing else. [None] is [JSONDecodeError]. *)
Definition decode (fuel : nat) (s : string) : decoded json :=
  '(obj, r) ← scan_once fuel (skip_ws s);
  if is_empty (skip_ws r) then Done obj else DecodeError.

Definition json_loads (s : string) : option json :=
  match decode (loads_fuel s) s with
  | Done obj => Some obj
  | _ => None
  end.

(** Reads an apostrophe as a double quote, to write JSON text in examples. *)
Definition dq (s : string) : string :=
  map_chars (fun c => if (c =? "'")%char then quote else c) s.

End Json.

(* ===================================================================== *)
(** * config.py *)
(* ===================================================================== *)

Module Config.

Record GenerationConfig := mkGenerationConfig {
  min_explanation_length : Z;
  require_references : bool;
  min_references : Z;
  max_validation_retries : Z;
  include_metadata : bool;
  use_few_shot : bool;
  num_few_shot_examples : Z
}.

Definition DEFAULT_GENERATION_CONFIG : GenerationConfig :=
  {| min_explanation_length := 20;
     require_references := true;
     min_references := 1;
     max_validation_retries := 2;
     include_metadata := true;
     use_few_shot := true;
     num_few_shot_examples := 2 |}.

End Config.

(* ===================================================================== *)
(** * mcq_generator.py *)
(* ===================================================================== *)

Module mcq_generator.
Import Text Dict Json Models Config.

(** What follows the first occurrence of [c] in [s]. *)
Fixpoint after_first (c : ascii) (s : string) : option string :=
  match s with
  | EmptyString => None
  | String x s' => if (x =? c)%char then Some s' else after_first c s'
  end.

(** [s] up to and including the last occurrence of [c]. *)
Fixpoint upto_last (c : ascii) (s : string) : option string :=
  match s with
  | EmptyString => None
  | String x s' =>
      match upto_last c s' with
      | Some p => Some (String x p)
      | None => if (x =? c)%char then Some (String x EmptyString) else None
      end
  end.

(** [re.search(open .* close, text, re.DOTALL)] and [group(0)] of the match:
    the leftmost opening character that has a closing character after it,
    up to the last closing character of the text. *)
Definition re_search (opening closing : ascii) (text : string) : option string :=
  match after_first opening text with
  | None => None
  | Some rest =>
      match upto_last closing rest with
      | None => None
      | Some body => Some (String opening body)
      end
  end.

(** Whether [s] starts with whitespace (possibly none) and then a closing
    bracket or brace: the group of the pattern of [_clean_json]. *)
Fixpoint closes (s : string) : bool :=
  match s with
  | EmptyString => false
  | String c s' =>
      if (c =? "]")%char || (c =? "}")%char then true
      else if isspace c then closes s' else false
  end.

(** [MCQGenerator._clean_json]: the substitution drops each comma that is
    followed by whitespace (possibly none) and a closing bracket or brace,
    and keeps what the group matched. *)
Fixpoint _clean_json (json_str : string) : string :=
  match json_str with
  | EmptyString => EmptyString
  | String c s' =>
      if (c =? ",")%char && closes s' then _clean_json s'
      else String c (_clean_json s')
  end.

(** [MCQGenerator._parse_llm_response]. The messages of the errors are cut
    before what they quote of the decoder or of the type. *)
Definition _parse_llm_response (response_text : string) : result (list json) :=
  (* Try to find JSON array in response *)
  let json_str :=
    match re_search "[" "]" response_text with
    | None =>
        (* Try to find single object and wrap it *)
        match re_search "{" "}" response_text with
        | Some m => inr ("[" +:+ m +:+ "]")
        | None => inl (ValueError "No JSON found in LLM response")
        end
    | Some m => inr m
    end in
  match json_str with
  | inl e => inl e
  | inr json_str =>
      let data :=
        match json_loads json_str with
        | Some data => Some data
        | None =>
            (* Try to clean up common issues *)
            json_loads (_clean_json json_str)
        end in
      match data with
      | None => inl (ValueError "Invalid JSON in LLM response")
      | Some (JDict items) => inr [JDict items]
      | Some (JList values) => inr values
      | Some _ => inl (ValueError "Expected JSON array or object")
      end
  end.

Fixpoint startswith (p s : string) : bool :=
  match p, s with
  | EmptyString, _ => true
  | String a p', String b s' => (a =? b)%char && startswith p' s'
  | String _ _, EmptyString => false
  end.

(** [p in s] for two strings. *)
Fixpoint is_substring (p s : string) : bool :=
  startswith p s ||
  match s with
  | EmptyString => false
  | String _ s' => is_substring p s'
  end.

(** [f in q_dict], for whatever value the model put in the array. *)
Definition contains (q_dict : json) (f : string) : result bool :=
  match q_dict with
  | JDict d => inr (bool_decide (is_Some (dict_get f d)))
  | JStr s => inr (is_substring f s)
  | JList values =>
      inr (existsb (fun v => match v with JStr x => String.eqb x f | _ => false end) values)
  | _ => inl TypeError
  end.

Definition required_fields : list string :=
  [ "question_text_en"; "option_a_en"; "option_b_en"; "option_c_en"; "option_d_en";
    "correct_answer"; "explanation" ].

(** [[f for f in required_fields if f not in q_dict]] *)
Fixpoint missing_fields (q_dict : json) (fields : list string) : result (list string) :=
  match fields with
  | [] => inr []
  | f :: fields' =>
      match contains q_dict f with
      | inl e => inl e
      | inr present =>
          match missing_fields q_dict fields' with
          | inl e => inl e
          | inr missing => inr (if present then missing else f :: missing)
          end
      end
  end.

(** [str(missing)] for a list of field names. *)
Definition repr_names (names : list string) : string :=
  "[" +:+ join ", " (map (fun f => "'" +:+ f +:+ "'") names) +:+ "]".

(** The outside world and the collaborators of the generator: the model
    call [llm_client.generate], [uuid.uuid4], [datetime.now], the prompt
    builder and the built-in [str] on decoded values. *)
Class Collaborators (World : Type) := {
  llm_generate : string -> io World string;
  uuid4 : World -> string * World;
  datetime_now : World -> string * World;
  build_mcq_generation_prompt :
    string -> string -> string -> DifficultyLevel -> Z -> bool -> string;
  str : json -> string
}.

Section Generator.

Context {World : Type} `{!Collaborators World}.

(** [self.config] *)
Variable config : GenerationConfig.

(** [MCQGenerator._dict_to_question] *)
Definition _dict_to_question (q_dict : json)
    (test_section main_topic subtopic : string) (difficulty : DifficultyLevel)
  : io World Question := fun w =>
  (* Check required fields *)
  match missing_fields q_dict required_fields with
  | inl e => (inl e, w)
  | inr (f :: fs) =>
      (inl (ValueError ("Missing required fields: " +:+ repr_names (f :: fs))), w)
  | inr [] =>
      match q_dict with
      | JDict d =>
          let field k := strip (str (default JNull (dict_get k d))) in
          (* Extract references (handle both list and string) *)
          let references :=
            match dict_get "references" d with
            | Some (JStr s) => [JStr s]
            | Some (JList rs) => rs
            | _ => []
            end in
          (* Create Question object *)
          let '(id, w1) := uuid4 w in
          let '(now, w2) := datetime_now w1 in
          (inr {| question_id := id;
                  test_section := test_section;
                  main_topic := main_topic;
                  subtopic := subtopic;
                  difficulty := difficulty;
                  question_text_en := field "question_text_en";
                  option_a_en := field "option_a_en";
                  option_b_en := field "option_b_en";
                  option_c_en := field "option_c_en";
                  option_d_en := field "option_d_en";
                  correct_answer := upper (field "correct_answer");
                  explanation := field "explanation";
                  references := map (fun r => strip (str r)) references;
                  created_at := now;
                  source_pdf := None;
                  has_diagram := false;
                  image_reference := None;
                  image_description := None;
                  tags := [] |}, w2)
      | _ => (inl AttributeError, w)
      end
  end.

(** [MCQGenerator._passes_additional_validation] *)
Definition _passes_additional_validation (question : Question) : bool :=
  (* Check explanation length *)
  if len (explanation question) <? min_explanation_length config then false
  (* Check references *)
  else if require_references config
          && (Z.of_nat (length (references question)) <? min_references config)
  then false
  else
    let options := [ lower (option_a_en question); lower (option_b_en question);
                     lower (option_c_en question); lower (option_d_en question) ] in
    (* Check for options that are too short *)
    if existsb (fun opt => len opt <? 2) options then false
    else true.

Section Call.

(** The arguments of one call of [generate_mcqs], [test_section] after
    its defaulting to [main_topic]. *)
Variables (subject main_topic subtopic : string) (difficulty : DifficultyLevel).
Variable n : Z.
Variable test_section : string.

(** The [for] loop over the parsed records. *)
Fixpoint accept_dicts (question_dicts : list json) (questions : list Question)
    (w : World) : list Question * World :=
  match question_dicts with
  | [] => (questions, w)
  | q_dict :: rest =>
      if n <=? Z.of_nat (length questions) then (questions, w)
      else
        match _dict_to_question q_dict test_section main_topic subtopic difficulty w with
        | (inl _, w1) => accept_dicts rest questions w1
        | (inr question, w1) =>
            (* Validate *)
            match validate question with
            | _ :: _ => accept_dicts rest questions w1
            | [] =>
                (* Additional validation *)
                if negb (_passes_additional_validation question)
                then accept_dicts rest questions w1
                else accept_dicts rest (questions ++ [question]) w1
            end
        end
  end.

(** What the body of the outer [try] does with the text of the model: parse
    it, then filter the records. A parse error abandons the attempt. *)
Definition accept_response (response_text : string) (questions : list Question)
    (w : World) : list Question * World :=
  match _parse_llm_response response_text with
  | inl _ => (questions, w)
  | inr question_dicts => accept_dicts question_dicts questions w
  end.

(** The body of the outer [try]: one model call and what is accepted from
    it. Any exception abandons the attempt and keeps [questions]. *)
Definition attempt (questions : list Question) (w : World) : list Question * World :=
  let remaining := n - Z.of_nat (length questions) in
  let prompt := build_mcq_generation_prompt subject main_topic subtopic difficulty
                  remaining (use_few_shot config) in
  match llm_generate prompt w with
  | (inl _, w1) => (questions, w1)
  | (inr response_text, w1) => accept_response response_text questions w1
  end.

(** The [while] loop. Each turn adds one to [attempts], so
    [max_attempts - attempts] turns are always enough; [budget] counts
    them down. *)
Fixpoint attempts_loop (budget : nat) (max_attempts : Z)
    (questions : list Question) (attempts : Z) (w : World)
  : list Question * Z * World :=
  match budget with
  | O => (questions, attempts, w)
  | S budget' =>
      if (Z.of_nat (length questions) <? n) && (attempts <? max_attempts) then
        let attempts := attempts + 1 in
        let '(questions, w1) := attempt questions w in
        attempts_loop budget' max_attempts questions attempts w1
      else (questions, attempts, w)
  end.

Definition run_attempts (w : World) : list Question * Z * World :=
  let max_attempts := n * (1 + max_validation_retries config) in
  attempts_loop (Z.to_nat max_attempts) max_attempts [] 0 w.

End Call.

(** [MCQGenerator.generate_mcqs] *)
Definition generate_mcqs (subject main_topic subtopic : string)
    (difficulty : DifficultyLevel) (n : Z) (test_section : option string)
  : io World (list Question) := fun w =>
  let test_section :=
    match test_section with
    | Some s => if is_empty s then main_topic else s
    | None => main_topic
    end in
  let '(questions, attempts, w1) :=
    run_attempts subject main_topic subtopic difficulty n test_section w in
  if Z.of_nat (length questions) =? 0
  then (inl (MCQGenerationError attempts), w1)
  else (inr questions, w1).

End Generator.

(** The module-level [generate_mcqs]: a generator with the default
    configuration, and no [test_section]. *)
Definition generate_mcqs_default {World : Type} `{!Collaborators World}
    (subject main_topic subtopic : string) (difficulty : DifficultyLevel) (n : Z)
  : io World (list Question) :=
  generate_mcqs DEFAULT_GENERATION_CONFIG subject main_topic subtopic difficulty n None.

End mcq_generator.

(* ===================================================================== *)
(** * paper_builder.py *)
(* ===================================================================== *)

Module paper_builder.
Import Text Dict Models.

(** [q.test_section = name] *)
Definition set_test_section (name : string) (q : Question) : Question :=
  {| question_id := question_id q;
     test_section := name;
     main_topic := main_topic q;
     subtopic := subtopic q;
     difficulty := difficulty q;
     question_text_en := question_text_en q;
     option_a_en := option_a_en q;
     option_b_en := option_b_en q;
     option_c_en := option_c_en q;
     option_d_en := option_d_en q;
     correct_answer := correct_answer q;
     explanation := explanation q;
     references := references q;
     created_at := created_at q;
     source_pdf := source_pdf q;
     has_diagram := has_diagram q;
     image_reference := image_reference q;
     image_description := image_description q;
     tags := tags q |}.

Record PaperSection := mkPaperSection {
  name : string;
  question_count : Z;
  (* {difficulty: count}, iterated in order *)
  difficulty_distribution : list (string * Z);
  (* [{main_topic, subtopic}] *)
  topics : list (gmap string string)
}.

Record Paper := mkPaper {
  paper_id : string;
  paper_name : string;
  subject : string;
  questions : list Question;
  created_at : string
}.

(** The loop of [Paper.validate] over [enumerate(self.questions, 1)]. *)
Fixpoint question_errors (i : Z) (qs : list Question) (errors : list string) : list string :=
  match qs with
  | [] => errors
  | q :: qs' =>
      let errors :=
        match validate q with
        | [] => errors
        | q_errors =>
            errors ++ ["Question " +:+ pretty i +:+ " invalid: " +:+ join ", " q_errors]
        end in
      question_errors (i + 1) qs' errors
  end.

(** [Paper.validate] *)
Definition Paper_validate (self : Paper) : list string :=
  let errors := [] in
  (* Check total count *)
  let errors := append_if (Z.of_nat (length (questions self)) =? 0)
                  "Paper has no questions" errors in
  (* Check for duplicate question IDs *)
  let question_ids := map question_id (questions self) in
  let errors := append_if (has_duplicates question_ids)
                  "Paper contains duplicate question IDs" errors in
  (* Validate each question *)
  question_errors 1 (questions self) errors.

(** [QuestionBank]. [state_file] is what the file on disk holds under
    [used_question_ids], [None] while the file does not exist. *)
Record QuestionBank := mkQuestionBank {
  state_file : option (list string);
  used_question_ids : gset string;
  all_questions : list Question
}.

(** [QuestionBank._load_state] *)
Definition _load_state (self : QuestionBank) : QuestionBank :=
  match state_file self with
  | Some ids =>
      {| state_file := state_file self;
         used_question_ids := list_to_set ids;
         all_questions := all_questions self |}
  | None => self
  end.

(** [QuestionBank.__init__] on a disk where the state file holds [file]. *)
Definition QuestionBank_init (file : option (list string)) : QuestionBank :=
  _load_state {| state_file := file; used_question_ids := ∅; all_questions := [] |}.

(** [QuestionBank._save_state]: the whole file is rewritten with
    [list(self.used_question_ids)]. *)
Definition _save_state (self : QuestionBank) : QuestionBank :=
  {| state_file := Some (elements (used_question_ids self));
     used_question_ids := used_question_ids self;
     all_questions := all_questions self |}.

(** One turn of the loop of [add_questions]. *)
Definition add_question (self : QuestionBank) (q : Question) : QuestionBank :=
  if decide (question_id q ∈ used_question_ids self) then self
  else {| state_file := state_file self;
          used_question_ids := {[ question_id q ]} ∪ used_question_ids self;
          all_questions := all_questions self ++ [q] |}.

(** [QuestionBank.add_questions] *)
Definition add_questions (qs : list Question) (self : QuestionBank) : QuestionBank :=
  _save_state (fold_left add_question qs self).

(** [QuestionBank.is_used] *)
Definition is_used (self : QuestionBank) (question_id : string) : bool :=
  bool_decide (question_id ∈ used_question_ids self).

(** [QuestionBank.clear] *)
Definition clear (self : QuestionBank) : QuestionBank :=
  _save_state {| state_file := state_file self; used_question_ids := ∅; all_questions := [] |}.

(** [DifficultyLevel[name]] *)
Definition DifficultyLevel_getitem (name : string) : result DifficultyLevel :=
  if String.eqb name "EASY" then inr EASY
  else if String.eqb name "MEDIUM" then inr MEDIUM
  else if String.eqb name "HARD" then inr HARD
  else inl (KeyError name).

(** [questions_per_topic + (1 if i < remainder else 0)] for the topic at
    index [i] of [num_topics] topics. *)
Definition topic_count (count : Z) (num_topics : nat) (i : nat) : Z :=
  let questions_per_topic := count / Z.of_nat num_topics in
  let remainder := count mod Z.of_nat num_topics in
  questions_per_topic + (if Z.of_nat i <? remainder then 1 else 0).

(** The outside world and the collaborators of the builder: the
    module-level [generate_mcqs] of [mcq_generator], the
    [generate_from_pair] of [self.multimodal_generator], [uuid.uuid4] and
    [datetime.now().isoformat()]. A [TextImagePair] is opaque. *)
Class Collaborators (World TextImagePair : Type) := {
  generate_mcqs :
    string -> string -> string -> DifficultyLevel -> Z -> io World (list Question);
  generate_from_pair :
    TextImagePair -> string -> string -> string -> DifficultyLevel -> Z ->
    io World (list Question);
  uuid4 : World -> string * World;
  now_isoformat : World -> string * World
}.

Section Builder.

Context {World TextImagePair : Type} `{!Collaborators World TextImagePair}.

Section Section_.

Variable section : PaperSection.
Variable subject : string.
Variable diagram_pairs : option (list TextImagePair).

(** The body of the loop over the topics, for a topic whose count is
    not zero: generate, stamp, extend. *)
Definition build_topic (difficulty : DifficultyLevel) (topic_spec : gmap string string)
    (topic_count : Z) (questions : list Question) : io World (list Question) := fun w =>
  let main_topic := default "General" (topic_spec !! "main_topic") in
  let subtopic := default "General" (topic_spec !! "subtopic") in
  let text_only w :=
    match generate_mcqs subject main_topic subtopic difficulty topic_count w with
    | (inl e, w') => (inl e, w')
    | (inr topic_questions, w') =>
        (* Update test_section *)
        (inr (questions ++ map (set_test_section (name section)) topic_questions), w')
    end in
  match diagram_pairs with
  | Some (first_pair :: _) =>
      (* Use first available pair *)
      match generate_from_pair first_pair subject main_topic subtopic difficulty topic_count w with
      | (inr topic_questions, w1) =>
          (inr (questions ++ map (set_test_section (name section)) topic_questions), w1)
      | (inl _, w1) =>
          (* Fallback to text-only *)
          text_only w1
      end
  | _ =>
      (* Text-only generation *)
      text_only w
  end.

(** The loop over [enumerate(section.topics)], from index [i]. *)
Fixpoint topics_loop (difficulty : DifficultyLevel) (count : Z) (i : nat)
    (rest : list (gmap string string)) (questions : list Question)
  : io World (list Question) := fun w =>
  match rest with
  | [] => (inr questions, w)
  | topic_spec :: rest' =>
      let topic_count := topic_count count (length (topics section)) i in
      if topic_count =? 0 then topics_loop difficulty count (S i) rest' questions w
      else
        match build_topic difficulty topic_spec topic_count questions w with
        | (inl e, w1) => (inl e, w1)
        | (inr questions, w1) => topics_loop difficulty count (S i) rest' questions w1
        end
  end.

(** The loop over [section.difficulty_distribution.items()]. *)
Fixpoint difficulties_loop (items : list (string * Z)) (questions : list Question)
  : io World (list Question) := fun w =>
  match items with
  | [] => (inr questions, w)
  | (difficulty_str, count) :: items' =>
      if count =? 0 then difficulties_loop items' questions w
      else
        match DifficultyLevel_getitem (upper difficulty_str) with
        | inl e => (inl e, w)
        | inr difficulty =>
            match topics section with
            | [] => difficulties_loop items' questions w
            | _ :: _ =>
                match topics_loop difficulty count 0 (topics section) questions w with
                | (inl e, w1) => (inl e, w1)
                | (inr questions, w1) => difficulties_loop items' questions w1
                end
            end
        end
  end.

(** [PaperBuilder._build_section] *)
Definition _build_section : io World (list Question) :=
  difficulties_loop (difficulty_distribution section) [].

End Section_.

(** The loop of [build_paper] over the sections. *)
Fixpoint sections_loop (subject : string) (diagram_pairs : option (list TextImagePair))
    (sections : list PaperSection) (all_questions : list Question)
  : io World (list Question) := fun w =>
  match sections with
  | [] => (inr all_questions, w)
  | section :: sections' =>
      match _build_section section subject diagram_pairs w with
      | (inl e, w1) => (inl e, w1)
      | (inr section_questions, w1) =>
          sections_loop subject diagram_pairs sections' (all_questions ++ section_questions) w1
      end
  end.

(** What [build_paper] leaves behind: its result, the question bank of
    the builder, the world, and of what it prints the paper validation
    report. *)
Record built := mkBuilt {
  returned : result Paper;
  bank : QuestionBank;
  world : World;
  report : list string
}.

(** [PaperBuilder.build_paper], with [self.question_bank] passed in and
    out. *)
Definition build_paper {float : Type} (config : PaperConfig float)
    (sections : list PaperSection) (diagram_pairs : option (list TextImagePair))
    (question_bank : QuestionBank) (w : World) : built :=
  (* Build each section *)
  match sections_loop (Models.subject config) diagram_pairs sections [] w with
  | (inl e, w1) =>
      {| returned := inl e; bank := question_bank; world := w1; report := [] |}
  | (inr all_questions, w1) =>
      (* Create paper *)
      let '(id, w2) := uuid4 w1 in
      let '(now, w3) := now_isoformat w2 in
      let paper := {| paper_id := id;
                      paper_name := Models.paper_name config;
                      subject := Models.subject config;
                      questions := all_questions;
                      created_at := now |} in
      (* Validate *)
      let errors := Paper_validate paper in
      let report :=
        match errors with
        | [] => ["Paper validated successfully!"]
        | _ :: _ => "Paper validation errors:" :: map (fun error => "   - " +:+ error) errors
        end in
      (* Add to question bank *)
      {| returned := inr paper;
         bank := add_questions all_questions question_bank;
         world := w3;
         report := report |}
  end.

End Builder.

End paper_builder.

(* ===================================================================== *)
(** * The vocabulary of the specification *)
(* ===================================================================== *)

Module Spec.
Import Text Dict Json Models Config mcq_generator paper_builder.

(** Whether [c] occurs in [s]. *)
Fixpoint occurs (c : ascii) (s : string) : bool :=
  match s with
  | EmptyString => false
  | String x s' => (x =? c)%char || occurs c s'
  end.

(** A mapping-like record. *)
Definition is_record (v : json) : bool :=
  match v with JDict _ => true | _ => false end.

(** The guarantee of the response parser as the specification states it:
    a non-empty list of mapping-like records, or a parse error. *)
Definition parser_guarantee (text : string) : Prop :=
  match _parse_llm_response text with
  | inl _ => True
  | inr values => values <> [] /\ forallb is_record values = true
  end.

(** [tail_swap s s']: [s] ends with a closing bracket, and [s'] is [s]
    with a comma put before that bracket. *)
Inductive tail_swap : string -> string -> Prop :=
| swap_here : tail_swap "]" ",]"
| swap_next c s s' : tail_swap s s' -> tail_swap (String c s) (String c s').

(** A parser that gives the same answer on both sides of a [tail_swap],
    and leaves rests that are again in [tail_swap]. *)
Definition swaps {A} (P : string -> option (A * string)) : Prop :=
  forall s s', tail_swap s s' ->
    match P s with
    | Some (v, r) => exists r', P s' = Some (v, r') /\ tail_swap r r'
    | None => P s' = None
    end.

(** A scanner that, on both sides of a [tail_swap], either gives the same
    value and leaves rests that are again in [tail_swap], or has used the
    last bracket on the left and fails on the right. *)
Definition carries {A} (P : string -> decoded (A * string)) : Prop :=
  forall s s' v r, tail_swap s s' -> P s = Done (v, r) ->
    (exists r', P s' = Done (v, r') /\ tail_swap r r')
    \/ (r = "" /\ forall x, P s' <> Done x).

(** The valid question of the repository's tests, under a given identifier
    and for a given topic and difficulty. *)
Definition topic_question (id main_topic subtopic : string) (difficulty : DifficultyLevel)
  : Question :=
  {| question_id := id;
     test_section := main_topic;
     main_topic := main_topic;
     subtopic := subtopic;
     difficulty := difficulty;
     question_text_en := "What is the determinant of a 2x2 identity matrix?";
     option_a_en := "0";
     option_b_en := "1";
     option_c_en := "2";
     option_d_en := "-1";
     correct_answer := "B";
     explanation :=
       "The determinant of an identity matrix is always 1, regardless of its size.";
     references := ["https://en.wikipedia.org/wiki/Determinant"];
     Models.created_at := "2026-01-01T00:00:00";
     source_pdf := None;
     has_diagram := false;
     image_reference := None;
     image_description := None;
     tags := [] |}.

Definition sample_question (id : string) : Question :=
  topic_question id "Linear Algebra" "Matrices and Determinants" MEDIUM.

(** The invariants of a question as the specification states them, one per
    item of its list: the four options are non-empty after trimming; the
    answer marker is one of the four letters; the explanation is non-empty
    and its trimmed length is at least 20, and at least the configured
    minimum; when references are required, there are at least the
    configured number of them; the trimmed, lower-cased options are
    distinct; section name and main topic are non-empty. *)
Inductive invariant :=
| OptionsNonEmpty | AnswerMarker | ExplanationMinimum | ReferencesMinimum
| OptionsDistinct | SectionAndTopic.

Definition satisfies (config : GenerationConfig) (i : invariant) (q : Question) : bool :=
  match i with
  | OptionsNonEmpty =>
      negb (is_empty (strip (option_a_en q))) && negb (is_empty (strip (option_b_en q)))
      && negb (is_empty (strip (option_c_en q))) && negb (is_empty (strip (option_d_en q)))
  | AnswerMarker => str_in (correct_answer q) ["A"; "B"; "C"; "D"]
  | ExplanationMinimum =>
      negb (is_empty (explanation q)) && (20 <=? len (strip (explanation q)))
      && (min_explanation_length config <=? len (explanation q))
  | ReferencesMinimum =>
      negb (require_references config)
      || (min_references config <=? Z.of_nat (length (references q)))
  | OptionsDistinct =>
      negb (has_duplicates [ lower (strip (option_a_en q)); lower (strip (option_b_en q));
                             lower (strip (option_c_en q)); lower (strip (option_d_en q)) ])
  | SectionAndTopic =>
      negb (is_empty (strip (test_section q))) && negb (is_empty (strip (main_topic q)))
  end.

(** The checks that [Question.validate] makes, one by one. *)
Inductive check :=
| QuestionText | OptionA | OptionB | OptionC | OptionD
| CorrectAnswer | Explanation | DistinctOptions | TestSection | MainTopic.

Definition all_checks : list check :=
  [ QuestionText; OptionA; OptionB; OptionC; OptionD;
    CorrectAnswer; Explanation; DistinctOptions; TestSection; MainTopic ].

(** What each check asks of a question. *)
Definition holds (c : check) (q : Question) : bool :=
  match c with
  | QuestionText => negb (is_empty (strip (question_text_en q)))
  | OptionA => negb (is_empty (strip (option_a_en q)))
  | OptionB => negb (is_empty (strip (option_b_en q)))
  | OptionC => negb (is_empty (strip (option_c_en q)))
  | OptionD => negb (is_empty (strip (option_d_en q)))
  | CorrectAnswer => str_in (correct_answer q) ["A"; "B"; "C"; "D"]
  | Explanation =>
      negb (is_empty (strip (explanation q))) && (20 <=? len (strip (explanation q)))
  | DistinctOptions =>
      negb (has_duplicates [ lower (strip (option_a_en q)); lower (strip (option_b_en q));
                             lower (strip (option_c_en q)); lower (strip (option_d_en q)) ])
  | TestSection => negb (is_empty (strip (test_section q)))
  | MainTopic => negb (is_empty (strip (main_topic q)))
  end.

(** The violation description that names each check. *)
Definition names (c : check) (q : Question) (msg : string) : Prop :=
  match c with
  | QuestionText => msg = "Question text is empty"
  | OptionA => msg = "Option A is empty"
  | OptionB => msg = "Option B is empty"
  | OptionC => msg = "Option C is empty"
  | OptionD => msg = "Option D is empty"
  | CorrectAnswer =>
      msg = "Correct answer must be A, B, C, or D (got '" +:+ correct_answer q +:+ "')"
  | Explanation =>
      msg = "Explanation is empty" \/ msg = "Explanation is too short (< 20 characters)"
  | DistinctOptions => msg = "Options contain duplicates"
  | TestSection => msg = "Test section is empty"
  | MainTopic => msg = "Main topic is empty"
  end.

(** What [validate] reports for one check. *)
Definition violation (c : check) (q : Question) : list string :=
  if holds c q then []
  else
    match c with
    | QuestionText => ["Question text is empty"]
    | OptionA => ["Option A is empty"]
    | OptionB => ["Option B is empty"]
    | OptionC => ["Option C is empty"]
    | OptionD => ["Option D is empty"]
    | CorrectAnswer =>
        ["Correct answer must be A, B, C, or D (got '" +:+ correct_answer q +:+ "')"]
    | Explanation =>
        if is_empty (strip (explanation q)) then ["Explanation is empty"]
        else ["Explanation is too short (< 20 characters)"]
    | DistinctOptions => ["Options contain duplicates"]
    | TestSection => ["Test section is empty"]
    | MainTopic => ["Main topic is empty"]
    end.

(** The model never gives anything to accept: from no text that it returns
    is a record accepted, whatever the call. Text that does not parse is
    the plainest case. *)
Definition never_accepted `{!mcq_generator.Collaborators World}
    (config : GenerationConfig) : Prop :=
  forall prompt w text w1,
    llm_generate prompt w = (inr text, w1) ->
    forall main_topic subtopic difficulty n test_section questions w',
      fst (accept_response config main_topic subtopic difficulty n test_section
             text questions w') = questions.

(** The built-in [str] on the decoded atoms whose text needs no float
    formatting and no [repr]: the examples use no others. *)
Definition str_atom (v : json) : string :=
  match v with
  | JStr s => s
  | JInt z => pretty z
  | JNull => "None"
  | JBool true => "True"
  | JBool false => "False"
  | _ => ""
  end.

(** A model driven by a script: the world is the number of calls made so
    far, the k-th call returns what the script says, identifiers and
    timestamps are numbered. *)
Definition scripted (script : nat -> result string) : mcq_generator.Collaborators nat :=
  {| llm_generate := fun _ k => (script k, S k);
     mcq_generator.uuid4 := fun k => ("uuid-" +:+ pretty (Z.of_nat k), k);
     datetime_now := fun k => ("2026-01-01T00:00:00", k);
     build_mcq_generation_prompt := fun subject main_topic subtopic difficulty n few_shot =>
       "Generate " +:+ pretty n +:+ " question(s) on " +:+ subtopic;
     str := str_atom |}.

(** A well-formed record, and a response that carries one such record in
    some prose. *)
Definition good_record : string :=
  dq ("{'question_text_en': 'What is the determinant of a 2x2 identity matrix?', "
      +:+ "'option_a_en': 'zero', 'option_b_en': 'one', 'option_c_en': 'two', "
      +:+ "'option_d_en': 'minus one', "
      +:+ "'correct_answer': 'b', "
      +:+ "'explanation': 'The determinant of an identity matrix is always 1.', "
      +:+ "'references': ['https://en.wikipedia.org/wiki/Determinant']}").

Definition good_response : string :=
  "Here is the question: [" +:+ good_record +:+ "] Hope this helps!".

(** A model that never answers with JSON. *)
Definition silent_model : mcq_generator.Collaborators nat :=
  scripted (fun _ => inr "Sorry, I can not help with that.").

(** A model whose first answer carries one good record and which then
    falls silent. *)
Definition one_shot_model : mcq_generator.Collaborators nat :=
  scripted (fun k => match k with
                     | O => inr good_response
                     | _ => inr "Sorry, I can not help with that."
                     end).

(** A model that answers every call with one good record. *)
Definition steady_model : mcq_generator.Collaborators nat :=
  scripted (fun _ => inr good_response).

(** The collaborators of the builder, made to keep a log of the questions
    that the generators return, as they return them. The log is not part
    of the program; it is there to say what the builder was given. *)
Definition logged {World TextImagePair : Type}
    (C : paper_builder.Collaborators World TextImagePair)
  : paper_builder.Collaborators (World * list Question) TextImagePair :=
  let keep (r : result (list Question) * World) (log : list Question) :=
    match r with
    | (inl e, w') => (inl e, (w', log))
    | (inr topic_questions, w') => (inr topic_questions, (w', log ++ topic_questions))
    end in
  {| paper_builder.generate_mcqs := fun subject main_topic subtopic difficulty n wl =>
       keep (paper_builder.generate_mcqs subject main_topic subtopic difficulty n (fst wl))
            (snd wl);
     generate_from_pair := fun pair subject main_topic subtopic difficulty n wl =>
       keep (generate_from_pair pair subject main_topic subtopic difficulty n (fst wl))
            (snd wl);
     paper_builder.uuid4 := fun wl =>
       (fst (paper_builder.uuid4 (fst wl)), (snd (paper_builder.uuid4 (fst wl)), snd wl));
     now_isoformat := fun wl =>
       (fst (now_isoformat (fst wl)), (snd (now_isoformat (fst wl)), snd wl)) |}.

(** Forgetting the log. *)
Definition unlogged {A World : Type} (r : A * (World * list Question)) : A * World :=
  (fst r, fst (snd r)).

(** A text generator that answers every request with one question on the
    topic, always under the identifier X, as many times as asked; there is
    no model for diagrams. *)
Definition repeating_generator : paper_builder.Collaborators unit unit :=
  {| paper_builder.generate_mcqs := fun subject main_topic subtopic difficulty n w =>
       (inr (repeat (topic_question "X" main_topic subtopic difficulty) (Z.to_nat n)), w);
     generate_from_pair := fun pair subject main_topic subtopic difficulty n w =>
       (inl (OtherException "no vision model"), w);
     paper_builder.uuid4 := fun w => ("paper-1", w);
     now_isoformat := fun w => ("2026-01-01T00:00:00", w) |}.

(** The builder on top of the text generator of [mcq_generator], with no
    model for diagrams. *)
Definition text_pipeline {World : Type} (G : mcq_generator.Collaborators World)
  : paper_builder.Collaborators World unit :=
  {| paper_builder.generate_mcqs := generate_mcqs_default;
     generate_from_pair := fun pair subject main_topic subtopic difficulty n w =>
       (inl (OtherException "no vision model"), w);
     paper_builder.uuid4 := mcq_generator.uuid4;
     now_isoformat := datetime_now |}.

(** One section of five easy questions over two topics. *)
Definition sample_section : PaperSection :=
  {| name := "Main Subject";
     question_count := 5;
     paper_builder.difficulty_distribution := [("Easy", 5); ("Hard", 0)];
     topics := [ {[ "main_topic" := "Material Science"; "subtopic" := "Crystal Structure" ]};
                 {[ "main_topic" := "Thermodynamics"; "subtopic" := "Phase Diagrams" ]} ] |}.

(** [q.question_text_en = text] *)
Definition set_question_text (text : string) (q : Question) : Question :=
  {| question_id := question_id q;
     test_section := test_section q;
     main_topic := main_topic q;
     subtopic := subtopic q;
     difficulty := difficulty q;
     question_text_en := text;
     option_a_en := option_a_en q;
     option_b_en := option_b_en q;
     option_c_en := option_c_en q;
     option_d_en := option_d_en q;
     correct_answer := correct_answer q;
     explanation := explanation q;
     references := references q;
     Models.created_at := Models.created_at q;
     source_pdf := source_pdf q;
     has_diagram := has_diagram q;
     image_reference := image_reference q;
     image_description := image_description q;
     tags := tags q |}.

(** [sum(xs)] *)
Definition sum_list (xs : list Z) : Z := fold_right Z.add 0 xs.

(** The per-topic counts that the loop over the topics of a section works
    out for a difficulty band of [count] questions, in the order of the
    topics. *)
Definition allocation (count : Z) (num_topics : nat) : list Z :=
  map (topic_count count num_topics) (seq 0 num_topics).

(** The identifiers that the state file of a bank holds. *)
Definition persisted_ids (b : QuestionBank) : list string :=
  default [] (state_file b).

(** The same as a set. *)
Definition persisted (b : QuestionBank) : gset string :=
  list_to_set (persisted_ids b).

(** The products that the loop of [get_difficulty_counts] computes are
    those of all items but the last; [computable] says that none of them
    raises. *)
Definition computable {float : Type} (int_of_product : Z -> float -> result Z)
    (section_count : Z) (items : list (string * float)) : Prop :=
  Forall (fun kp => exists count, int_of_product section_count (snd kp) = inr count)
         (removelast items).

(** Percentages as hundredths, to run the default distribution of
    [PaperConfig]: 0.60, 0.30 and 0.10 of the section. *)
Definition int_of_hundredths (section_count : Z) (hundredths : Z) : result Z :=
  inr (Z.quot (section_count * hundredths) 100).

Definition default_config : PaperConfig Z :=
  {| Models.paper_name := "Test Paper 1";
     Models.subject := "Metallurgical Engineering";
     total_questions := 100;
     section_distribution := [("Engineering Mathematics", 30); ("Physics", 20)];
     Models.difficulty_distribution := [("Easy", 60); ("Medium", 30); ("Hard", 10)] |}.

End Spec.

(* ===================================================================== *)
(** * multimodal_models.py *)
(* ===================================================================== *)

Module multimodal_models.
Import Text.

(** [ExtractedImage]. Its [bbox], a tuple of floats that only the
    extraction from the PDF library reads, is left out. *)
Module ExtractedImage.

Record t := mk {
  image_data : list Byte.byte;
  page_number : Z;
  image_index : Z;
  format : string;
  caption : option string;
  nearby_text : option string
}.

(** [ExtractedImage.size] *)
Definition size (self : t) : Z := Z.of_nat (length (image_data self)).

(** [ExtractedImage.to_base64], given [base64.b64encode]. *)
Definition to_base64 (b64encode : list Byte.byte -> string) (self : t) : string :=
  b64encode (image_data self).

End ExtractedImage.

Module PDFPage.

Record t := mk {
  page_number : Z;
  text : string;
  images : list ExtractedImage.t;
  has_formulas : bool;
  has_diagrams : bool
}.

End PDFPage.

Module TextImagePair.

Record t := mk {
  text : string;
  images : list ExtractedImage.t;
  page_number : Z;
  topic_hint : option string;
  source_pdf : option string
}.

(** [TextImagePair.has_multiple_images] *)
Definition has_multiple_images (self : t) : bool :=
  1 <? Z.of_nat (length (images self)).

(** [TextImagePair.total_image_size] *)
Definition total_image_size (self : t) : Z :=
  Spec.sum_list (map ExtractedImage.size (images self)).

(** [TextImagePair.get_image_base64_list] *)
Definition get_image_base64_list (b64encode : list Byte.byte -> string) (self : t)
  : list string :=
  map (ExtractedImage.to_base64 b64encode) (images self).

End TextImagePair.

Module PDFDocument.

Record t := mk {
  filepath : string;
  pages : list PDFPage.t;
  title : option string;
  subject : option string
}.

(** [PDFDocument.total_pages] *)
Definition total_pages (self : t) : Z := Z.of_nat (length (pages self)).

(** [PDFDocument.total_images] *)
Definition total_images (self : t) : Z :=
  Spec.sum_list (map (fun page => Z.of_nat (length (PDFPage.images page))) (pages self)).

(** [PDFDocument.get_pages_with_images] *)
Definition get_pages_with_images (self : t) : list PDFPage.t :=
  List.filter (fun page => match PDFPage.images page with [] => false | _ :: _ => true end)
              (pages self).

(** [PDFDocument.get_all_images] *)
Definition get_all_images (self : t) : list ExtractedImage.t :=
  fold_left (fun all_images page => all_images ++ PDFPage.images page) (pages self) [].

End PDFDocument.

End multimodal_models.

(* ===================================================================== *)
(** * pdf_extractor.py: the pairing of images with text *)
(* ===================================================================== *)

Module pdf_extractor.
Import Text multimodal_models.

(** A line feed and the separator of the parts of a pair's text. *)
Definition LF : string := String "010" EmptyString.

Section TextImagePairer.

(** [Path(source_pdf).name] *)
Variable path_name : string -> string.

(** [self.min_text_length] *)
Variable min_text_length : Z.

(** The truth value of an optional text: neither [None] nor empty. *)
Definition truthy (x : option string) : bool :=
  match x with
  | Some s => negb (is_empty s)
  | None => false
  end.

(** [TextImagePairer._create_single_image_pair] *)
Definition _create_single_image_pair (image : ExtractedImage.t) (page : PDFPage.t)
    (source_pdf : string) : option TextImagePair.t :=
  (* Combine caption and nearby text *)
  let text_parts := [] in
  let text_parts :=
    if truthy (ExtractedImage.caption image)
    then text_parts ++ ["Caption: " +:+ default "" (ExtractedImage.caption image)]
    else text_parts in
  let text_parts :=
    if truthy (ExtractedImage.nearby_text image)
    then text_parts ++ ["Context: " +:+ default "" (ExtractedImage.nearby_text image)]
    else text_parts in
  (* Fallback: use full page text if nothing better *)
  let text_parts :=
    match text_parts with
    | [] => text_parts ++ [substring 0 500 (PDFPage.text page)]
    | _ :: _ => text_parts
    end in
  let combined_text := join (LF +:+ LF) text_parts in
  (* Filter pairs with too little text *)
  if len combined_text <? min_text_length then None
  else Some {| TextImagePair.text := combined_text;
               TextImagePair.images := [image];
               TextImagePair.page_number := PDFPage.page_number page;
               TextImagePair.topic_hint := None;
               TextImagePair.source_pdf := Some (path_name source_pdf) |}.

(** The loop over the images of a page. *)
Fixpoint images_loop (images : list ExtractedImage.t) (page : PDFPage.t) (source_pdf : string)
    (pairs : list TextImagePair.t) : list TextImagePair.t :=
  match images with
  | [] => pairs
  | img :: images' =>
      match _create_single_image_pair img page source_pdf with
      | Some new_pair => images_loop images' page source_pdf (pairs ++ [new_pair])
      | None => images_loop images' page source_pdf pairs
      end
  end.

(** The loop over the pages of a document. *)
Fixpoint pages_loop (pages : list PDFPage.t) (source_pdf : string)
    (pairs : list TextImagePair.t) : list TextImagePair.t :=
  match pages with
  | [] => pairs
  | page :: pages' =>
      match PDFPage.images page with
      | [] => pages_loop pages' source_pdf pairs
      | _ :: _ =>
          (* Strategy 1: One pair per image (with caption + nearby text) *)
          pages_loop pages' source_pdf
            (images_loop (PDFPage.images page) page source_pdf pairs)
      end
  end.

(** [TextImagePairer.create_pairs] *)
Definition create_pairs (pdf_doc : PDFDocument.t) : list TextImagePair.t :=
  pages_loop (PDFDocument.pages pdf_doc) (PDFDocument.filepath pdf_doc) [].

End TextImagePairer.

(** The module-level [create_text_image_pairs]: a pairer with the default
    minimum of 50 characters. *)
Definition create_text_image_pairs (path_name : string -> string) (pdf_doc : PDFDocument.t)
  : list TextImagePair.t :=
  create_pairs path_name 50 pdf_doc.

End pdf_extractor.

(* ===================================================================== *)
(** * multimodal_prompts.py: the hint on the type of a diagram *)
(* ===================================================================== *)

Module multimodal_prompts.
Import Text mcq_generator.

(** [type_keywords], in the order of the dict. *)
Definition type_keywords : list (string * list string) :=
  [ ("phase diagram", ["phase diagram"; "equilibrium diagram"; "binary diagram"]);
    ("graph", ["graph"; "plot"; "curve"; "chart"]);
    ("circuit", ["circuit"; "schematic"; "wiring"]);
    ("flowchart", ["flowchart"; "flow chart"; "process flow"]);
    ("structure", ["structure"; "crystal structure"; "molecular structure"]);
    ("mechanism", ["mechanism"; "process"; "reaction mechanism"]);
    ("table", ["table"; "data table"]);
    ("formula", ["formula"; "equation"; "expression"]) ].

(** The two loops of [get_diagram_type_hint]: the first type, in the order
    of the table, one of whose keywords occurs in the text. *)
Fixpoint keywords_loop (text_lower : string) (keywords : list string) : bool :=
  match keywords with
  | [] => false
  | keyword :: keywords' =>
      if is_substring keyword text_lower then true else keywords_loop text_lower keywords'
  end.

Fixpoint types_loop (text_lower : string) (table : list (string * list string))
  : option string :=
  match table with
  | [] => None
  | (diagram_type, keywords) :: table' =>
      if keywords_loop text_lower keywords then Some diagram_type
      else types_loop text_lower table'
  end.

(** [get_diagram_type_hint] *)
Definition get_diagram_type_hint (text : string) : string :=
  let text_lower := lower text in
  match types_loop text_lower type_keywords with
  | Some diagram_type => diagram_type
  | None => "diagram" (* Default *)
  end.

End multimodal_prompts.

(* ===================================================================== *)
(** * multimodal_generator.py *)
(* ===================================================================== *)

Module multimodal_generator.
Import Text Dict Json Models Config multimodal_models multimodal_prompts.

(** [MultimodalMCQGenerator._clean_json]: the substitution is that of the
    text generator, pattern for pattern. *)
Definition _clean_json (json_str : string) : string := mcq_generator._clean_json json_str.

(** [MultimodalMCQGenerator._parse_vlm_response]. The messages of the
    errors are cut before what they quote of the decoder or of the type. *)
Definition _parse_vlm_response (response_text : string) : result (list json) :=
  let json_str :=
    match mcq_generator.re_search "[" "]" response_text with
    | None =>
        (* Try to find single object *)
        match mcq_generator.re_search "{" "}" response_text with
        | Some m => inr ("[" +:+ m +:+ "]")
        | None => inl (ValueError "No JSON found in VLM response")
        end
    | Some m => inr m
    end in
  match json_str with
  | inl e => inl e
  | inr json_str =>
      let data :=
        match json_loads json_str with
        | Some data => Some data
        | None =>
            (* Try to clean *)
            json_loads (_clean_json json_str)
        end in
      match data with
      | None => inl (ValueError "Invalid JSON in VLM response")
      (* Ensure it's a list *)
      | Some (JDict items) => inr [JDict items]
      | Some (JList values) => inr values
      | Some _ => inl (ValueError "Expected JSON array")
      end
  end.

Definition required_fields : list string :=
  [ "question_text_en"; "option_a_en"; "option_b_en";
    "option_c_en"; "option_d_en"; "correct_answer"; "explanation" ].

Definition diagram_keywords : list string :=
  [ "shown"; "diagram"; "figure"; "graph"; "image"; "above";
    "below"; "illustrated"; "depicted"; "displayed"; "curve";
    "plot"; "chart"; "table" ].

(** The outside world and the collaborators of the generator: the model
    call [vlm_client.generate_multimodal], [uuid.uuid4] and [datetime.now]
    behind the defaults of [Question], the prompt builder,
    [base64.b64encode] and the built-in [str] on decoded values. *)
Class Collaborators (World : Type) := {
  generate_multimodal : string -> list string -> io World string;
  uuid4 : World -> string * World;
  datetime_now : World -> string * World;
  build_multimodal_prompt :
    string -> Z -> DifficultyLevel -> string -> string -> string -> Z -> string -> string;
  b64encode : list Byte.byte -> string;
  str : json -> string
}.

Section Generator.

Context {World : Type} `{!Collaborators World}.

(** [self.config] *)
Variable config : GenerationConfig.

(** [MultimodalMCQGenerator._dict_to_question]. What is not a string is
    iterated as it is: a list gives its elements, a dict its keys, and
    anything else raises. *)
Definition _dict_to_question (q_dict : json)
    (test_section main_topic subtopic : string) (difficulty : DifficultyLevel)
    (pair : TextImagePair.t) : io World Question := fun w =>
  match mcq_generator.missing_fields q_dict required_fields with
  | inl e => (inl e, w)
  | inr (f :: fs) =>
      (inl (ValueError ("Missing required fields: "
                          +:+ mcq_generator.repr_names (f :: fs))), w)
  | inr [] =>
      match q_dict with
      | JDict d =>
          let field k := strip (str (default JNull (dict_get k d))) in
          (* Extract references *)
          let references : result (list json) :=
            match dict_get "references" d with
            | None => inr []
            | Some (JStr s) => inr [JStr s]
            | Some (JList rs) => inr rs
            | Some (JDict items) => inr (map JStr (keys items))
            | Some _ => inl TypeError
            end in
          match references with
          | inl e => (inl e, w)
          | inr references =>
              (* Create Question *)
              let '(id, w1) := uuid4 w in
              let '(now, w2) := datetime_now w1 in
              (inr {| question_id := id;
                      test_section := test_section;
                      main_topic := main_topic;
                      subtopic := subtopic;
                      difficulty := difficulty;
                      question_text_en := field "question_text_en";
                      option_a_en := field "option_a_en";
                      option_b_en := field "option_b_en";
                      option_c_en := field "option_c_en";
                      option_d_en := field "option_d_en";
                      correct_answer := upper (field "correct_answer");
                      explanation := field "explanation";
                      references := map (fun r => strip (str r)) references;
                      created_at := now;
                      source_pdf := TextImagePair.source_pdf pair;
                      has_diagram := true;
                      image_reference := None;
                      image_description := None;
                      tags := [] |}, w2)
          end
      | _ => (inl AttributeError, w)
      end
  end.

(** [MultimodalMCQGenerator._passes_additional_validation] *)
Definition _passes_additional_validation (question : Question) : bool :=
  if len (explanation question) <? min_explanation_length config then false
  else if require_references config
          && (Z.of_nat (length (references question)) <? min_references config)
  then false
  else
    (* Check for diagram-specific keywords in question *)
    let question_lower := lower (question_text_en question) in
    if negb (existsb (fun keyword => mcq_generator.is_substring keyword question_lower)
                     diagram_keywords)
    then false
    else true.

Section Call.

(** The arguments of one call of [generate_from_pair], [test_section]
    after its defaulting to [main_topic]. *)
Variable pair : TextImagePair.t.
Variables (subject main_topic subtopic : string) (difficulty : DifficultyLevel).
Variable n : Z.
Variable test_section : string.

(** The [for] loop over the parsed records. *)
Fixpoint accept_dicts (question_dicts : list json) (questions : list Question)
    (w : World) : list Question * World :=
  match question_dicts with
  | [] => (questions, w)
  | q_dict :: rest =>
      if n <=? Z.of_nat (length questions) then (questions, w)
      else
        match _dict_to_question q_dict test_section main_topic subtopic difficulty pair w with
        | (inl _, w1) => accept_dicts rest questions w1
        | (inr question, w1) =>
            (* Validate *)
            match validate question with
            | _ :: _ => accept_dicts rest questions w1
            | [] =>
                (* Additional validation *)
                if negb (_passes_additional_validation question)
                then accept_dicts rest questions w1
                else accept_dicts rest (questions ++ [question]) w1
            end
        end
  end.

(** The body of the outer [try]: the prompt, one model call, and what is
    accepted from its text. Any exception abandons the attempt and keeps
    [questions]. *)
Definition attempt (questions : list Question) (w : World) : list Question * World :=
  let remaining := n - Z.of_nat (length questions) in
  (* Infer diagram type from text *)
  let diagram_type := get_diagram_type_hint (TextImagePair.text pair) in
  (* Build prompt *)
  let prompt := build_multimodal_prompt (TextImagePair.text pair)
                  (Z.of_nat (length (TextImagePair.images pair)))
                  difficulty subject main_topic subtopic remaining diagram_type in
  (* Get images as base64 *)
  let images_base64 := TextImagePair.get_image_base64_list b64encode pair in
  (* Call VLM *)
  match generate_multimodal prompt images_base64 w with
  | (inl _, w1) => (questions, w1)
  | (inr response_text, w1) =>
      (* Parse JSON *)
      match _parse_vlm_response response_text with
      | inl _ => (questions, w1)
      | inr question_dicts => accept_dicts question_dicts questions w1
      end
  end.

(** The [while] loop; [budget] counts its turns down, as in the text
    generator. *)
Fixpoint attempts_loop (budget : nat) (max_attempts : Z)
    (questions : list Question) (attempts : Z) (w : World)
  : list Question * Z * World :=
  match budget with
  | O => (questions, attempts, w)
  | S budget' =>
      if (Z.of_nat (length questions) <? n) && (attempts <? max_attempts) then
        let attempts := attempts + 1 in
        let '(questions, w1) := attempt questions w in
        attempts_loop budget' max_attempts questions attempts w1
      else (questions, attempts, w)
  end.

End Call.

(** [MultimodalMCQGenerator.generate_from_pair]: whatever was accepted is
    returned, be it nothing. *)
Definition generate_from_pair (pair : TextImagePair.t) (subject main_topic subtopic : string)
    (difficulty : DifficultyLevel) (n : Z) (test_section : option string)
  : io World (list Question) := fun w =>
  let test_section :=
    match test_section with
    | Some s => if is_empty s then main_topic else s
    | None => main_topic
    end in
  let max_attempts := n * (1 + max_validation_retries config) in
  let '(questions, attempts, w1) :=
    attempts_loop pair subject main_topic subtopic difficulty n test_section
      (Z.to_nat max_attempts) max_attempts [] 0 w in
  (inr questions, w1).

End Generator.

End multimodal_generator.

(* ===================================================================== *)
(** * llm_client.py *)
(* ===================================================================== *)

Module llm_client.
Import Text Dict Json.

(** [LLMConfig], without the address of the endpoint and the timeout, which
    only the HTTP library reads. *)
Record LLMConfig (float : Type) := mkLLMConfig {
  model_name : string;
  temperature : float;
  max_tokens : Z;
  max_retries : Z;
  retry_delay_seconds : Z
}.
Arguments mkLLMConfig {float}.
Arguments model_name {float}.
Arguments temperature {float}.
Arguments max_tokens {float}.
Arguments max_retries {float}.
Arguments retry_delay_seconds {float}.

(** The payload of a request in the Ollama format. *)
Record Payload (float : Type) := mkPayload {
  model : string;
  prompt : string;
  stream : bool;
  options_temperature : float;
  options_num_predict : Z;
  options_stop : option (list string)
}.
Arguments mkPayload {float}.

(** What comes back from [session.post], [raise_for_status] and
    [response.json]. *)
Inductive http_outcome :=
| RequestException
| JSONDecodeError
| Body (data : json).

(** The outside world of the client: the HTTP session and [time.sleep]. *)
Class Endpoint (World float : Type) := {
  session_post : Payload float -> World -> http_outcome * World;
  time_sleep : Z -> World -> World
}.

(** [data[key].strip()] after [key in data] gave [True]. *)
Definition getitem_strip (data : json) (key : string) : result string :=
  match data with
  | JDict d =>
      match dict_get key d with
      | Some (JStr s) => inr (strip s)
      | Some _ => inl AttributeError
      | None => inl (KeyError key)
      end
  | _ => inl TypeError
  end.

(** The extraction of the text from the decoded body, in [_call_llm]. *)
Definition extract_text (data : json) : result string :=
  (* Extract text from Ollama format *)
  match mcq_generator.contains data "response" with
  | inl e => inl e
  | inr true => getitem_strip data "response"
  | inr false =>
      (* Extract from generic format *)
      match mcq_generator.contains data "text" with
      | inl e => inl e
      | inr true => getitem_strip data "text"
      | inr false =>
          match mcq_generator.contains data "content" with
          | inl e => inl e
          | inr true => getitem_strip data "content"
          | inr false =>
              (* the message lists [data.keys()] *)
              match data with
              | JDict _ => inl (LLMError "Unexpected response format")
              | _ => inl AttributeError
              end
          end
      end
  end.

Section Client.

Context {World float : Type} `{!Endpoint World float}.

(** [self.config] *)
Variable config : LLMConfig float.

(** [LLMClient._build_payload] *)
Definition _build_payload (prompt : string) (temperature : float) (max_tokens : Z)
    (stop_sequences : option (list string)) : Payload float :=
  {| model := model_name config;
     prompt := prompt;
     stream := false;
     options_temperature := temperature;
     options_num_predict := max_tokens;
     options_stop :=
       match stop_sequences with
       | Some (s :: ss) => Some (s :: ss)
       | _ => None
       end |}.

(** [LLMClient._call_llm] *)
Definition _call_llm (payload : Payload float) : io World string := fun w =>
  match session_post payload w with
  | (RequestException, w1) => (inl (LLMError "HTTP request failed"), w1)
  | (JSONDecodeError, w1) => (inl (LLMError "Failed to parse JSON response"), w1)
  | (Body data, w1) => (extract_text data, w1)
  end.

(** The [for] loop of [generate] over [range(max_retries)], from
    [attempt] on, with [turns] turns left. *)
Fixpoint retry_loop (turns : nat) (attempt : Z) (payload : Payload float)
  : io World string := fun w =>
  match turns with
  | O =>
      (inl (LLMError ("Failed to generate response after "
                        +:+ pretty (max_retries config) +:+ " attempts")), w)
  | S turns' =>
      match _call_llm payload w with
      | (inr response, w1) => (inr response, w1)
      | (inl e, w1) =>
          let w2 :=
            if attempt <? max_retries config - 1
            then time_sleep (retry_delay_seconds config) w1
            else w1 in
          retry_loop turns' (attempt + 1) payload w2
      end
  end.

(** [LLMClient.generate]. The message of the final error is cut before the
    last error that it quotes. *)
Definition generate (prompt : string) (temperature : option float) (max_tokens : option Z)
    (stop_sequences : option (list string)) : io World string :=
  let temperature := default (llm_client.temperature config) temperature in
  let max_tokens := default (llm_client.max_tokens config) max_tokens in
  (* Build request payload *)
  let payload := _build_payload prompt temperature max_tokens stop_sequences in
  (* Try with retries *)
  retry_loop (Z.to_nat (max_retries config)) 0 payload.

End Client.

End llm_client.

(* ===================================================================== *)
(** * Scenarios: predicates and test doubles for the properties below *)
(* ===================================================================== *)

Module Scenarios.
Import Text Dict Json Models Config mcq_generator paper_builder Spec.
Import multimodal_models llm_client.

(** The calls that change a question bank. *)
Inductive bank_call :=
| AddQuestions (qs : list Question)
| Clear.

Definition bank_step (b : QuestionBank) (call : bank_call) : QuestionBank :=
  match call with
  | AddQuestions qs => add_questions qs b
  | Clear => clear b
  end.

(** The bank that [calls], made in order, leave of a bank opened on a disk
    where the state file holds [file]. *)
Definition bank_after (file : option (list string)) (calls : list bank_call) : QuestionBank :=
  fold_left bank_step calls (QuestionBank_init file).

(** A bank in good order: no two of the questions it holds share an
    identifier, each of them is marked as used, and the state file holds
    what a bank opened anew would need to know the same identifiers. *)
Definition bank_ok (b : QuestionBank) : Prop :=
  NoDup (map question_id (all_questions b))
  /\ (forall q, q ∈ all_questions b -> question_id q ∈ used_question_ids b)
  /\ used_question_ids (QuestionBank_init (state_file b)) = used_question_ids b.

(** What a question that the generation loop accepts for a call is known
    to be: valid, past the additional validation, and filed under the
    section, topic, subtopic and difficulty of the call; it is drawn from
    text alone. *)
Definition accepted_for (config : GenerationConfig) (test_section main_topic subtopic : string)
    (difficulty : DifficultyLevel) (q : Question) : Prop :=
  validate q = []
  /\ _passes_additional_validation config q = true
  /\ Models.test_section q = test_section
  /\ Models.main_topic q = main_topic
  /\ Models.subtopic q = subtopic
  /\ Models.difficulty q = difficulty
  /\ has_diagram q = false
  /\ source_pdf q = None.

(** The required fields that a decoded object lacks, in the order of
    [required_fields]. *)
Definition lacking (d : list (string * json)) : list string :=
  List.filter (fun f => negb (bool_decide (is_Some (dict_get f d)))) required_fields.

(** [s] without its occurrences of [c]. *)
Fixpoint remove_char (c : ascii) (s : string) : string :=
  match s with
  | EmptyString => EmptyString
  | String x s' => if (x =? c)%char then remove_char c s' else String x (remove_char c s')
  end.

(** Whether a difficulty label names a member of [DifficultyLevel] once it
    is put in capitals. *)
Definition known_label (label : string) : bool :=
  str_in (upper label) ["EASY"; "MEDIUM"; "HARD"].

(** A band of a section that asks for questions under a label that names
    no difficulty. *)
Definition bad_band (band : string * Z) : bool :=
  negb (snd band =? 0) && negb (known_label (fst band)).

(** A scanner of the decoder that, given a closing bracket after the text,
    finds what it found without it and leaves the bracket in the rest; and
    that still finds nothing where it found nothing. *)
Definition leaves_bracket {A} (P : string -> option (A * string)) : Prop :=
  forall s,
    match P s with
    | Some (v, r) => P (s +:+ "]") = Some (v, r +:+ "]")
    | None => P (s +:+ "]") = None
    end.

(** The same for the scanners that recur, on what they find. *)
Definition keeps_bracket {A} (P : string -> decoded (A * string)) : Prop :=
  forall s v r, P s = Done (v, r) -> P (s +:+ "]") = Done (v, r +:+ "]").

(** What a question that the multimodal generator accepts for a call is
    known to be: valid, past the additional validation of that generator,
    filed under the section, topic, subtopic and difficulty of the call,
    marked as a question on a diagram of the PDF of the pair, and worded
    with one of the diagram keywords. *)
Definition accepted_from_pair (config : GenerationConfig) (pair : TextImagePair.t)
    (test_section main_topic subtopic : string) (difficulty : DifficultyLevel)
    (q : Question) : Prop :=
  validate q = []
  /\ multimodal_generator._passes_additional_validation config q = true
  /\ Models.test_section q = test_section
  /\ Models.main_topic q = main_topic
  /\ Models.subtopic q = subtopic
  /\ Models.difficulty q = difficulty
  /\ has_diagram q = true
  /\ source_pdf q = TextImagePair.source_pdf pair
  /\ exists keyword,
       keyword ∈ multimodal_generator.diagram_keywords
       /\ is_substring keyword (lower (question_text_en q)) = true.

(** The builder on top of the two generators, as [PaperBuilder] sets it
    up: the module-level [generate_mcqs] and a multimodal generator with
    the default configuration. *)
Definition full_pipeline {World : Type} (T : mcq_generator.Collaborators World)
    (M : multimodal_generator.Collaborators World)
  : paper_builder.Collaborators World TextImagePair.t :=
  {| paper_builder.generate_mcqs := generate_mcqs_default;
     generate_from_pair := fun pair subject main_topic subtopic difficulty n =>
       multimodal_generator.generate_from_pair DEFAULT_GENERATION_CONFIG
         pair subject main_topic subtopic difficulty n None;
     paper_builder.uuid4 := mcq_generator.uuid4;
     now_isoformat := mcq_generator.datetime_now |}.

(** What a pair is known to be when [create_pairs] makes it of a
    document: the pair of one image of one page of the document, under the
    number of that page and the file name of the document, with a text of
    the minimum length at least. *)
Definition pair_of (path_name : string -> string) (min_text_length : Z)
    (pdf_doc : PDFDocument.t) (p : TextImagePair.t) : Prop :=
  exists page image,
    page ∈ PDFDocument.pages pdf_doc
    /\ image ∈ PDFPage.images page
    /\ TextImagePair.images p = [image]
    /\ TextImagePair.page_number p = PDFPage.page_number page
    /\ TextImagePair.source_pdf p = Some (path_name (PDFDocument.filepath pdf_doc))
    /\ min_text_length <= len (TextImagePair.text p).

(** [pdf_doc] with [pages] for its pages. *)
Definition with_pages (pages : list PDFPage.t) (pdf_doc : PDFDocument.t) : PDFDocument.t :=
  {| PDFDocument.filepath := PDFDocument.filepath pdf_doc;
     PDFDocument.pages := pages;
     PDFDocument.title := PDFDocument.title pdf_doc;
     PDFDocument.subject := PDFDocument.subject pdf_doc |}.

(** What a client does to the outside world. *)
Inductive endpoint_event :=
| Posted
| Slept (seconds : Z).

Definition posts (log : list endpoint_event) : nat :=
  length (List.filter (fun ev => match ev with Posted => true | Slept _ => false end) log).

(** An endpoint driven by a script: the world is the log of what the
    client did so far, and the k-th request gets what the script says. *)
Definition scripted_endpoint {float : Type} (script : nat -> http_outcome)
  : Endpoint (list endpoint_event) float :=
  {| session_post := fun payload log => (script (posts log), log ++ [Posted]);
     time_sleep := fun seconds log => log ++ [Slept seconds] |}.

(** A request that gives the client no text. *)
Definition fails (outcome : http_outcome) : Prop :=
  match outcome with
  | Body data => exists e, extract_text data = inl e
  | _ => True
  end.

(** [k] requests, each followed by a pause of [seconds]. *)
Fixpoint failed_rounds (k : nat) (seconds : Z) : list endpoint_event :=
  match k with
  | O => []
  | S k' => Posted :: Slept seconds :: failed_rounds k' seconds
  end.

End Scenarios.

(* ===================================================================== *)
(** * Section Builder: the partition of a band over the topics *)
(* ===================================================================== *)

Module PartitionFacts.
Import Text Dict Models paper_builder Spec.

Lemma sum_list_app (xs ys : list Z) :
  sum_list (xs ++ ys) = sum_list xs + sum_list ys.
Proof. induction xs as [|x xs IH]; simpl; lia. Qed.

Lemma sum_list_shift (a : Z) (f : nat -> Z) (l : list nat) :
  sum_list (map (fun i => a + f i) l) = a * Z.of_nat (length l) + sum_list (map f l).
Proof. induction l as [|i l IH]; simpl; lia. Qed.

(** The first [r] of [n] indices carry the extra unit. *)
Lemma sum_extra_units (r : Z) (n : nat) :
  0 <= r ->
  sum_list (map (fun i => if Z.of_nat i <? r then 1 else 0) (seq 0 n)) = Z.min r (Z.of_nat n).
Proof.
  intros Hr. induction n as [|n IH].
  - simpl. lia.
  - rewrite seq_S, map_app, sum_list_app, IH. simpl.
    destruct (Z.ltb_spec (Z.of_nat n) r); lia.
Qed.

Lemma topic_count_cases (C : Z) (T i : nat) :
  topic_count C T i =
    if Z.of_nat i <? C mod Z.of_nat T then C / Z.of_nat T + 1 else C / Z.of_nat T.
Proof. unfold topic_count. destruct (_ <? _); lia. Qed.

Lemma allocation_sum (C : Z) (T : nat) :
  (0 < T)%nat -> sum_list (allocation C T) = C.
Proof.
  intros HT. unfold allocation, topic_count.
  rewrite sum_list_shift, sum_extra_units, length_seq.
  - pose proof (Z.mod_pos_bound C (Z.of_nat T)).
    pose proof (Z.div_mod C (Z.of_nat T)). lia.
  - apply Z.mod_pos_bound. lia.
Qed.



End PartitionFacts.

(* ===================================================================== *)
(** * PaperConfig: the counts per difficulty *)
(* ===================================================================== *)

Module DifficultyFacts.
Import Text Dict Models Spec PartitionFacts.

Lemma keys_dict_set_fresh {V} (k : string) (v : V) (d : list (string * V)) :
  k ∉ keys d -> dict_set k v d = d ++ [(k, v)].
Proof.
  induction d as [|[k' v'] d IH]; simpl; [done|].
  intros Hk. rewrite not_elem_of_cons in Hk. destruct Hk as [Hne Hk].
  destruct (String.eqb_spec k k'); [done|]. by rewrite IH.
Qed.

Lemma sum_values_dict_set (k : string) (v : Z) (d : list (string * Z)) :
  k ∉ keys d -> sum_list (values (dict_set k v d)) = sum_list (values d) + v.
Proof.
  intros Hk. rewrite keys_dict_set_fresh by done.
  unfold values. rewrite map_app, sum_list_app. simpl. lia.
Qed.

Lemma last_cons_cons {A} (x y : A) (l : list A) (d : A) :
  List.last (x :: y :: l) d = List.last (y :: l) d.
Proof. reflexivity. Qed.

Lemma last_elem_of {A} (x : A) (l : list A) (d : A) : List.last (x :: l) d ∈ x :: l.
Proof.
  revert x. induction l as [|y l IH]; intros x.
  - simpl. set_solver.
  - rewrite last_cons_cons. apply elem_of_cons. right. apply IH.
Qed.

Section Counts.

Context {float : Type}.
Variable int_of_product : Z -> float -> result Z.

Lemma difficulty_counts_loop_sum (section_count : Z) (items : list (string * float)) :
  forall (counts : list (string * Z)) (remaining : Z),
    items <> [] ->
    NoDup (keys counts ++ keys items) ->
    computable int_of_product section_count items ->
    exists result,
      difficulty_counts_loop int_of_product (List.last (keys items) "") section_count
        items counts remaining = inr result
      /\ sum_list (values result) = sum_list (values counts) + remaining.
Proof.
  induction items as [|[k p] items IH]; intros counts remaining Hne Hnd Hc; [done|].
  destruct items as [|[k2 p2] items].
  - (* the last difficulty gets the remaining questions *)
    simpl. rewrite String.eqb_refl. simpl.
    eexists. split; [reflexivity|].
    apply sum_values_dict_set.
    apply NoDup_app in Hnd as (_ & Hd & _). intros Hin. apply (Hd k Hin). set_solver.
  - change (keys ((k, p) :: (k2, p2) :: items)) with (k :: keys ((k2, p2) :: items)) in *.
    change (List.last (k :: keys ((k2, p2) :: items)) "")
      with (List.last (keys ((k2, p2) :: items)) "").
    assert (Hfresh : (k ∉ keys counts) /\ (k ∉ keys ((k2, p2) :: items))).
    { apply NoDup_app in Hnd as (_ & Hd & Hi). apply NoDup_cons in Hi as [Hk _].
      split; [|done]. intros Hin. apply (Hd k Hin). set_solver. }
    destruct Hfresh as [Hk1 Hk2].
    cbn [difficulty_counts_loop].
    destruct (String.eqb_spec k (List.last (keys ((k2, p2) :: items)) "")) as [Heq|_].
    { exfalso. apply Hk2. rewrite Heq. apply last_elem_of. }
    unfold computable in Hc. change (removelast ((k, p) :: (k2, p2) :: items))
      with ((k, p) :: removelast ((k2, p2) :: items)) in Hc.
    apply Forall_cons in Hc as [[count Hcount] Hc]. simpl in Hcount. rewrite Hcount.
    destruct (IH (dict_set k count counts) (remaining - count)) as (result & Hres & Hsum).
    + done.
    + rewrite keys_dict_set_fresh by done. unfold keys in *.
      rewrite map_app. simpl. rewrite <- app_assoc. simpl.
      rewrite <- Permutation_middle in Hnd |- *. exact Hnd.
    + exact Hc.
    + exists result. split; [exact Hres|].
      rewrite Hsum, sum_values_dict_set by done. lia.
Qed.

(** C10. For a difficulty distribution that is not empty (its keys are
    those of a dict, hence distinct) and any [section_count], when none of
    the truncated products raises, [get_difficulty_counts] returns counts
    that sum to [section_count]: the last difficulty is given what the
    earlier ones left. *)
Theorem difficulty_counts_sum (config : PaperConfig float) (section_count : Z) :
  difficulty_distribution config <> [] ->
  NoDup (keys (difficulty_distribution config)) ->
  computable int_of_product section_count (difficulty_distribution config) ->
  exists counts,
    get_difficulty_counts int_of_product config section_count = inr counts
    /\ sum_list (values counts) = section_count.
Proof.
  intros Hne Hnd Hc. unfold get_difficulty_counts.
  destruct (difficulty_counts_loop_sum section_count (difficulty_distribution config)
              [] section_count Hne Hnd Hc) as (counts & Hres & Hsum).
  exists counts. split; [exact Hres|]. simpl in Hsum. lia.
Qed.

End Counts.

Lemma difficulty_counts_sum_witness :
  exists counts,
    get_difficulty_counts int_of_hundredths default_config 17 = inr counts
    /\ sum_list (values counts) = 17.
Proof.
  apply (difficulty_counts_sum int_of_hundredths default_config 17).
  - discriminate.
  - simpl. repeat (apply NoDup_cons; split; [set_solver|]). apply NoDup_nil_2.
  - unfold computable. simpl. repeat constructor; eexists; reflexivity.
Defined.

Example difficulty_counts_17 :
  get_difficulty_counts int_of_hundredths default_config 17
  = inr [("Easy", 10); ("Medium", 5); ("Hard", 2)].
Proof. reflexivity. Qed.

End DifficultyFacts.


(* ===================================================================== *)
(** * Question Bank *)
(* ===================================================================== *)

Module BankFacts.
Import Text Dict Models paper_builder Spec.

Lemma add_question_used (b : QuestionBank) (q : Question) :
  used_question_ids (add_question b q) = {[ question_id q ]} ∪ used_question_ids b.
Proof. unfold add_question. case_decide; simpl; set_solver. Qed.

Lemma fold_add_question_used (qs : list Question) :
  forall b : QuestionBank,
    used_question_ids (fold_left add_question qs b)
    = list_to_set (map question_id qs) ∪ used_question_ids b.
Proof.
  induction qs as [|q qs IH]; intros b; simpl.
  - set_solver.
  - rewrite IH, add_question_used. set_solver.
Qed.

Lemma add_questions_used (qs : list Question) (b : QuestionBank) :
  used_question_ids (add_questions qs b)
  = list_to_set (map question_id qs) ∪ used_question_ids b.
Proof. unfold add_questions. simpl. apply fold_add_question_used. Qed.

Lemma add_questions_file (qs : list Question) (b : QuestionBank) :
  state_file (add_questions qs b)
  = Some (elements (list_to_set (map question_id qs) ∪ used_question_ids b)).
Proof. unfold add_questions. simpl. by rewrite fold_add_question_used. Qed.

(** After [add_questions] the file holds exactly the identifiers in
    memory. *)
Lemma add_questions_persisted (qs : list Question) (b : QuestionBank) :
  persisted (add_questions qs b) = list_to_set (map question_id qs) ∪ used_question_ids b.
Proof.
  unfold persisted, persisted_ids. rewrite add_questions_file. simpl.
  apply list_to_set_elements_L.
Qed.

(** A second [add_questions] of the same list finds every identifier in the
    set and leaves the accumulated list alone. *)
Lemma fold_add_question_known (qs : list Question) :
  forall b : QuestionBank,
    Forall (fun q => question_id q ∈ used_question_ids b) qs ->
    fold_left add_question qs b = b.
Proof.
  induction qs as [|q qs IH]; intros b Hall; simpl; [done|].
  apply Forall_cons in Hall as [Hq Hall].
  unfold add_question at 2. rewrite decide_True by done. by apply IH.
Qed.

(** C7. Adding the same list of questions twice leaves the same persisted
    identifier set as adding it once, and an identifier that was in the bank
    before the batch is in the file exactly once after it. *)
Theorem add_questions_idempotent (b : QuestionBank) (qs : list Question) :
  persisted (add_questions qs (add_questions qs b)) = persisted (add_questions qs b)
  /\ (forall id, id ∈ used_question_ids b ->
        count_occ String.string_dec (persisted_ids (add_questions qs b)) id = 1%nat).
Proof.
  split.
  - rewrite !add_questions_persisted, add_questions_used. set_solver.
  - intros id Hid. unfold persisted_ids. rewrite add_questions_file. simpl.
    apply NoDup_count_occ'.
    + apply NoDup_ListNoDup, NoDup_elements.
    + apply list_elem_of_In, elem_of_elements. set_solver.
Qed.

(** A bank loaded with the identifier X, and a batch that brings X
    again. *)
Lemma add_questions_idempotent_witness :
  let b := QuestionBank_init (Some ["X"]) in
  let qs := [sample_question "X"; sample_question "Y"] in
  persisted (add_questions qs (add_questions qs b)) = persisted (add_questions qs b)
  /\ count_occ String.string_dec (persisted_ids (add_questions qs b)) "X" = 1%nat.
Proof.
  intros b qs.
  destruct (add_questions_idempotent b qs) as [Hsame Honce].
  split; [exact Hsame|]. apply Honce. vm_compute. reflexivity.
Defined.

(** The whole file is the same after the second call, and nothing is added
    to the list in memory. *)
Lemma add_questions_twice (b : QuestionBank) (qs : list Question) :
  add_questions qs (add_questions qs b) = add_questions qs b.
Proof.
  unfold add_questions at 1. rewrite fold_add_question_known.
  - unfold add_questions, _save_state. simpl. reflexivity.
  - apply Forall_forall. intros q Hq. rewrite add_questions_used.
    apply list_elem_of_In in Hq.
    apply elem_of_union_l, elem_of_list_to_set, list_elem_of_In, in_map, Hq.
Qed.

(** Re-loading the same file gives the same set. *)
Lemma load_state_idempotent (b : QuestionBank) :
  _load_state (_load_state b) = _load_state b.
Proof. unfold _load_state. destruct (state_file b) eqn:E; simpl; by rewrite ?E. Qed.

End BankFacts.


(* ===================================================================== *)
(** * Validation Gate *)
(* ===================================================================== *)

Module ValidateFacts.
Import Text Dict Models Config Spec.

Lemma append_if_app (cond : bool) (msg : string) (errors : list string) :
  append_if cond msg errors = errors ++ (if cond then [msg] else []).
Proof. destruct cond; simpl; by rewrite ?app_nil_r. Qed.

Lemma explanation_if_app (e1 e2 : bool) (a b : string) (errors : list string) :
  (if e1 then errors ++ [a] else if e2 then errors ++ [b] else errors)
  = errors ++ (if e1 then [a] else if e2 then [b] else []).
Proof. destruct e1, e2; simpl; by rewrite ?app_nil_r. Qed.

(** One check of [validate] against what [violation] says of it. *)
Ltac check_case :=
  match goal with
  | |- _ = (if negb ?b && (?y <=? ?x) then _ else _) =>
      destruct b; [reflexivity|];
      destruct (Z.ltb_spec x y); destruct (Z.leb_spec y x); (reflexivity || lia)
  | |- _ = (if negb ?b then _ else _) => destruct b; reflexivity
  | |- _ = (if ?b then _ else _) => destruct b; reflexivity
  end.

(** [validate] collects the violations of the ten checks, in order. *)
Lemma validate_by_check (q : Question) :
  validate q = flat_map (fun c => violation c q) all_checks.
Proof.
  unfold validate. cbv zeta. rewrite !append_if_app, explanation_if_app.
  unfold all_checks. cbn [flat_map]. rewrite <- !app_assoc, app_nil_r, app_nil_l.
  unfold violation, holds.
  repeat (apply (f_equal2 (@app string)); [check_case|]).
  check_case.
Qed.

Lemma violation_holds (c : check) (q : Question) : holds c q = true -> violation c q = [].
Proof. unfold violation. by intros ->. Qed.

Lemma violation_names (c : check) (q : Question) :
  holds c q = false -> exists msg, violation c q = [msg] /\ names c q msg.
Proof.
  unfold violation. intros ->.
  destruct c; simpl; try (eexists; split; reflexivity).
  destruct (is_empty _); eexists; (split; [reflexivity|]); auto.
Qed.

(** C2, as amended. A question that passes the ten checks of [validate]
    (question text, each of the four options, answer marker, explanation,
    distinct options, test section, main topic) has no violation; a question
    that fails exactly one of them has exactly one violation, the one that
    names the failed check. *)
Theorem validate_one_violation (q : Question) :
  ((forall c, holds c q = true) -> validate q = [])
  /\ (forall c, holds c q = false -> (forall c', c' <> c -> holds c' q = true) ->
        exists msg, validate q = [msg] /\ names c q msg).
Proof.
  rewrite validate_by_check. split.
  - intros Hall. simpl. by rewrite !violation_holds.
  - intros c Hc Hothers.
    destruct (violation_names c q Hc) as (msg & Hv & Hn).
    exists msg. split; [|exact Hn].
    destruct c; simpl; rewrite Hv;
      rewrite !violation_holds by (apply Hothers; discriminate); reflexivity.
Qed.

Lemma validate_one_violation_witness :
  validate (sample_question "q1") = []
  /\ validate (set_question_text "   " (sample_question "q1")) = ["Question text is empty"].
Proof.
  split.
  - apply (validate_one_violation (sample_question "q1")).
    intros c. destruct c; vm_compute; reflexivity.
  - destruct (proj2 (validate_one_violation (set_question_text "   " (sample_question "q1")))
                QuestionText) as (msg & Hv & Hn).
    + vm_compute. reflexivity.
    + intros c' Hc'. destruct c'; try (vm_compute; reflexivity). congruence.
    + simpl in Hn. by rewrite Hv, Hn.
Defined.

(** C2 as stated fails twice. A question with an empty question text
    satisfies every invariant that the specification states, and [validate]
    reports a violation. A question with neither section name nor main topic
    breaks one stated invariant and no other, and [validate] reports two
    violations. *)
Lemma validate_stated_invariants_counterexample :
  let q1 := set_question_text "" (sample_question "q1") in
  let q2 := topic_question "q2" "" "Matrices and Determinants" MEDIUM in
  (forall i, satisfies DEFAULT_GENERATION_CONFIG i q1 = true)
  /\ validate q1 = ["Question text is empty"]
  /\ satisfies DEFAULT_GENERATION_CONFIG SectionAndTopic q2 = false
  /\ (forall i, i <> SectionAndTopic -> satisfies DEFAULT_GENERATION_CONFIG i q2 = true)
  /\ validate q2 = ["Test section is empty"; "Main topic is empty"].
Proof.
  intros q1 q2. repeat split.
  - intros i. by destruct i.
  - intros i Hi. by destruct i.
Qed.

End ValidateFacts.


(* ===================================================================== *)
(** * Generation Loop *)
(* ===================================================================== *)

Module LoopFacts.
Import Text Dict Json Models Config mcq_generator Spec.

Section Loop.

Context {World : Type} `{!Collaborators World}.
Variable config : GenerationConfig.
Variables (subject main_topic subtopic : string) (difficulty : DifficultyLevel).
Variable n : Z.
Variable test_section : string.

#[local] Abbreviation count qs := (Z.of_nat (length qs)).
#[local] Abbreviation accept_dicts' := (accept_dicts config main_topic subtopic difficulty n test_section).
#[local] Abbreviation accept_response' :=
  (accept_response config main_topic subtopic difficulty n test_section).
#[local] Abbreviation attempt' := (attempt config subject main_topic subtopic difficulty n test_section).
#[local] Abbreviation attempts_loop' :=
  (attempts_loop config subject main_topic subtopic difficulty n test_section).

(** The filter only appends, and never goes past [n]. *)
Lemma accept_dicts_grows (question_dicts : list json) :
  forall questions w,
    (exists more, fst (accept_dicts' question_dicts questions w) = questions ++ more)
    /\ count (fst (accept_dicts' question_dicts questions w)) <= Z.max n (count questions).
Proof.
  induction question_dicts as [|q_dict rest IH]; intros questions w; simpl.
  - split; [exists []; by rewrite app_nil_r | lia].
  - destruct (Z.leb_spec n (count questions)) as [Hfull|Hroom].
    { simpl. split; [exists []; by rewrite app_nil_r | lia]. }
    destruct (_dict_to_question _ _ _ _ _ _) as [[e|question] w1]; [apply IH|].
    destruct (validate question); [|apply IH].
    destruct (negb _); [apply IH|].
    destruct (IH (questions ++ [question]) w1) as [[more Hmore] Hlen].
    split.
    + exists (question :: more). rewrite Hmore. by rewrite <- app_assoc.
    + rewrite length_app in Hlen. simpl in Hlen. lia.
Qed.

Lemma accept_response_grows (text : string) (questions : list Question) (w : World) :
  (exists more, fst (accept_response' text questions w) = questions ++ more)
  /\ count (fst (accept_response' text questions w)) <= Z.max n (count questions).
Proof.
  unfold accept_response. destruct (_parse_llm_response text).
  - simpl. split; [exists []; by rewrite app_nil_r | lia].
  - apply accept_dicts_grows.
Qed.

Lemma attempt_grows (questions : list Question) (w : World) :
  (exists more, fst (attempt' questions w) = questions ++ more)
  /\ count (fst (attempt' questions w)) <= Z.max n (count questions).
Proof.
  unfold attempt. destruct (llm_generate _ w) as [[e|text] w1].
  - simpl. split; [exists []; by rewrite app_nil_r | lia].
  - apply accept_response_grows.
Qed.

(** Text that does not parse gives nothing to accept. *)
Lemma unparseable_rejected (text : string) (e : exception) (questions : list Question)
    (w : World) :
  _parse_llm_response text = inl e -> accept_response' text questions w = (questions, w).
Proof. unfold accept_response. by intros ->. Qed.

(** What the [while] loop leaves: the questions it started with and more,
    never more than [n] of them; a count of attempts within the budget; and
    the exit condition of the loop, so that [budget] never cuts it short. *)
Lemma attempts_loop_exit (max_attempts : Z) (budget : nat) :
  forall questions attempts w questions' attempts' w',
    max_attempts - attempts <= Z.of_nat budget ->
    attempts_loop' budget max_attempts questions attempts w = (questions', attempts', w') ->
    (exists more, questions' = questions ++ more)
    /\ count questions' <= Z.max n (count questions)
    /\ attempts <= attempts' <= Z.max attempts max_attempts
    /\ (count questions' < n -> max_attempts <= attempts').
Proof.
  induction budget as [|budget IH]; intros questions attempts w questions' attempts' w' Hb;
    simpl.
  - intros [= <- <- <-]. repeat split; try lia. exists []. by rewrite app_nil_r.
  - destruct (Z.ltb_spec (count questions) n) as [Hless|Hfull];
      destruct (Z.ltb_spec attempts max_attempts) as [Hleft|Hspent]; simpl;
      try (intros [= <- <- <-]; repeat split; try lia; exists []; by rewrite app_nil_r).
    destruct (attempt_grows questions w) as [[more Hmore] Hlen].
    destruct (attempt' questions w) as [questions1 w1]. simpl in Hmore, Hlen.
    intros Hloop. apply IH in Hloop as ([more' Hmore'] & Hlen' & Ha & Hexit); [|lia].
    repeat split; try lia.
    exists (more ++ more'). rewrite Hmore', Hmore. by rewrite <- app_assoc.
Qed.

End Loop.

(** Of a model that never gives anything to accept, no attempt accepts
    anything. *)
Lemma never_accepted_loop {World : Type} `{!Collaborators World}
    (config : GenerationConfig) (subject main_topic subtopic : string)
    (difficulty : DifficultyLevel) (n : Z) (test_section : string) (max_attempts : Z) :
  never_accepted config ->
  forall budget questions attempts w,
    fst (fst (attempts_loop config subject main_topic subtopic difficulty n test_section
                budget max_attempts questions attempts w)) = questions.
Proof.
  intros Hnever. induction budget as [|budget IH]; intros questions attempts w; simpl; [done|].
  destruct (_ && _); [|done].
  assert (Hsame : fst (attempt config subject main_topic subtopic difficulty n test_section
                         questions w) = questions).
  { unfold attempt. destruct (llm_generate _ w) as [[e|text] w1] eqn:Hcall; [done|].
    eapply Hnever, Hcall. }
  destruct (attempt _ _ _ _ _ _ _ _ _) as [questions1 w1]. simpl in Hsame. subst questions1.
  apply IH.
Qed.

(** C4. For a target of [n >= 1] questions and a retry limit that is not
    negative, when no text of the model ever yields an accepted question,
    [generate_mcqs] stops after exactly [n * (1 + max_validation_retries)]
    attempts and raises [MCQGenerationError], whose message reports that
    number. *)
Theorem retry_bound {World : Type} `{!Collaborators World}
    (config : GenerationConfig) (subject main_topic subtopic : string)
    (difficulty : DifficultyLevel) (n : Z) (test_section : option string) (w : World) :
  1 <= n ->
  0 <= max_validation_retries config ->
  never_accepted config ->
  fst (generate_mcqs config subject main_topic subtopic difficulty n test_section w)
  = inl (MCQGenerationError (n * (1 + max_validation_retries config))).
Proof.
  intros Hn Hr Hnever. unfold generate_mcqs.
  set (ts := match test_section with Some s => _ | None => _ end).
  destruct (run_attempts _ _ _ _ _ _ _ _) as [[questions attempts] w'] eqn:Hrun.
  unfold run_attempts in Hrun.
  pose proof (never_accepted_loop config subject main_topic subtopic difficulty n ts
                (n * (1 + max_validation_retries config)) Hnever
                (Z.to_nat (n * (1 + max_validation_retries config))) [] 0 w) as Hnone.
  rewrite Hrun in Hnone. simpl in Hnone. subst questions.
  eapply attempts_loop_exit in Hrun as (_ & _ & Ha & Hexit); [|lia].
  simpl in Hexit. simpl. do 2 f_equal. lia.
Qed.

(** Two easy questions asked of a model that gives one good record per call:
    two calls, two questions on the topic asked for. *)
Example two_questions_in_two_calls :
  exists q1 q2,
    generate_mcqs (Collaborators0 := steady_model) DEFAULT_GENERATION_CONFIG
      "Metallurgical Engineering" "Engineering Mathematics" "Linear Algebra" EASY 2 None O
    = (inr [q1; q2], 2%nat)
    /\ map difficulty [q1; q2] = [EASY; EASY]
    /\ map main_topic [q1; q2] = ["Engineering Mathematics"; "Engineering Mathematics"]
    /\ map subtopic [q1; q2] = ["Linear Algebra"; "Linear Algebra"]
    /\ map correct_answer [q1; q2] = ["B"; "B"].
Proof. do 2 eexists. split; [vm_compute; reflexivity|]. repeat split. Qed.

(** Three questions asked of a model that never answers with JSON, under
    the default retry limit of two: nine attempts. *)
Lemma retry_bound_witness :
  fst (generate_mcqs (Collaborators0 := silent_model) DEFAULT_GENERATION_CONFIG
         "Metallurgical Engineering" "Engineering Mathematics" "Linear Algebra" EASY 3 None
         O)
  = inl (MCQGenerationError 9).
Proof.
  apply (retry_bound (Collaborators0 := silent_model) DEFAULT_GENERATION_CONFIG
           "Metallurgical Engineering" "Engineering Mathematics" "Linear Algebra" EASY 3 None
           O).
  - lia.
  - simpl. lia.
  - intros prompt k text k1 [= <- _] main_topic subtopic difficulty n test_section questions k'.
    erewrite unparseable_rejected; [reflexivity|]. vm_compute. reflexivity.
Defined.

(** C5. For a target of [n >= 1] questions, let the [while] loop end with
    [questions] accepted after [attempts] attempts. With no question
    accepted, [generate_mcqs] raises [MCQGenerationError], and the retry
    budget is used up; with at least one, it returns the list, be it partial
    or full, and raises nothing. The list is never longer than [n], and it is
    shorter only with the budget used up. *)
Theorem generate_mcqs_outcome {World : Type} `{!Collaborators World}
    (config : GenerationConfig) (subject main_topic subtopic : string)
    (difficulty : DifficultyLevel) (n : Z) (test_section : option string) (w : World)
    (questions : list Question) (attempts : Z) (w' : World) :
  1 <= n ->
  run_attempts config subject main_topic subtopic difficulty n
    (match test_section with
     | Some s => if is_empty s then main_topic else s
     | None => main_topic
     end) w = (questions, attempts, w') ->
  let max_attempts := n * (1 + max_validation_retries config) in
  let outcome := fst (generate_mcqs config subject main_topic subtopic difficulty n
                        test_section w) in
  (questions = [] ->
     outcome = inl (MCQGenerationError attempts) /\ attempts = Z.max 0 max_attempts)
  /\ (questions <> [] -> outcome = inr questions)
  /\ Z.of_nat (length questions) <= n
  /\ (Z.of_nat (length questions) < n -> attempts = Z.max 0 max_attempts).
Proof.
  intros Hn Hrun max_attempts outcome. subst outcome. unfold generate_mcqs.
  rewrite Hrun. unfold run_attempts in Hrun. fold max_attempts in Hrun.
  eapply attempts_loop_exit in Hrun as (_ & Hlen & Ha & Hexit); [|lia].
  simpl in Hlen, Ha.
  split; [|split; [|split]].
  - intros ->. simpl. split; [done|]. simpl in Hexit. lia.
  - intros Hsome. destruct questions; [done|]. reflexivity.
  - lia.
  - intros Hshort. lia.
Qed.

(** Two questions asked, no retry, of a model whose first answer carries
    one good record and which then falls silent: the one question is
    returned, after two attempts. *)
Lemma generate_mcqs_outcome_witness :
  exists question,
    fst (generate_mcqs (Collaborators0 := one_shot_model)
           {| min_explanation_length := 20; require_references := true;
              min_references := 1; max_validation_retries := 0;
              include_metadata := true; use_few_shot := true;
              num_few_shot_examples := 2 |}
           "Metallurgical Engineering" "Engineering Mathematics" "Linear Algebra" EASY 2 None
           O)
    = inr [question].
Proof.
  eexists.
  eapply (generate_mcqs_outcome (Collaborators0 := one_shot_model) _ _ _ _ _ 2 None O
            [_] 2 _ ltac:(lia)).
  - vm_compute. reflexivity.
  - discriminate.
Defined.

End LoopFacts.


(* ===================================================================== *)
(** * Section Builder and Paper Assembler *)
(* ===================================================================== *)

Module BuilderFacts.
Import Text Dict Models mcq_generator paper_builder Spec PartitionFacts.

(** Stamping touches the section name and nothing else: with the old name
    put back, the question is what it was. *)
Lemma set_test_section_frame (name : string) (q : Question) :
  test_section (set_test_section name q) = name
  /\ set_test_section (test_section q) (set_test_section name q) = q.
Proof. by destruct q. Qed.

Section Logged.

Context {World TextImagePair : Type} (C : Collaborators World TextImagePair).
Variable section : PaperSection.
Variable subject : string.
Variable diagram_pairs : option (list TextImagePair).

#[local] Abbreviation stamp := (set_test_section (name section)).

(** One topic: what is appended to the questions is what the generator
    that served the topic returned, stamped. *)
Lemma build_topic_logged difficulty topic_spec topic_count questions w log questions' w' log' :
  build_topic (Collaborators0 := logged C) section subject diagram_pairs difficulty
    topic_spec topic_count questions (w, log) = (inr questions', (w', log')) ->
  exists topic_questions,
    questions' = questions ++ map stamp topic_questions /\ log' = log ++ topic_questions.
Proof.
  unfold build_topic. simpl.
  destruct diagram_pairs as [[|pair pairs]|]; simpl;
    repeat (match goal with
            | |- context [generate_from_pair ?a ?b ?c ?d ?e ?f ?g] =>
                destruct (generate_from_pair a b c d e f g) as [[?|?] ?]; simpl
            | |- context [generate_mcqs ?a ?b ?c ?d ?e ?f] =>
                destruct (generate_mcqs a b c d e f) as [[?|?] ?]; simpl
            end);
    intros [= <- <- <-] || intros [=]; eauto.
Qed.

Lemma build_topic_unlogged difficulty topic_spec topic_count questions w log :
  unlogged (build_topic (Collaborators0 := logged C) section subject diagram_pairs
              difficulty topic_spec topic_count questions (w, log))
  = build_topic (Collaborators0 := C) section subject diagram_pairs difficulty
      topic_spec topic_count questions w.
Proof.
  unfold build_topic, unlogged. simpl.
  destruct diagram_pairs as [[|pair pairs]|]; simpl;
    repeat (match goal with
            | |- context [generate_from_pair ?a ?b ?c ?d ?e ?f ?g] =>
                destruct (generate_from_pair a b c d e f g) as [[?|?] ?]; simpl
            | |- context [generate_mcqs ?a ?b ?c ?d ?e ?f] =>
                destruct (generate_mcqs a b c d e f) as [[?|?] ?]; simpl
            end); reflexivity.
Qed.

Lemma topics_loop_logged difficulty count rest :
  forall i questions w log questions' w' log',
    topics_loop (Collaborators0 := logged C) section subject diagram_pairs difficulty
      count i rest questions (w, log) = (inr questions', (w', log')) ->
    exists generated,
      questions' = questions ++ map stamp generated /\ log' = log ++ generated.
Proof.
  induction rest as [|topic_spec rest IH]; intros i questions w log questions' w' log'; simpl.
  - intros [= <- <- <-]. exists []. by rewrite !app_nil_r.
  - destruct (_ =? 0); [apply IH|].
    destruct (build_topic _ _ _ _ _ _ _ _) as [[e|questions1] [w1 log1]] eqn:Htopic; [done|].
    apply build_topic_logged in Htopic as (g1 & -> & ->).
    intros Hrest. apply IH in Hrest as (g2 & -> & ->).
    exists (g1 ++ g2). by rewrite map_app, !app_assoc.
Qed.

Lemma topics_loop_unlogged difficulty count rest :
  forall i questions w log,
    unlogged (topics_loop (Collaborators0 := logged C) section subject diagram_pairs
                difficulty count i rest questions (w, log))
    = topics_loop (Collaborators0 := C) section subject diagram_pairs difficulty
        count i rest questions w.
Proof.
  induction rest as [|topic_spec rest IH]; intros i questions w log; simpl; [done|].
  destruct (_ =? 0); [apply IH|].
  rewrite <- (build_topic_unlogged _ _ _ _ w log).
  destruct (build_topic _ _ _ _ _ _ _ _) as [[e|questions1] [w1 log1]]; [done|].
  unfold unlogged at 2. simpl. apply IH.
Qed.

Lemma difficulties_loop_logged items :
  forall questions w log questions' w' log',
    difficulties_loop (Collaborators0 := logged C) section subject diagram_pairs
      items questions (w, log) = (inr questions', (w', log')) ->
    exists generated,
      questions' = questions ++ map stamp generated /\ log' = log ++ generated.
Proof.
  induction items as [|[difficulty_str count] items IH];
    intros questions w log questions' w' log'; simpl.
  - intros [= <- <- <-]. exists []. by rewrite !app_nil_r.
  - destruct (count =? 0); [apply IH|].
    destruct (DifficultyLevel_getitem _) as [e|difficulty]; [done|].
    destruct (topics section) as [|t ts] eqn:Htopics; [apply IH|].
    destruct (topics_loop _ _ _ _ _ _ _ _ _) as [[e|questions1] [w1 log1]] eqn:Hloop; [done|].
    apply topics_loop_logged in Hloop as (g1 & -> & ->).
    intros Hrest. apply IH in Hrest as (g2 & -> & ->).
    exists (g1 ++ g2). by rewrite map_app, !app_assoc.
Qed.

Lemma difficulties_loop_unlogged items :
  forall questions w log,
    unlogged (difficulties_loop (Collaborators0 := logged C) section subject diagram_pairs
                items questions (w, log))
    = difficulties_loop (Collaborators0 := C) section subject diagram_pairs items questions w.
Proof.
  induction items as [|[difficulty_str count] items IH]; intros questions w log; simpl; [done|].
  destruct (count =? 0); [apply IH|].
  destruct (DifficultyLevel_getitem _) as [e|difficulty]; [done|].
  destruct (topics section) as [|t ts] eqn:Htopics; [apply IH|].
  rewrite <- (topics_loop_unlogged _ _ _ _ _ w log).
  destruct (topics_loop _ _ _ _ _ _ _ _ _) as [[e|questions1] [w1 log1]]; [done|].
  unfold unlogged at 2. simpl. apply IH.
Qed.

End Logged.

(** C9. Whatever the generators are and whichever of them serves a topic
    (the one for diagrams, the text one after it failed, or the text one
    alone), every question that [_build_section] returns carries the name of
    the section, and the returned list is the list of the questions that
    the generators returned, in order, with the section name stamped and
    nothing else changed. *)
Theorem build_section_stamps {World TextImagePair : Type}
    (C : Collaborators World TextImagePair) (section : PaperSection) (subject : string)
    (diagram_pairs : option (list TextImagePair)) (w w' : World)
    (questions : list Question) :
  _build_section (Collaborators0 := C) section subject diagram_pairs w = (inr questions, w') ->
  Forall (fun q => test_section q = name section) questions
  /\ exists generated,
       _build_section (Collaborators0 := logged C) section subject diagram_pairs (w, [])
       = (inr questions, (w', generated))
       /\ questions = map (set_test_section (name section)) generated
       /\ Forall2 (fun q g => set_test_section (test_section g) q = g) questions generated.
Proof.
  unfold _build_section. intros Hrun.
  pose proof (difficulties_loop_unlogged C section subject diagram_pairs
                (difficulty_distribution section) [] w []) as Hun.
  rewrite Hrun in Hun.
  destruct (difficulties_loop (Collaborators0 := logged C) _ _ _ _ _ _)
    as [r [w1 log1]] eqn:Hlog.
  unfold unlogged in Hun. simpl in Hun. injection Hun as -> ->.
  apply difficulties_loop_logged in Hlog as Hgen. destruct Hgen as (generated & -> & ->).
  simpl. split; [|exists generated; split; [done|split; [done|]]].
  - apply Forall_forall. intros q Hq. apply list_elem_of_In, in_map_iff in Hq.
    destruct Hq as (g & <- & _). reflexivity.
  - clear. induction generated as [|g gs IH]; simpl; constructor; [|exact IH].
    apply set_test_section_frame.
Qed.

(** Five easy questions over two topics, from a generator that repeats one
    question: all five come back under the name of the section. *)
Lemma build_section_stamps_witness :
  exists questions,
    _build_section (Collaborators0 := repeating_generator) sample_section
      "Metallurgical Engineering" None tt = (inr questions, tt)
    /\ length questions = 5%nat
    /\ Forall (fun q => test_section q = "Main Subject") questions.
Proof.
  eexists. split; [vm_compute; reflexivity|]. split; [reflexivity|].
  apply (build_section_stamps repeating_generator sample_section
           "Metallurgical Engineering" None tt tt).
  vm_compute. reflexivity.
Defined.

(** When the text generator delivers what it is asked for, a band of
    [count] questions over the topics of a section adds exactly [count]
    questions: the per-topic counts are requests that the loop really
    makes. *)
Lemma topics_loop_delivers {World TextImagePair : Type}
    (C : Collaborators World TextImagePair) (section : PaperSection) (subject : string)
    (difficulty : DifficultyLevel) (count : Z) :
  (forall main_topic subtopic n w, 0 <= n ->
     exists qs w', generate_mcqs subject main_topic subtopic difficulty n w = (inr qs, w')
                   /\ Z.of_nat (length qs) = n) ->
  0 <= count ->
  topics section <> [] ->
  forall questions w,
    exists questions' w',
      topics_loop (Collaborators0 := C) section subject None difficulty count 0
        (topics section) questions w = (inr questions', w')
      /\ Z.of_nat (length questions') = Z.of_nat (length questions) + count.
Proof.
  intros Hgen Hcount Htopics.
  assert (HT : (0 < length (topics section))%nat) by (destruct (topics section); simpl; [done|lia]).
  assert (Hloop : forall rest i questions w,
    exists questions' w',
      topics_loop (Collaborators0 := C) section subject None difficulty count i
        rest questions w = (inr questions', w')
      /\ Z.of_nat (length questions')
         = Z.of_nat (length questions)
           + sum_list (map (topic_count count (length (topics section)))
                           (seq i (length rest)))).
  { induction rest as [|topic_spec rest IH]; intros i questions w; simpl.
    - exists questions, w. split; [done|lia].
    - assert (Hpos : 0 <= topic_count count (length (topics section)) i).
      { rewrite topic_count_cases.
        assert (0 <= count / Z.of_nat (length (topics section)))
          by (apply Z.div_pos; lia).
        destruct (_ <? _); lia. }
      destruct (Z.eqb_spec (topic_count count (length (topics section)) i) 0) as [E|E].
      + destruct (IH (S i) questions w) as (q' & w' & -> & Hlen).
        exists q', w'. split; [done|]. lia.
      + unfold build_topic.
        destruct (Hgen (default "General" (topic_spec !! "main_topic"))
                    (default "General" (topic_spec !! "subtopic"))
                    (topic_count count (length (topics section)) i) w Hpos)
          as (qs & w1 & -> & Hqs).
        destruct (IH (S i) (questions ++ map (set_test_section (name section)) qs) w1)
          as (q' & w' & -> & Hlen).
        exists q', w'. split; [done|].
        rewrite Hlen, length_app, length_map. lia. }
  intros questions w.
  destruct (Hloop (topics section) 0%nat questions w) as (q' & w' & Hrun & Hlen).
  exists q', w'. split; [exact Hrun|].
  rewrite Hlen. f_equal. by apply allocation_sum.
Qed.

(** Five easy questions over two topics: three on the first topic, two on
    the second. *)
Example five_over_two_topics :
  exists questions,
    _build_section (Collaborators0 := repeating_generator) sample_section
      "Metallurgical Engineering" None tt = (inr questions, tt)
    /\ map main_topic questions
       = [ "Material Science"; "Material Science"; "Material Science";
           "Thermodynamics"; "Thermodynamics" ].
Proof. eexists. split; vm_compute; reflexivity. Qed.

(** The same section built on the text generator itself, fed by a model
    that gives one good record per call: five model calls, five questions,
    three and two. *)
Example five_over_two_topics_generated :
  exists questions,
    _build_section (Collaborators0 := text_pipeline steady_model) sample_section
      "Metallurgical Engineering" None O = (inr questions, 5%nat)
    /\ map main_topic questions
       = [ "Material Science"; "Material Science"; "Material Science";
           "Thermodynamics"; "Thermodynamics" ]
    /\ map test_section questions = repeat "Main Subject" 5.
Proof. eexists. split; [vm_compute; reflexivity|]. split; reflexivity. Qed.



(** A section that fails to build fails the paper: nothing is returned and
    nothing reaches the bank. *)
Lemma build_paper_propagates {World TextImagePair float : Type}
    (C : Collaborators World TextImagePair) (config : PaperConfig float)
    (sections : list PaperSection) (diagram_pairs : option (list TextImagePair))
    (question_bank : QuestionBank) (w w1 : World) (e : exception) :
  sections_loop (Collaborators0 := C) (Models.subject config) diagram_pairs sections [] w
  = (inl e, w1) ->
  let b := build_paper (Collaborators0 := C) config sections diagram_pairs question_bank w in
  returned b = inl e /\ bank b = question_bank.
Proof. intros Hsections b. subst b. unfold build_paper. by rewrite Hsections. Qed.

End BuilderFacts.


(* ===================================================================== *)
(** * The decoder and a comma before the last bracket *)
(* ===================================================================== *)

Module JsonFacts.
Import Text Dict Json Models Config mcq_generator Spec.

#[local] Abbreviation size := String.length.

(** ** Unfolding *)

Lemma cons_char_some c o v r :
  cons_char c o = Some (v, r) -> exists v0, o = Some (v0, r) /\ v = String c v0.
Proof. destruct o as [[v0 r0]|]; simpl; [|done]. intros [= <- <-]. eauto. Qed.

Lemma bind_done {A B} (x : decoded A) (f : A -> decoded B) (b : B) :
  x ≫= f = Done b -> exists a, x = Done a /\ f a = Done b.
Proof. destruct x; simpl; [eauto|done|done]. Qed.

Lemma bind_not_done {A B} (x : decoded A) (f : A -> decoded B) :
  (forall a, x <> Done a) -> forall b, x ≫= f <> Done b.
Proof. intros H b Hb. apply bind_done in Hb as (a & Ha & _). by apply (H a). Qed.

Lemma bind_out_of_fuel {A B} (x : decoded A) (f : A -> decoded B) :
  x ≫= f = OutOfFuel -> x = OutOfFuel \/ exists a, x = Done a /\ f a = OutOfFuel.
Proof. destruct x; simpl; eauto. done. Qed.

Lemma scan_once_S fuel c s' :
  scan_once (S fuel) (String c s') =
    if (c =? quote)%char then
      '(v, r) ← of_option (py_scanstring s'); Done (JStr v, r)
    else if (c =? "{")%char then
      '(pairs, r) ← JSONObject (object_loop fuel) s'; Done (JDict (dict pairs), r)
    else if (c =? "[")%char then
      '(values, r) ← JSONArray (array_loop fuel) s'; Done (JList values, r)
    else
      match strip_prefix "null" (String c s'), strip_prefix "true" (String c s'),
            strip_prefix "false" (String c s') with
      | Some r, _, _ => Done (JNull, r)
      | None, Some r, _ => Done (JBool true, r)
      | None, None, Some r => Done (JBool false, r)
      | None, None, None =>
          match match_number (String c s') with
          | Some res => Done res
          | None =>
              match strip_prefix "NaN" (String c s'), strip_prefix "Infinity" (String c s'),
                    strip_prefix "-Infinity" (String c s') with
              | Some r, _, _ => Done (JFloat "NaN", r)
              | None, Some r, _ => Done (JFloat "Infinity", r)
              | None, None, Some r => Done (JFloat "-Infinity", r)
              | None, None, None => DecodeError
              end
          end
      end.
Proof. reflexivity. Qed.

Lemma array_loop_S fuel s :
  array_loop (S fuel) s =
    '(value, r) ← scan_once fuel s;
    match skip_ws r with
    | String nextchar r1 =>
        if (nextchar =? "]")%char then Done ([value], r1)
        else if (nextchar =? ",")%char then
          '(values, r2) ← array_loop fuel (skip_ws r1); Done (value :: values, r2)
        else DecodeError
    | EmptyString => DecodeError
    end.
Proof. reflexivity. Qed.

Lemma object_loop_S fuel s :
  object_loop (S fuel) s =
    '(key, r) ← of_option (py_scanstring s);
    match skip_ws r with
    | String colon r1 =>
        if (colon =? ":")%char then
          '(value, r2) ← scan_once fuel (skip_ws r1);
          match skip_ws r2 with
          | String nextchar r3 =>
              if (nextchar =? "}")%char then Done ([(key, value)], r3)
              else if (nextchar =? ",")%char then
                match skip_ws r3 with
                | String q r4 =>
                    if (q =? quote)%char then
                      '(pairs, r5) ← object_loop fuel r4;
                      Done ((key, value) :: pairs, r5)
                    else DecodeError
                | EmptyString => DecodeError
                end
              else DecodeError
          | EmptyString => DecodeError
          end
        else DecodeError
    | EmptyString => DecodeError
    end.
Proof. reflexivity. Qed.

(** ** Fuel *)

Lemma skip_ws_size s : (size (skip_ws s) <= size s)%nat.
Proof. induction s as [|c s IH]; simpl; [done|]. destruct (is_ws c); simpl; lia. Qed.

Lemma py_scanstring_size (n : nat) :
  forall s, (size s <= n)%nat ->
  forall v r, py_scanstring s = Some (v, r) -> (size r < size s)%nat.
Proof.
  induction n as [|n IH]; intros s Hn v r Hscan.
  { destruct s; [done|simpl in Hn; lia]. }
  destruct s as [|c s1]; [done|]. simpl in Hn, Hscan |- *.
  destruct (c =? quote)%char; [injection Hscan as <- <-; lia|].
  destruct (c =? backslash)%char.
  - destruct s1 as [|esc s2]; [done|]. simpl in Hn |- *.
    destruct (esc =? "u")%char.
    + destruct s2 as [|h1 [|h2 [|h3 [|h4 s2]]]]; try done.
      destruct (decode_uXXXX h1 h2 h3 h4); [|done].
      apply cons_char_some in Hscan as (v0 & Hscan & ->).
      apply IH in Hscan; simpl in *; lia.
    + destruct (BACKSLASH esc); [|done].
      apply cons_char_some in Hscan as (v0 & Hscan & ->).
      apply IH in Hscan; lia.
  - destruct (code c <? 32)%N; [done|].
    apply cons_char_some in Hscan as (v0 & Hscan & ->).
    apply IH in Hscan; lia.
Qed.

Lemma strip_prefix_size p : forall s r,
  strip_prefix p s = Some r -> size s = (size p + size r)%nat.
Proof.
  induction p as [|a p IH]; intros s r; simpl; [by intros [= <-]|].
  destruct s as [|b s]; [done|]. destruct (a =? b)%char; [|done].
  intros H. apply IH in H. simpl. lia.
Qed.

Lemma span_digits_size s : (size (snd (span_digits s)) <= size s)%nat.
Proof.
  induction s as [|c s IH]; simpl; [done|].
  destruct (is_digit c); [|simpl; lia]. destruct (span_digits s). simpl in *. lia.
Qed.

Lemma match_number_size s v r : match_number s = Some (v, r) -> (size r < size s)%nat.
Proof.
  unfold match_number.
  destruct (match_integer s) as [[integer r0]|] eqn:Hi; [|done].
  assert (H0 : (size r0 < size s)%nat).
  { unfold match_integer in Hi. destruct s as [|c s1]; [done|].
    destruct (c =? "-")%char.
    - destruct s1 as [|c2 s2]; [done|].
      destruct (c2 =? "0")%char; [injection Hi as _ <-; simpl; lia|].
      destruct (is_digit c2); [|done]. pose proof (span_digits_size s2) as Hsp.
      destruct (span_digits s2). injection Hi as _ <-. simpl in *. lia.
    - destruct (c =? "0")%char; [injection Hi as _ <-; simpl; lia|].
      destruct (is_digit c); [|done]. pose proof (span_digits_size s1) as Hsp.
      destruct (span_digits s1). injection Hi as _ <-. simpl in *. lia. }
  assert (Hf : forall t, match match_frac t with Some (_, r') => (size r' <= size t)%nat
                                           | None => True end).
  { intros t. unfold match_frac. destruct t as [|c t]; [done|].
    destruct (c =? ".")%char; [|done]. pose proof (span_digits_size t) as Hsp.
    destruct (span_digits t) as [[|? ?] ?]; [done|]. simpl in *. lia. }
  assert (He : forall t, match match_exp t with Some (_, r') => (size r' <= size t)%nat
                                          | None => True end).
  { intros t. unfold match_exp. destruct t as [|e t]; [done|].
    destruct (_ || _); [|done].
    destruct t as [|c t].
    - simpl. done.
    - destruct ((c =? "-")%char || (c =? "+")%char).
      + pose proof (span_digits_size t) as Hsp.
        destruct (span_digits t) as [[|? ?] ?]; [done|]. simpl in *. lia.
      + pose proof (span_digits_size (String c t)) as Hsp.
        destruct (span_digits (String c t)) as [[|? ?] ?]; [done|]. simpl in *. lia. }
  specialize (Hf r0). destruct (match_frac r0) as [[frac r1]|].
  - specialize (He r1). destruct (match_exp r1) as [[exp r2]|]; intros [= _ <-]; lia.
  - specialize (He r0). destruct (match_exp r0) as [[exp r2]|]; intros [= _ <-]; lia.
Qed.

(** Every scanner uses at least one character. *)
Lemma scan_size fuel :
  (forall s v r, scan_once fuel s = Done (v, r) -> (size r < size s)%nat)
  /\ (forall s v r, array_loop fuel s = Done (v, r) -> (size r < size s)%nat)
  /\ (forall s v r, object_loop fuel s = Done (v, r) -> (size r < size s)%nat).
Proof.
  induction fuel as [|fuel (IHscan & IHarray & IHobject)]; [done|].
  split; [|split]; intros s v r Hrun.
  - destruct s as [|c s1]; [done|]. rewrite scan_once_S in Hrun.
    destruct (c =? quote)%char.
    { apply bind_done in Hrun as ([v0 r0] & Hstr & [= <- <-]).
      destruct (py_scanstring s1) as [[v1 r1]|] eqn:E; [|done]. injection Hstr as -> ->.
      eapply py_scanstring_size in E; [|reflexivity]. simpl. lia. }
    destruct (c =? "{")%char.
    { apply bind_done in Hrun as ([pairs r0] & Hobj & [= <- <-]).
      unfold JSONObject in Hobj. pose proof (skip_ws_size s1) as Hw.
      destruct (skip_ws s1) as [|c2 t]; [done|].
      destruct (c2 =? "}")%char; [injection Hobj as <- <-; simpl in *; lia|].
      destruct (c2 =? quote)%char; [|done].
      apply IHobject in Hobj. simpl in *. lia. }
    destruct (c =? "[")%char.
    { apply bind_done in Hrun as ([values r0] & Harr & [= <- <-]).
      unfold JSONArray in Harr. pose proof (skip_ws_size s1) as Hw.
      destruct (skip_ws s1) as [|c2 t]; [apply IHarray in Harr; simpl in *; lia|].
      destruct (c2 =? "]")%char; [injection Harr as <- <-; simpl in *; lia|].
      apply IHarray in Harr. simpl in *. lia. }
    repeat match type of Hrun with
    | context [strip_prefix ?p (String c s1)] =>
        let E := fresh "E" in
        destruct (strip_prefix p (String c s1)) eqn:E;
        [apply strip_prefix_size in E; injection Hrun as <- <-; simpl in *; lia|]
    | context [match_number (String c s1)] =>
        let E := fresh "E" in
        destruct (match_number (String c s1)) as [[? ?]|] eqn:E;
        [apply match_number_size in E; injection Hrun as <- <-; exact E|]
    end.
    done.
  - rewrite array_loop_S in Hrun.
    apply bind_done in Hrun as ([value r0] & Hscan & Hrest).
    apply IHscan in Hscan. pose proof (skip_ws_size r0) as Hw.
    destruct (skip_ws r0) as [|c t]; [done|].
    destruct (c =? "]")%char; [injection Hrest as <- <-; simpl in *; lia|].
    destruct (c =? ",")%char; [|done].
    apply bind_done in Hrest as ([values r2] & Hloop & [= <- <-]).
    apply IHarray in Hloop. pose proof (skip_ws_size t). simpl in *. lia.
  - rewrite object_loop_S in Hrun.
    apply bind_done in Hrun as ([key r0] & Hkey & Hrest).
    destruct (py_scanstring s) as [[k1 r1]|] eqn:E; [|done]. injection Hkey as -> ->.
    eapply py_scanstring_size in E; [|reflexivity].
    pose proof (skip_ws_size r0) as Hw.
    destruct (skip_ws r0) as [|colon t]; [done|].
    destruct (colon =? ":")%char; [|done].
    apply bind_done in Hrest as ([value r2] & Hscan & Hrest).
    apply IHscan in Hscan. pose proof (skip_ws_size t) as Hw2.
    pose proof (skip_ws_size r2) as Hw3.
    destruct (skip_ws r2) as [|c t3]; [done|].
    destruct (c =? "}")%char; [injection Hrest as <- <-; simpl in *; lia|].
    destruct (c =? ",")%char; [|done].
    pose proof (skip_ws_size t3) as Hw4.
    destruct (skip_ws t3) as [|q t4]; [done|].
    destruct (q =? quote)%char; [|done].
    apply bind_done in Hrest as ([pairs r5] & Hloop & [= <- <-]).
    apply IHobject in Hloop. simpl in *. lia.
Qed.

(** Twice the length of the text, and one or two more, is fuel enough. *)
Lemma scan_fuel fuel :
  (forall s, (2 * size s + 1 <= fuel)%nat -> scan_once fuel s <> OutOfFuel)
  /\ (forall s, (2 * size s + 2 <= fuel)%nat -> array_loop fuel s <> OutOfFuel)
  /\ (forall s, (2 * size s + 2 <= fuel)%nat -> object_loop fuel s <> OutOfFuel).
Proof.
  induction fuel as [|fuel (IHscan & IHarray & IHobject)].
  { repeat split; intros s H; lia. }
  split; [|split]; intros s Hf Hrun.
  - destruct s as [|c s1]; [done|]. rewrite scan_once_S in Hrun. simpl in Hf.
    destruct (c =? quote)%char.
    { apply bind_out_of_fuel in Hrun as [Hrun|([v r] & _ & Hrun)]; [|done].
      by destruct (py_scanstring s1). }
    destruct (c =? "{")%char.
    { apply bind_out_of_fuel in Hrun as [Hrun|([v r] & _ & Hrun)]; [|done].
      unfold JSONObject in Hrun. pose proof (skip_ws_size s1) as Hw.
      destruct (skip_ws s1) as [|c2 t]; [done|].
      destruct (c2 =? "}")%char; [done|]. destruct (c2 =? quote)%char; [|done].
      apply IHobject in Hrun; [done|]. simpl in Hw. lia. }
    destruct (c =? "[")%char.
    { apply bind_out_of_fuel in Hrun as [Hrun|([v r] & _ & Hrun)]; [|done].
      unfold JSONArray in Hrun. pose proof (skip_ws_size s1) as Hw.
      destruct (skip_ws s1) as [|c2 t]; [apply IHarray in Hrun; [done|simpl; lia]|].
      destruct (c2 =? "]")%char; [done|].
      apply IHarray in Hrun; [done|]. simpl in *. lia. }
    repeat match type of Hrun with
    | context [strip_prefix ?p (String c s1)] =>
        destruct (strip_prefix p (String c s1)); [done|]
    | context [match_number (String c s1)] =>
        destruct (match_number (String c s1)); [done|]
    end.
    done.
  - rewrite array_loop_S in Hrun.
    apply bind_out_of_fuel in Hrun as [Hrun|([value r] & Hscan & Hrun)].
    { apply IHscan in Hrun; [done|lia]. }
    apply scan_size in Hscan. pose proof (skip_ws_size r) as Hw.
    destruct (skip_ws r) as [|c t]; [done|].
    destruct (c =? "]")%char; [done|]. destruct (c =? ",")%char; [|done].
    apply bind_out_of_fuel in Hrun as [Hrun|([values r2] & _ & Hrun)]; [|done].
    apply IHarray in Hrun; [done|]. pose proof (skip_ws_size t). simpl in *. lia.
  - rewrite object_loop_S in Hrun.
    apply bind_out_of_fuel in Hrun as [Hrun|([key r] & Hkey & Hrun)].
    { by destruct (py_scanstring s). }
    destruct (py_scanstring s) as [[k1 r1]|] eqn:E; [|done]. injection Hkey as -> ->.
    eapply py_scanstring_size in E; [|reflexivity].
    pose proof (skip_ws_size r) as Hw.
    destruct (skip_ws r) as [|colon t]; [done|].
    destruct (colon =? ":")%char; [|done].
    pose proof (skip_ws_size t) as Hw2.
    apply bind_out_of_fuel in Hrun as [Hrun|([value r2] & Hscan & Hrun)].
    { apply IHscan in Hrun; [done|]. simpl in *. lia. }
    apply scan_size in Hscan. pose proof (skip_ws_size r2) as Hw3.
    destruct (skip_ws r2) as [|c t3]; [done|].
    destruct (c =? "}")%char; [done|]. destruct (c =? ",")%char; [|done].
    pose proof (skip_ws_size t3) as Hw4.
    destruct (skip_ws t3) as [|q t4]; [done|].
    destruct (q =? quote)%char; [|done].
    apply bind_out_of_fuel in Hrun as [Hrun|([pairs r5] & _ & Hrun)]; [|done].
    apply IHobject in Hrun; [done|]. simpl in *. lia.
Qed.

(** [json_loads] never runs out of fuel: its [None] is a decode error. *)
Lemma json_loads_fuel (s : string) : decode (loads_fuel s) s <> OutOfFuel.
Proof.
  unfold decode. intros Hrun.
  apply bind_out_of_fuel in Hrun as [Hrun|([obj r] & _ & Hrun)].
  - apply scan_fuel in Hrun; [done|]. unfold loads_fuel.
    pose proof (skip_ws_size s). lia.
  - by destruct (is_empty _).
Qed.

(** With fuel enough, more fuel changes nothing. *)
Lemma scan_stable fuel :
  (forall s, scan_once fuel s <> OutOfFuel -> scan_once (S fuel) s = scan_once fuel s)
  /\ (forall s, array_loop fuel s <> OutOfFuel -> array_loop (S fuel) s = array_loop fuel s)
  /\ (forall s, object_loop fuel s <> OutOfFuel ->
        object_loop (S fuel) s = object_loop fuel s).
Proof.
  induction fuel as [|fuel (IHscan & IHarray & IHobject)]; [done|].
  split; [|split]; intros s Hrun.
  - destruct s as [|c s1]; [done|]. rewrite !scan_once_S in *.
    destruct (c =? quote)%char; [done|].
    destruct (c =? "{")%char.
    { unfold JSONObject in *. destruct (skip_ws s1) as [|c2 t]; [done|].
      destruct (c2 =? "}")%char; [done|]. destruct (c2 =? quote)%char; [|done].
      rewrite IHobject; [done|]. intros E. by rewrite E in Hrun. }
    destruct (c =? "[")%char.
    { unfold JSONArray in *.
      destruct (skip_ws s1) as [|c2 t].
      { rewrite IHarray; [done|]. intros E. by rewrite E in Hrun. }
      destruct (c2 =? "]")%char; [done|].
      rewrite IHarray; [done|]. intros E. by rewrite E in Hrun. }
    done.
  - rewrite !array_loop_S in *.
    rewrite IHscan; [|intros E; by rewrite E in Hrun].
    destruct (scan_once fuel s) as [[value r]| |]; [|done|done].
    cbn [mbind decoded_bind] in *.
    destruct (skip_ws r) as [|c t]; [done|].
    destruct (c =? "]")%char; [done|]. destruct (c =? ",")%char; [|done].
    rewrite IHarray; [done|]. intros E. by rewrite E in Hrun.
  - rewrite !object_loop_S in *.
    destruct (of_option (py_scanstring s)) as [[key r]| |]; [|done|done].
    cbn [mbind decoded_bind] in *.
    destruct (skip_ws r) as [|colon t]; [done|].
    destruct (colon =? ":")%char; [|done].
    rewrite IHscan; [|intros E; by rewrite E in Hrun].
    destruct (scan_once fuel (skip_ws t)) as [[value r2]| |]; [|done|done].
    cbn [mbind decoded_bind] in *.
    destruct (skip_ws r2) as [|c t3]; [done|].
    destruct (c =? "}")%char; [done|]. destruct (c =? ",")%char; [|done].
    destruct (skip_ws t3) as [|q t4]; [done|].
    destruct (q =? quote)%char; [|done].
    rewrite IHobject; [done|]. intros E. by rewrite E in Hrun.
Qed.

Lemma scan_once_stable fuel fuel' s :
  (fuel <= fuel')%nat -> scan_once fuel s <> OutOfFuel -> scan_once fuel' s = scan_once fuel s.
Proof.
  induction 1 as [|fuel' _ IH]; [done|].
  intros H. rewrite <- (IH H). apply scan_stable. by rewrite (IH H).
Qed.

(** The result of decoding does not depend on the fuel, once there is as
    much as [json_loads] gives. *)
Lemma decode_stable (fuel : nat) (s : string) :
  (loads_fuel s <= fuel)%nat -> decode fuel s = decode (loads_fuel s) s.
Proof.
  intros Hf. unfold decode. rewrite (scan_once_stable (loads_fuel s) fuel); [done|done|].
  apply scan_fuel. unfold loads_fuel. pose proof (skip_ws_size s). lia.
Qed.

(** ** A comma before the last bracket *)

Lemma tail_swap_append (x : string) : tail_swap (x +:+ "]") (x +:+ ",]").
Proof. induction x; simpl; by constructor. Qed.

Lemma tail_swap_inv c s t :
  tail_swap (String c s) t ->
  (c = "]"%char /\ s = "" /\ t = ",]") \/ (exists s', t = String c s' /\ tail_swap s s').
Proof. inversion 1; subst; eauto. Qed.

Lemma tail_swap_nonempty s t : tail_swap s t -> s <> "".
Proof. by inversion 1. Qed.

Lemma skip_ws_swap s s' : tail_swap s s' -> tail_swap (skip_ws s) (skip_ws s').
Proof.
  induction 1 as [|c s s' H IH]; simpl.
  - constructor.
  - destruct (is_ws c); [exact IH | by constructor].
Qed.

Lemma span_digits_swap s s' :
  tail_swap s s' ->
  forall d r, span_digits s = (d, r) ->
    exists r', span_digits s' = (d, r') /\ tail_swap r r'.
Proof.
  induction 1 as [|c s s' H IH]; simpl; intros d r.
  - intros [= <- <-]. eexists. split; [reflexivity|constructor].
  - destruct (is_digit c).
    + destruct (span_digits s) as [d0 r0]. intros [= <- <-].
      destruct (IH d0 r0 eq_refl) as (r' & -> & Hr). eauto.
    + intros [= <- <-]. eexists. split; [reflexivity|by constructor].
Qed.

Lemma strip_prefix_swap p :
  occurs "]" p = false -> occurs "," p = false ->
  forall s s', tail_swap s s' ->
    match strip_prefix p s with
    | Some r => exists r', strip_prefix p s' = Some r' /\ tail_swap r r'
    | None => strip_prefix p s' = None
    end.
Proof.
  induction p as [|a p IH]; intros Hb Hc s s' Hs; simpl in *.
  - eauto.
  - apply orb_false_iff in Hb as [Hb1 Hb2]. apply orb_false_iff in Hc as [Hc1 Hc2].
    destruct Hs as [|c s s' Hs].
    + rewrite Hb1, Hc1. done.
    + destruct (a =? c)%char; [|done]. by apply IH.
Qed.

(** Inverts a [tail_swap] whose left side starts with a known character. *)
Ltac swap_inv H :=
  let s' := fresh "s'" in
  let E := fresh "E" in
  apply tail_swap_inv in H as [(-> & -> & ->)|(s' & -> & H)].

Lemma py_scanstring_swap (n : nat) :
  forall s, (String.length s <= n)%nat ->
  forall s' v r, tail_swap s s' -> py_scanstring s = Some (v, r) ->
    exists r', py_scanstring s' = Some (v, r') /\ tail_swap r r'.
Proof.
  induction n as [|n IH]; intros s Hn s' v r Hs Hscan.
  { destruct Hs; simpl in Hn; lia. }
  destruct s as [|c s1]; [by inversion Hs|]. simpl in Hn.
  swap_inv Hs; [discriminate Hscan|].
  simpl in Hscan |- *.
  destruct (c =? quote)%char.
  { injection Hscan as <- <-. eauto. }
  destruct (c =? backslash)%char.
  - destruct s1 as [|esc s2]; [by inversion Hs|]. simpl in Hn.
    swap_inv Hs; [discriminate Hscan|].
    destruct (esc =? "u")%char.
    + destruct s2 as [|h1 s2]; [by inversion Hs|]. swap_inv Hs; [discriminate Hscan|].
      destruct s2 as [|h2 s2]; [by inversion Hs|]. swap_inv Hs; [discriminate Hscan|].
      destruct s2 as [|h3 s2]; [by inversion Hs|]. swap_inv Hs; [discriminate Hscan|].
      destruct s2 as [|h4 s2]; [by inversion Hs|].
      swap_inv Hs.
      { simpl in Hscan. unfold decode_uXXXX in Hscan.
        destruct (hex_digit h1), (hex_digit h2), (hex_digit h3); discriminate Hscan. }
      destruct (decode_uXXXX h1 h2 h3 h4); [|done].
      apply cons_char_some in Hscan as (v0 & Hscan & ->).
      eapply IH in Hscan as (r' & -> & Hr); [|simpl in Hn; lia|exact Hs]. simpl. eauto.
    + destruct (BACKSLASH esc); [|done].
      apply cons_char_some in Hscan as (v0 & Hscan & ->).
      eapply IH in Hscan as (r' & -> & Hr); [|lia|exact Hs]. simpl. eauto.
  - destruct (code c <? 32)%N; [done|].
    apply cons_char_some in Hscan as (v0 & Hscan & ->).
    eapply IH in Hscan as (r' & -> & Hr); [|lia|exact Hs]. simpl. eauto.
Qed.

Ltac use_span H :=
  let d := fresh "d" in
  let r := fresh "r" in
  let r' := fresh "r'" in
  let E := fresh "E" in
  let Hr := fresh "Hr" in
  match type of H with
  | tail_swap ?s ?s' =>
      destruct (span_digits s) as [d r] eqn:E;
      destruct (span_digits_swap s s' H d r E) as (r' & -> & Hr)
  end.

Lemma match_integer_swap : swaps match_integer.
Proof.
  intros s s' Hs. unfold match_integer.
  destruct Hs as [|c s1 s1' Hs]; [done|].
  destruct (c =? "-")%char.
  - destruct Hs as [|c2 s2 s2' Hs]; [done|].
    destruct (c2 =? "0")%char; [eauto|].
    destruct (is_digit c2); [|done].
    use_span Hs. eauto.
  - destruct (c =? "0")%char; [eauto|].
    destruct (is_digit c); [|done].
    use_span Hs. eauto.
Qed.

Lemma match_frac_swap : swaps match_frac.
Proof.
  intros s s' Hs. unfold match_frac.
  destruct Hs as [|c s1 s1' Hs]; [done|].
  destruct (c =? ".")%char; [|done].
  use_span Hs. destruct d; [done|]. eauto.
Qed.

Lemma match_exp_swap : swaps match_exp.
Proof.
  intros s s' Hs. unfold match_exp.
  destruct Hs as [|e s1 s1' Hs]; [done|].
  destruct ((e =? "e")%char || (e =? "E")%char); [|done].
  destruct Hs as [|c s2 s2' Hs]; [done|].
  destruct ((c =? "-")%char || (c =? "+")%char).
  - use_span Hs. destruct d; [done|]. eauto.
  - assert (Hs1 : tail_swap (String c s2) (String c s2')) by by constructor.
    use_span Hs1. destruct d; [done|]. eauto.
Qed.

Lemma match_number_swap : swaps match_number.
Proof.
  intros s s' Hs. unfold match_number.
  pose proof (match_integer_swap s s' Hs) as Hi.
  destruct (match_integer s) as [[integer r]|]; [|by rewrite Hi].
  destruct Hi as (r' & -> & Hr).
  pose proof (match_frac_swap r r' Hr) as Hf.
  destruct (match_frac r) as [[frac r1]|].
  - destruct Hf as (r1' & -> & Hr1).
    pose proof (match_exp_swap r1 r1' Hr1) as He.
    destruct (match_exp r1) as [[exp r2]|].
    + destruct He as (r2' & -> & Hr2). eauto.
    + rewrite He. eauto.
  - rewrite Hf.
    pose proof (match_exp_swap r r' Hr) as He.
    destruct (match_exp r) as [[exp r2]|].
    + destruct He as (r2' & -> & Hr2). eauto.
    + rewrite He. eauto.
Qed.

Lemma strip_prefix_swaps p :
  occurs "]" p = false -> occurs "," p = false ->
  swaps (fun s => match strip_prefix p s with Some r => Some (tt, r) | None => None end).
Proof.
  intros Hb Hc s s' Hs. pose proof (strip_prefix_swap p Hb Hc s s' Hs) as H.
  destruct (strip_prefix p s).
  - destruct H as (r' & -> & Hr). eauto.
  - by rewrite H.
Qed.

Lemma scan_once_closer fuel c rest :
  c = "]"%char \/ c = ","%char -> forall x, scan_once fuel (String c rest) <> Done x.
Proof. destruct fuel; [done|]. intros [->| ->] x; simpl; done. Qed.

Lemma array_loop_closer fuel c rest :
  c = "]"%char \/ c = ","%char -> forall x, array_loop fuel (String c rest) <> Done x.
Proof.
  destruct fuel; [done|]. intros Hc x. cbn [array_loop].
  apply bind_not_done. by apply scan_once_closer.
Qed.

Lemma scan_swap fuel :
  carries (scan_once fuel) /\ carries (array_loop fuel) /\ carries (object_loop fuel).
Proof.
  induction fuel as [|fuel (IHscan & IHarray & IHobject)].
  { repeat split; intros s s' v r _; done. }
  split; [|split]; intros s s' v r Hs Hrun.
  - (* scan_once *)
    destruct Hs as [|c s1 s1' Hs]; [done|].
    cbn [scan_once] in Hrun |- *.
    destruct (c =? quote)%char.
    { apply bind_done in Hrun as ([v0 r0] & Hstr & [= <- <-]).
      destruct (py_scanstring s1) as [[v1 r1]|] eqn:E; [|done]. injection Hstr as -> ->.
      eapply py_scanstring_swap in E as (r' & -> & Hr); [|reflexivity|exact Hs].
      left. simpl. eauto. }
    destruct (c =? "{")%char.
    { apply bind_done in Hrun as ([pairs r0] & Hobj & [= <- <-]).
      unfold JSONObject in Hobj |- *.
      pose proof (skip_ws_swap _ _ Hs) as Hw.
      destruct Hw as [|c2 t t' Hw]; [done|].
      destruct (c2 =? "}")%char.
      { injection Hobj as <- <-. left. simpl. eauto. }
      destruct (c2 =? quote)%char; [|done].
      destruct (IHobject _ _ _ _ Hw Hobj) as [(r' & -> & Hr)|[-> Hno]].
      - left. simpl. eauto.
      - right. split; [done|]. intros x. by apply bind_not_done. }
    destruct (c =? "[")%char.
    { apply bind_done in Hrun as ([values r0] & Harr & [= <- <-]).
      unfold JSONArray in Harr |- *.
      pose proof (skip_ws_swap _ _ Hs) as Hw.
      destruct Hw as [|c2 t t' Hw].
      { injection Harr as <- <-. right. split; [done|]. intros x. apply bind_not_done.
        apply array_loop_closer. by right. }
      destruct (c2 =? "]")%char.
      { injection Harr as <- <-. left. simpl. eauto. }
      assert (Hw2 : tail_swap (String c2 t) (String c2 t')) by by constructor.
      destruct (IHarray _ _ _ _ Hw2 Harr) as [(r' & -> & Hr)|[-> Hno]].
      - left. simpl. eauto.
      - right. split; [done|]. intros x. by apply bind_not_done. }
    assert (Hs1 : tail_swap (String c s1) (String c s1')) by by constructor.
    repeat match type of Hrun with
    | context [strip_prefix ?p (String c s1)] =>
        let H := fresh "H" in
        pose proof (strip_prefix_swap p eq_refl eq_refl _ _ Hs1) as H;
        destruct (strip_prefix p (String c s1));
        [destruct H as (? & -> & ?); injection Hrun as <- <-; left; eauto|rewrite H]
    | context [match_number (String c s1)] =>
        let H := fresh "H" in
        pose proof (match_number_swap _ _ Hs1) as H;
        destruct (match_number (String c s1)) as [[? ?]|];
        [destruct H as (? & -> & ?); injection Hrun as <- <-; left; eauto|rewrite H]
    end.
    done.
  - (* array_loop *)
    cbn [array_loop] in Hrun |- *.
    apply bind_done in Hrun as ([value r0] & Hscan & Hrest).
    destruct (IHscan _ _ _ _ Hs Hscan) as [(r0' & -> & Hr0)|[-> Hno]]; [|done].
    simpl. pose proof (skip_ws_swap _ _ Hr0) as Hw.
    destruct Hw as [|c t t' Hw].
    { injection Hrest as <- <-. right. split; [done|]. simpl.
      intros x. apply bind_not_done. apply array_loop_closer. by left. }
    destruct (c =? "]")%char.
    { injection Hrest as <- <-. left. eauto. }
    destruct (c =? ",")%char; [|done].
    apply bind_done in Hrest as ([values r2] & Hloop & [= <- <-]).
    pose proof (skip_ws_swap _ _ Hw) as Hw2.
    destruct (IHarray _ _ _ _ Hw2 Hloop) as [(r' & -> & Hr)|[-> Hno]].
    + left. simpl. eauto.
    + right. split; [done|]. intros x. by apply bind_not_done.
  - (* object_loop *)
    cbn [object_loop] in Hrun |- *.
    apply bind_done in Hrun as ([key r0] & Hkey & Hrest).
    destruct (py_scanstring s) as [[k1 r1]|] eqn:E; [|done]. injection Hkey as -> ->.
    eapply py_scanstring_swap in E as (r0' & -> & Hr0); [|reflexivity|exact Hs].
    simpl. pose proof (skip_ws_swap _ _ Hr0) as Hw.
    destruct Hw as [|colon t t' Hw]; [done|].
    destruct (colon =? ":")%char; [|done].
    apply bind_done in Hrest as ([value r2] & Hscan & Hrest).
    pose proof (skip_ws_swap _ _ Hw) as Hw2.
    destruct (IHscan _ _ _ _ Hw2 Hscan) as [(r2' & -> & Hr2)|[-> Hno]]; [|done].
    simpl. pose proof (skip_ws_swap _ _ Hr2) as Hw3.
    destruct Hw3 as [|c t3 t3' Hw3]; [done|].
    destruct (c =? "}")%char.
    { injection Hrest as <- <-. left. eauto. }
    destruct (c =? ",")%char; [|done].
    pose proof (skip_ws_swap _ _ Hw3) as Hw4.
    destruct Hw4 as [|q t4 t4' Hw4]; [done|].
    destruct (q =? quote)%char; [|done].
    apply bind_done in Hrest as ([pairs r5] & Hloop & [= <- <-]).
    destruct (IHobject _ _ _ _ Hw4 Hloop) as [(r' & -> & Hr)|[-> Hno]].
    + left. simpl. eauto.
    + right. split; [done|]. intros x. by apply bind_not_done.
Qed.

Lemma skip_ws_open s : skip_ws (String "[" s) = String "[" s.
Proof. reflexivity. Qed.

Lemma tail_swap_not_blank r r' : tail_swap r r' -> skip_ws r <> "".
Proof. intros H. apply skip_ws_swap in H. by inversion H. Qed.

Lemma length_append (a b : string) :
  String.length (a +:+ b) = (String.length a + String.length b)%nat.
Proof.
  induction a as [|c a IH]; [done|].
  change (String c a +:+ b) with (String c (a +:+ b)). simpl. by rewrite IH.
Qed.

(** Strict decoding rejects an array made ill-formed by a comma before its
    closing bracket. *)
Lemma json_loads_trailing_comma (inner : string) (values : list json) :
  json_loads ("[" +:+ inner +:+ "]") = Some (JList values) ->
  json_loads ("[" +:+ inner +:+ ",]") = None.
Proof.
  change ("[" +:+ inner +:+ "]") with (String "[" (inner +:+ "]")).
  change ("[" +:+ inner +:+ ",]") with (String "[" (inner +:+ ",]")).
  unfold json_loads, decode. rewrite !skip_ws_open.
  intros Hok.
  destruct (scan_once (loads_fuel _) (String "[" (inner +:+ "]"))) as [[obj r]| |] eqn:Hscan;
    [|done|done].
  simpl in Hok. destruct (is_empty (skip_ws r)) eqn:Hr; [|done].
  rewrite <- (scan_once_stable _ (loads_fuel (String "[" (inner +:+ ",]")))) in Hscan.
  2:{ unfold loads_fuel. simpl. rewrite !length_append. simpl. lia. }
  2:{ by rewrite Hscan. }
  destruct (proj1 (scan_swap _) _ (String "[" (inner +:+ ",]")) _ _
              (swap_next _ _ _ (tail_swap_append inner)) Hscan)
    as [(r' & _ & Hswap)|[-> Hno]].
  - apply tail_swap_not_blank in Hswap. by destruct (skip_ws r).
  - destruct (scan_once _ (String "[" (inner +:+ ",]"))) as [x| |] eqn:E;
      [by destruct (Hno x)|done|done].
Qed.

End JsonFacts.

(* ===================================================================== *)
(** * Response Parser *)
(* ===================================================================== *)

Module ParserFacts.
Import Text Dict Json Models Config mcq_generator Spec JsonFacts.

Lemma append_cons (c : ascii) (a b : string) : String c a +:+ b = String c (a +:+ b).
Proof. reflexivity. Qed.

Lemma append_nil (b : string) : "" +:+ b = b.
Proof. reflexivity. Qed.

Ltac push_append := rewrite ?append_cons, ?append_nil.

Lemma after_first_skips (c : ascii) (pre rest : string) :
  occurs c pre = false -> after_first c (pre +:+ String c rest) = Some rest.
Proof.
  induction pre as [|x pre IH]; push_append; simpl.
  - by rewrite Ascii.eqb_refl.
  - intros H. apply orb_false_iff in H as [-> H]. by apply IH.
Qed.

Lemma upto_last_absent (c : ascii) (post : string) :
  occurs c post = false -> upto_last c post = None.
Proof.
  induction post as [|x post IH]; simpl; [done|].
  intros H. apply orb_false_iff in H as [-> H]. by rewrite IH.
Qed.

Lemma upto_last_stops (c : ascii) (body post : string) :
  occurs c post = false ->
  upto_last c (body +:+ String c post) = Some (body +:+ String c "").
Proof.
  intros H. induction body as [|x body IH]; push_append; simpl.
  - by rewrite upto_last_absent, Ascii.eqb_refl.
  - by rewrite IH.
Qed.

(** The search finds an array that has no opening bracket before it and no
    closing bracket after it. *)
Lemma re_search_embedded (pre inner post : string) :
  occurs "[" pre = false -> occurs "]" post = false ->
  re_search "[" "]" (pre +:+ "[" +:+ inner +:+ "]" +:+ post) = Some ("[" +:+ inner +:+ "]").
Proof.
  intros Hpre Hpost. unfold re_search.
  change ("[" +:+ inner +:+ "]" +:+ post) with (String "[" (inner +:+ String "]" post)).
  rewrite after_first_skips by done. by rewrite upto_last_stops.
Qed.

Lemma clean_json_length (s : string) :
  (String.length (_clean_json s) <= String.length s)%nat.
Proof.
  induction s as [|c s IH]; simpl; [done|].
  destruct (_ && _); simpl; lia.
Qed.

Lemma closes_swap (x : string) : closes (x +:+ ",]") = true -> closes (x +:+ "]") = true.
Proof.
  induction x as [|c x IH]; push_append; simpl; [done|].
  destruct (_ || _); [done|]. destruct (isspace c); [exact IH|done].
Qed.

(** When the repair pass leaves a text that ends with a bracket alone, it
    takes a comma put before that bracket away and does nothing else. *)
Lemma clean_json_trailing_comma (x : string) :
  _clean_json (x +:+ "]") = x +:+ "]" -> _clean_json (x +:+ ",]") = x +:+ "]".
Proof.
  induction x as [|c x IH]; push_append; simpl; [done|].
  destruct ((c =? ",")%char && closes (x +:+ "]")) eqn:E.
  { intros H. pose proof (clean_json_length (x +:+ "]")) as Hlen.
    rewrite H in Hlen. simpl in Hlen. lia. }
  intros [= H]. rewrite (IH H).
  destruct ((c =? ",")%char && closes (x +:+ ",]")) eqn:E'; [|done].
  apply andb_true_iff in E' as [Hc Hx]. apply closes_swap in Hx.
  by rewrite Hc, Hx in E.
Qed.

(** A text that starts with an opening bracket decodes to a list or not at
    all. *)
Lemma json_loads_array (s : string) (v : json) :
  json_loads (String "[" s) = Some v -> exists values, v = JList values.
Proof.
  unfold json_loads, decode. rewrite skip_ws_open. unfold loads_fuel.
  cbn [Nat.add Nat.mul String.length scan_once]. simpl (_ =? _)%char. cbv iota.
  destruct (JSONArray _ _) as [[values r]| |]; simpl; [|done|done].
  destruct (is_empty _); [|done]. intros [= <-]. eauto.
Qed.

Lemma append_assoc (a b c : string) : (a +:+ b) +:+ c = a +:+ (b +:+ c).
Proof. induction a as [|x a IH]; push_append; [done | by rewrite IH]. Qed.

Lemma re_search_opens (opening closing : ascii) (text m : string) :
  re_search opening closing text = Some m -> exists body, m = String opening body.
Proof.
  unfold re_search. destruct (after_first _ _); [|done].
  destruct (upto_last _ _); [|done]. intros [= <-]. eauto.
Qed.

Lemma clean_json_open (s : string) : _clean_json (String "[" s) = String "[" (_clean_json s).
Proof. reflexivity. Qed.



Example parse_empty_array : _parse_llm_response "No questions: []" = inr [].
Proof. vm_compute. reflexivity. Qed.

Example parse_numbers : _parse_llm_response "Options: [1, 2]" = inr [JInt 1; JInt 2].
Proof. vm_compute. reflexivity. Qed.

(** C6, as amended. Let a well-formed array decode to [records], and put it
    between a prose that has no opening bracket and a prose that has no
    closing bracket. Then [_parse_llm_response] returns [records]; and it
    still does with a comma put before the closing bracket of the array,
    provided the repair pass leaves the array itself as it is (no string of
    it holds a comma followed by a closing bracket or brace). *)
Theorem parse_embedded_array (pre inner post : string) (records : list json) :
  json_loads ("[" +:+ inner +:+ "]") = Some (JList records) ->
  occurs "[" pre = false ->
  occurs "]" post = false ->
  _parse_llm_response (pre +:+ "[" +:+ inner +:+ "]" +:+ post) = inr records
  /\ (_clean_json ("[" +:+ inner +:+ "]") = "[" +:+ inner +:+ "]" ->
      _parse_llm_response (pre +:+ "[" +:+ inner +:+ ",]" +:+ post) = inr records).
Proof.
  intros Hloads Hpre Hpost. split.
  - unfold _parse_llm_response. rewrite re_search_embedded by done. by rewrite Hloads.
  - intros Hclean. unfold _parse_llm_response.
    replace (inner +:+ ",]" +:+ post) with ((inner +:+ ",") +:+ "]" +:+ post)
      by (by rewrite append_assoc).
    rewrite re_search_embedded by done.
    rewrite append_assoc. change ("," +:+ "]") with ",]".
    rewrite (json_loads_trailing_comma inner records Hloads).
    change ("[" +:+ inner +:+ ",]") with (("[" +:+ inner) +:+ ",]").
    rewrite clean_json_trailing_comma by exact Hclean.
    change (("[" +:+ inner) +:+ "]") with ("[" +:+ inner +:+ "]"). by rewrite Hloads.
Qed.

(** One good record in an array, in some prose, with and without the
    comma. *)
Lemma parse_embedded_array_witness :
  _parse_llm_response ("Here you go: " +:+ "[" +:+ good_record +:+ "]" +:+ " Enjoy!")
  = _parse_llm_response ("Here you go: " +:+ "[" +:+ good_record +:+ ",]" +:+ " Enjoy!")
  /\ exists record,
      _parse_llm_response ("Here you go: " +:+ "[" +:+ good_record +:+ "]" +:+ " Enjoy!")
      = inr [record].
Proof.
  destruct (json_loads ("[" +:+ good_record +:+ "]")) as [[| | | | |[|record []]|]|] eqn:E;
    try (vm_compute in E; discriminate E).
  destruct (parse_embedded_array "Here you go: " good_record " Enjoy!" [record] E
              eq_refl eq_refl) as [H1 H2].
  rewrite H1, H2; [eauto|]. vm_compute. reflexivity.
Defined.

(** C6 as stated fails twice: a bracket in the prose before the array
    stretches the match over the prose, and the repair pass reaches into a
    string that holds a comma before a closing bracket. *)
Lemma parse_embedded_array_counterexample :
  json_loads (dq "[{'a': 1}]") = Some (JList [JDict [("a", JInt 1)]])
  /\ _parse_llm_response ("As in [1], the answer is: " +:+ dq "[{'a': 1}]")
     <> inr [JDict [("a", JInt 1)]]
  /\ json_loads (dq "[{'a': 'x,]'}]") = Some (JList [JDict [("a", JStr "x,]")]])
  /\ _parse_llm_response (dq "[{'a': 'x,]'},]") <> inr [JDict [("a", JStr "x,]")]].
Proof. repeat split; vm_compute; congruence. Qed.

Example parse_bracket_in_prose :
  _parse_llm_response ("As in [1], the answer is: " +:+ dq "[{'a': 1}]")
  = inl (ValueError "Invalid JSON in LLM response").
Proof. vm_compute. reflexivity. Qed.

Example parse_repaired_string :
  _parse_llm_response (dq "[{'a': 'x,]'},]") = inr [JDict [("a", JStr "x]")]].
Proof. vm_compute. reflexivity. Qed.

End ParserFacts.


(* ===================================================================== *)
(** * Validation Gate: every check counts *)
(* ===================================================================== *)

Module GateFacts.
Import Text Dict Models Config Spec ValidateFacts.

Lemma violation_length (c : check) (q : Question) :
  length (violation c q) = if holds c q then 0%nat else 1%nat.
Proof.
  unfold violation. destruct (holds c q); [done|].
  destruct c; try reflexivity. by destruct (is_empty _).
Qed.

Lemma flat_map_violation_length (q : Question) (cs : list check) :
  length (flat_map (fun c => violation c q) cs)
  = length (List.filter (fun c => negb (holds c q)) cs).
Proof.
  induction cs as [|c cs IH]; simpl; [done|].
  rewrite length_app, violation_length, IH.
  destruct (holds c q); simpl; lia.
Qed.

(** X1. [is_valid] answers yes exactly when each of the ten checks of
    [validate] holds, and [validate] reports one violation per failed check:
    no check hides another. *)
Theorem is_valid_iff_checks (q : Question) :
  (is_valid q = true <-> forall c, holds c q = true)
  /\ length (validate q) = length (List.filter (fun c => negb (holds c q)) all_checks).
Proof.
  split.
  - unfold is_valid. rewrite validate_by_check, flat_map_violation_length. split.
    + intros H c. apply Z.eqb_eq in H.
      assert (Hin : In c all_checks) by (destruct c; simpl; tauto).
      destruct (holds c q) eqn:E; [done|].
      assert (In c (List.filter (fun c => negb (holds c q)) all_checks)).
      { apply filter_In. split; [done|]. by rewrite E. }
      destruct (List.filter _ all_checks); [done|]. simpl in H. lia.
    + intros H. apply Z.eqb_eq.
      replace (List.filter _ all_checks) with (@nil check); [done|].
      symmetry. induction all_checks as [|c cs IH]; simpl; [done|].
      by rewrite H.
  - rewrite validate_by_check. apply flat_map_violation_length.
Qed.

End GateFacts.


(* ===================================================================== *)
(** * Paper validation *)
(* ===================================================================== *)

Module PaperFacts.
Import Text Dict Models Config paper_builder Spec.

Lemma str_in_elem_of (x : string) (xs : list string) : str_in x xs = true <-> x ∈ xs.
Proof.
  unfold str_in. rewrite existsb_exists. split.
  - intros (y & Hy & E). apply String.eqb_eq in E. subst. by apply list_elem_of_In.
  - intros H. exists x. split; [by apply list_elem_of_In | apply String.eqb_refl].
Qed.

Lemma has_duplicates_NoDup (xs : list string) : has_duplicates xs = false <-> NoDup xs.
Proof.
  induction xs as [|x xs IH]; simpl.
  - split; [intros _; constructor | done].
  - rewrite orb_false_iff, NoDup_cons, IH.
    assert (str_in x xs = false <-> x ∉ xs).
    { rewrite <- str_in_elem_of. destruct (str_in x xs); split; congruence. }
    tauto.
Qed.

Lemma question_errors_app (qs : list Question) :
  forall i errors, question_errors i qs errors = errors ++ question_errors i qs [].
Proof.
  induction qs as [|q qs IH]; intros i errors; simpl.
  - by rewrite app_nil_r.
  - destruct (validate q) as [|e es].
    + apply IH.
    + rewrite IH, (IH _ [_]). by rewrite app_assoc.
Qed.

Lemma question_errors_nil (qs : list Question) :
  forall i, question_errors i qs [] = [] <-> Forall (fun q => validate q = []) qs.
Proof.
  induction qs as [|q qs IH]; intros i; simpl.
  - split; [constructor | done].
  - rewrite Forall_cons. destruct (validate q) as [|e es] eqn:E.
    + rewrite IH. tauto.
    + rewrite question_errors_app. simpl. split; [done | intros [? _]; done].
Qed.

Lemma is_valid_validate (q : Question) : is_valid q = true <-> validate q = [].
Proof.
  unfold is_valid. rewrite Z.eqb_eq. destruct (validate q); simpl; split; (done || lia).
Qed.

(** X2. [Paper.validate] finds nothing exactly when the paper has at least
    one question, no two of its questions share an identifier, and each of
    its questions is valid. *)
Theorem paper_validate_clean (p : Paper) :
  Paper_validate p = [] <->
  questions p <> []
  /\ NoDup (map question_id (questions p))
  /\ Forall (fun q => is_valid q = true) (questions p).
Proof.
  unfold Paper_validate. rewrite question_errors_app.
  rewrite !ValidateFacts.append_if_app. simpl.
  rewrite <- has_duplicates_NoDup.
  assert (Forall (fun q => is_valid q = true) (questions p)
          <-> Forall (fun q => validate q = []) (questions p)) as ->
    by (apply Forall_iff; intros q; apply is_valid_validate).
  rewrite <- (question_errors_nil _ 1).
  destruct (questions p) as [|q qs] eqn:Hq; simpl.
  - split; [done | intros [? _]; done].
  - destruct (_ || _); simpl.
    + split; [done | intros (_ & ? & _); done].
    + split; [intros ->; done | intros (_ & _ & ->); done].
Qed.

Lemma question_errors_reports (qs : list Question) :
  forall (i : nat) (q : Question) (start : Z) (errors : list string),
    qs !! i = Some q -> validate q <> [] ->
    ("Question " +:+ pretty (start + Z.of_nat i) +:+ " invalid: " +:+ join ", " (validate q))
      ∈ question_errors start qs errors.
Proof.
  induction qs as [|q0 qs IH]; intros i q start errors Hi Hq; [done|].
  destruct i as [|i].
  - injection Hi as ->. cbn [question_errors]. destruct (validate q) as [|e es] eqn:E; [done|].
    rewrite question_errors_app. rewrite Z.add_0_r. set_solver.
  - cbn [question_errors].
    replace (start + Z.of_nat (S i)) with ((start + 1) + Z.of_nat i) by lia.
    apply IH; [exact Hi | exact Hq].
Qed.

(** X3. For every invalid question of a paper, the report of
    [Paper.validate] has an entry that gives its position, counted from
    one, and its violations joined by commas. *)
Theorem paper_validate_reports (p : Paper) (i : nat) (q : Question) :
  questions p !! i = Some q ->
  validate q <> [] ->
  ("Question " +:+ pretty (Z.of_nat i + 1) +:+ " invalid: " +:+ join ", " (validate q))
    ∈ Paper_validate p.
Proof.
  intros Hi Hq. unfold Paper_validate.
  replace (Z.of_nat i + 1) with (1 + Z.of_nat i) by lia.
  by apply question_errors_reports.
Qed.

Lemma paper_validate_reports_witness :
  let p := {| paper_id := "p"; paper_name := "Test"; subject := "S";
              questions := [sample_question "a"; set_question_text "" (sample_question "b")];
              created_at := "2026-01-01T00:00:00" |} in
  "Question 2 invalid: Question text is empty" ∈ Paper_validate p.
Proof.
  intros p.
  apply (paper_validate_reports p 1 (set_question_text "" (sample_question "b"))).
  - reflexivity.
  - vm_compute. discriminate.
Defined.

End PaperFacts.


(* ===================================================================== *)
(** * Question Bank: calls in sequence *)
(* ===================================================================== *)

Module BankCalls.
Import Text Dict Models paper_builder Spec Scenarios BankFacts.

Lemma fold_add_question_file (qs : list Question) :
  forall b, state_file (fold_left add_question qs b) = state_file b.
Proof.
  induction qs as [|q qs IH]; intros b; simpl; [done|].
  rewrite IH. unfold add_question. by case_decide.
Qed.

Lemma add_question_save (b : QuestionBank) (q : Question) :
  _save_state (add_question (_save_state b) q) = _save_state (add_question b q).
Proof. unfold add_question, _save_state. simpl. by case_decide. Qed.

Lemma save_state_twice (b : QuestionBank) : _save_state (_save_state b) = _save_state b.
Proof. reflexivity. Qed.

Lemma fold_add_question_save (qs : list Question) :
  forall b, _save_state (fold_left add_question qs (_save_state b))
            = _save_state (fold_left add_question qs b).
Proof.
  induction qs as [|q qs IH]; intros b; simpl; [done|].
  rewrite <- IH, <- (IH (add_question b q)). by rewrite add_question_save.
Qed.

(** X4. Two batches added one after the other leave the bank, its file
    included, as the two batches added at once do. *)
Theorem add_questions_app (qs1 qs2 : list Question) (b : QuestionBank) :
  add_questions qs2 (add_questions qs1 b) = add_questions (qs1 ++ qs2) b.
Proof.
  unfold add_questions. rewrite fold_left_app. apply fold_add_question_save.
Qed.

(** X5. After [add_questions], [is_used] answers yes for the identifiers of
    the batch and for those that were used before, and for no other; after
    [clear] it answers no for every identifier. *)
Theorem is_used_after (qs : list Question) (b : QuestionBank) (id : string) :
  (is_used (add_questions qs b) id = true
   <-> id ∈ map question_id qs \/ is_used b id = true)
  /\ is_used (clear b) id = false.
Proof.
  unfold is_used. split.
  - rewrite !bool_decide_eq_true, add_questions_used. set_solver.
  - apply bool_decide_eq_false. simpl. set_solver.
Qed.

Lemma add_question_ok (b : QuestionBank) (q : Question) :
  (NoDup (map question_id (all_questions b))
   /\ forall q, q ∈ all_questions b -> question_id q ∈ used_question_ids b) ->
  NoDup (map question_id (all_questions (add_question b q)))
  /\ forall q', q' ∈ all_questions (add_question b q) ->
       question_id q' ∈ used_question_ids (add_question b q).
Proof.
  intros [Hnd Hin]. unfold add_question. case_decide as Hq; [done|]. simpl. split.
  - rewrite map_app. simpl. apply NoDup_app. split; [done|]. split.
    + intros id Hid Hid'. apply list_elem_of_singleton in Hid'. subst id.
      apply list_elem_of_fmap in Hid as (q' & Heq & Hq'). apply Hq. rewrite Heq. by apply Hin.
    + apply NoDup_singleton.
  - intros q' Hq'. apply elem_of_app in Hq' as [Hq'|Hq'].
    + apply elem_of_union_r. by apply Hin.
    + apply list_elem_of_singleton in Hq'. subst. set_solver.
Qed.

Lemma fold_add_question_ok (qs : list Question) :
  forall b,
    (NoDup (map question_id (all_questions b))
     /\ forall q, q ∈ all_questions b -> question_id q ∈ used_question_ids b) ->
    NoDup (map question_id (all_questions (fold_left add_question qs b)))
    /\ forall q', q' ∈ all_questions (fold_left add_question qs b) ->
         question_id q' ∈ used_question_ids (fold_left add_question qs b).
Proof.
  induction qs as [|q qs IH]; intros b Hb; simpl; [done|].
  apply IH. by apply add_question_ok.
Qed.

Lemma reload_saved (b : QuestionBank) :
  used_question_ids (QuestionBank_init (state_file (_save_state b))) = used_question_ids b.
Proof. unfold QuestionBank_init, _load_state. simpl. apply list_to_set_elements_L. Qed.

(** X6. Whatever calls of [add_questions] and [clear] a bank has served
    since it was opened, no two of the questions it holds share an
    identifier, each of them is marked as used, and a bank opened anew on
    the state file knows the same identifiers as this one. *)
Theorem bank_invariants (file : option (list string)) (calls : list bank_call) :
  let b := bank_after file calls in
  NoDup (map question_id (all_questions b))
  /\ Forall (fun q => is_used b (question_id q) = true) (all_questions b)
  /\ used_question_ids (QuestionBank_init (state_file b)) = used_question_ids b.
Proof.
  intros b. subst b. unfold bank_after.
  assert (H0 : bank_ok (QuestionBank_init file)).
  { unfold bank_ok, QuestionBank_init, _load_state. destruct file; simpl.
    - split; [constructor|]. split; [intros q Hq; by apply elem_of_nil in Hq | done].
    - split; [constructor|]. split; [intros q Hq; by apply elem_of_nil in Hq | done]. }
  assert (H : bank_ok (fold_left bank_step calls (QuestionBank_init file))).
  { revert H0. generalize (QuestionBank_init file).
    induction calls as [|call calls IH]; intros b Hb; simpl; [done|].
    apply IH. destruct Hb as (Hnd & Hin & _). destruct call as [qs|]; simpl.
    - unfold add_questions.
      destruct (fold_add_question_ok qs b (conj Hnd Hin)) as [Hnd' Hin'].
      split; [exact Hnd'|]. split; [exact Hin'|]. exact (reload_saved _).
    - unfold clear. split; [constructor|]. split; [|exact (reload_saved _)].
      intros q Hq. by apply elem_of_nil in Hq. }
  destruct H as (Hnd & Hin & Hfile). split; [done|]. split; [|done].
  apply Forall_forall. intros q Hq. unfold is_used. apply bool_decide_eq_true. by apply Hin.
Qed.

End BankCalls.


(* ===================================================================== *)
(** * Generation Loop: what is accepted *)
(* ===================================================================== *)

Module AcceptanceFacts.
Import Text Dict Json Models Config mcq_generator Spec Scenarios LoopFacts.

Section Loop.

Context {World : Type} `{!Collaborators World}.
Variable config : GenerationConfig.
Variables (subject main_topic subtopic : string) (difficulty : DifficultyLevel).
Variable n : Z.
Variable test_section : string.

#[local] Abbreviation accepted := (accepted_for config test_section main_topic subtopic difficulty).

Lemma dict_to_question_filed (q_dict : json) (w w' : World) (q : Question) :
  _dict_to_question q_dict test_section main_topic subtopic difficulty w = (inr q, w') ->
  Models.test_section q = test_section /\ Models.main_topic q = main_topic
  /\ Models.subtopic q = subtopic /\ Models.difficulty q = difficulty
  /\ has_diagram q = false /\ source_pdf q = None.
Proof.
  unfold _dict_to_question.
  destruct (missing_fields _ _) as [e|[|f fs]]; [done| |done].
  destruct q_dict; try done.
  destruct (uuid4 w) as [id w1]. destruct (datetime_now w1) as [now w2].
  intros [= <- _]. simpl. done.
Qed.

Lemma accept_dicts_accepted (question_dicts : list json) :
  forall questions w,
    Forall accepted questions ->
    Forall accepted
      (fst (accept_dicts config main_topic subtopic difficulty n test_section
              question_dicts questions w)).
Proof.
  induction question_dicts as [|q_dict rest IH]; intros questions w Hall; simpl; [done|].
  destruct (n <=? _); [done|].
  destruct (_dict_to_question _ _ _ _ _ _) as [[e|question] w1] eqn:Hq; [by apply IH|].
  destruct (validate question) eqn:Hv; [|by apply IH].
  destruct (_passes_additional_validation config question) eqn:Hp; simpl; [|by apply IH].
  apply IH. apply Forall_app. split; [done|]. constructor; [|constructor].
  apply dict_to_question_filed in Hq. unfold accepted_for. tauto.
Qed.

Lemma attempt_accepted (questions : list Question) (w : World) :
  Forall accepted questions ->
  Forall accepted
    (fst (attempt config subject main_topic subtopic difficulty n test_section questions w)).
Proof.
  intros Hall. unfold attempt. destruct (llm_generate _ w) as [[e|text] w1]; [done|].
  unfold accept_response. destruct (_parse_llm_response text); [done|].
  by apply accept_dicts_accepted.
Qed.

Lemma attempts_loop_accepted (max_attempts : Z) (budget : nat) :
  forall questions attempts w,
    Forall accepted questions ->
    Forall accepted
      (fst (fst (attempts_loop config subject main_topic subtopic difficulty n test_section
                   budget max_attempts questions attempts w))).
Proof.
  induction budget as [|budget IH]; intros questions attempts w Hall; simpl; [done|].
  destruct (_ && _); [|done].
  pose proof (attempt_accepted questions w Hall) as H1.
  destruct (attempt _ _ _ _ _ _ _ _ _) as [questions1 w1]. by apply IH.
Qed.

End Loop.

(** X7. Every question that [generate_mcqs] returns has passed [validate]
    and the additional validation of the generator, and is filed under the
    topic, subtopic and difficulty of the call and under its test section
    (the main topic when none, or an empty one, is given); and the list is
    never empty. *)
Theorem generated_questions_accepted {World : Type} `{!Collaborators World}
    (config : GenerationConfig) (subject main_topic subtopic : string)
    (difficulty : DifficultyLevel) (n : Z) (test_section : option string) (w w' : World)
    (questions : list Question) :
  generate_mcqs config subject main_topic subtopic difficulty n test_section w
  = (inr questions, w') ->
  questions <> []
  /\ Forall (accepted_for config
               (match test_section with
                | Some s => if is_empty s then main_topic else s
                | None => main_topic
                end) main_topic subtopic difficulty) questions.
Proof.
  unfold generate_mcqs, run_attempts.
  set (ts := match test_section with Some s => _ | None => _ end).
  pose proof (attempts_loop_accepted config subject main_topic subtopic difficulty n ts
                (n * (1 + max_validation_retries config))
                (Z.to_nat (n * (1 + max_validation_retries config))) [] 0 w
                (Forall_nil_2 _)) as Hall.
  destruct (attempts_loop _ _ _ _ _ _ _ _ _ _ _ _) as [[qs attempts] w1]. simpl in Hall.
  destruct qs as [|q qs]; simpl; [done|].
  intros [= <- _]. split; [done | exact Hall].
Qed.

Lemma generated_questions_accepted_witness :
  exists q1 q2 w',
    generate_mcqs (Collaborators0 := steady_model) DEFAULT_GENERATION_CONFIG
      "Metallurgical Engineering" "Engineering Mathematics" "Linear Algebra" EASY 2 (Some "") O
    = (inr [q1; q2], w')
    /\ Forall (accepted_for DEFAULT_GENERATION_CONFIG "Engineering Mathematics"
                 "Engineering Mathematics" "Linear Algebra" EASY) [q1; q2].
Proof.
  do 3 eexists. split; [vm_compute; reflexivity|].
  eapply (generated_questions_accepted (Collaborators0 := steady_model)
            DEFAULT_GENERATION_CONFIG "Metallurgical Engineering" "Engineering Mathematics"
            "Linear Algebra" EASY 2 (Some "") O).
  vm_compute. reflexivity.
Defined.

(** X8. Asked for no question, or for a negative number of them, or with a
    retry limit that leaves no attempt, [generate_mcqs] does not call the
    model: it raises [MCQGenerationError] at once, reporting 0 attempts. *)
Theorem generate_mcqs_nothing_to_do {World : Type} `{!Collaborators World}
    (config : GenerationConfig) (subject main_topic subtopic : string)
    (difficulty : DifficultyLevel) (n : Z) (test_section : option string) (w : World) :
  n <= 0 \/ n * (1 + max_validation_retries config) <= 0 ->
  generate_mcqs config subject main_topic subtopic difficulty n test_section w
  = (inl (MCQGenerationError 0), w).
Proof.
  intros H. unfold generate_mcqs, run_attempts.
  destruct (Z.to_nat (n * (1 + max_validation_retries config))) as [|budget] eqn:Hb; simpl.
  - reflexivity.
  - change (Z.of_nat 0) with 0.
    destruct (Z.ltb_spec 0 n); destruct (Z.ltb_spec 0 (n * (1 + max_validation_retries config)));
      simpl; try reflexivity; lia.
Qed.

Lemma generate_mcqs_nothing_to_do_witness :
  generate_mcqs (Collaborators0 := steady_model) DEFAULT_GENERATION_CONFIG
    "Metallurgical Engineering" "Engineering Mathematics" "Linear Algebra" EASY 0 None O
  = (inl (MCQGenerationError 0), O).
Proof.
  apply (generate_mcqs_nothing_to_do (Collaborators0 := steady_model)
           DEFAULT_GENERATION_CONFIG). left. lia.
Defined.

Section Convert.

Context {World : Type} `{!Collaborators World}.

Lemma missing_fields_record (d : list (string * json)) (fields : list string) :
  missing_fields (JDict d) fields
  = inr (List.filter (fun f => negb (bool_decide (is_Some (dict_get f d)))) fields).
Proof.
  induction fields as [|f fields IH]; simpl; [done|].
  rewrite IH. by destruct (bool_decide _).
Qed.

(** X9. [_dict_to_question] turns down a decoded object that lacks a
    required field with a [ValueError] that names the missing fields, in
    the order of the required ones, and turns down every decoded value that
    is not an object; in both cases before an identifier or a timestamp is
    drawn. An object with the seven required fields is always converted. *)
Theorem dict_to_question_rejects (q_dict : json)
    (test_section main_topic subtopic : string) (difficulty : DifficultyLevel) (w : World) :
  match q_dict with
  | JDict d =>
      match lacking d with
      | [] => exists q w', _dict_to_question q_dict test_section main_topic subtopic
                             difficulty w = (inr q, w')
      | missing =>
          _dict_to_question q_dict test_section main_topic subtopic difficulty w
          = (inl (ValueError ("Missing required fields: " +:+ repr_names missing)), w)
      end
  | _ => exists e, _dict_to_question q_dict test_section main_topic subtopic difficulty w
                   = (inl e, w)
  end.
Proof.
  unfold _dict_to_question. destruct q_dict as [| b | z | x | s | vs | d].
  - eauto.
  - eauto.
  - eauto.
  - eauto.
  - destruct (missing_fields (JStr s) required_fields) as [e|[|f fs]]; eauto.
  - destruct (missing_fields (JList vs) required_fields) as [e|[|f fs]]; eauto.
  - rewrite missing_fields_record. fold (lacking d).
    destruct (lacking d) as [|f fs]; [|done].
    destruct (uuid4 w) as [id w1]. destruct (datetime_now w1) as [now w2]. eauto.
Qed.

End Convert.

End AcceptanceFacts.


(* ===================================================================== *)
(** * Response Parser: the search and the repair pass *)
(* ===================================================================== *)

Module SearchFacts.
Import Text Dict Json Models Config mcq_generator Spec Scenarios JsonFacts ParserFacts.

Lemma after_first_inv (c : ascii) (s rest : string) :
  after_first c s = Some rest ->
  exists pre, s = pre +:+ String c rest /\ occurs c pre = false.
Proof.
  revert rest. induction s as [|x s IH]; intros rest; simpl; [done|].
  destruct (Ascii.eqb_spec x c) as [->|Hne].
  - intros [= <-]. by exists "".
  - intros H. apply IH in H as (pre & -> & Hpre). exists (String x pre). split; [done|].
    simpl. rewrite Hpre. by apply Ascii.eqb_neq in Hne as ->.
Qed.

Lemma upto_last_inv (c : ascii) (s p : string) :
  upto_last c s = Some p ->
  exists body post, s = body +:+ String c post /\ p = body +:+ String c ""
                    /\ occurs c post = false.
Proof.
  revert p. induction s as [|x s IH]; intros p; simpl; [done|].
  destruct (upto_last c s) as [p0|] eqn:E.
  - intros [= <-]. destruct (IH p0 eq_refl) as (body & post & -> & -> & Hpost).
    by exists (String x body), post.
  - destruct (Ascii.eqb_spec x c) as [->|Hne]; [|done].
    intros [= <-]. exists "", s. split; [done|]. split; [done|].
    clear IH. induction s as [|y s IH]; simpl in *; [done|].
    destruct (upto_last c s); [done|]. destruct (y =? c)%char; [done|]. by rewrite IH.
Qed.

Lemma re_search_inv (opening closing : ascii) (text m : string) :
  re_search opening closing text = Some m ->
  exists pre body post,
    text = pre +:+ String opening (body +:+ String closing post)
    /\ m = String opening (body +:+ String closing "")
    /\ occurs opening pre = false
    /\ occurs closing post = false.
Proof.
  unfold re_search. destruct (after_first opening text) as [rest|] eqn:Ha; [|done].
  destruct (upto_last closing rest) as [p|] eqn:Hu; [|done].
  intros [= <-]. apply after_first_inv in Ha as (pre & -> & Hpre).
  apply upto_last_inv in Hu as (body & post & -> & -> & Hpost).
  by exists pre, body, post.
Qed.

Lemma re_search_found (opening closing : ascii) (pre body post : string) :
  occurs opening pre = false ->
  occurs closing post = false ->
  re_search opening closing (pre +:+ String opening (body +:+ String closing post))
  = Some (String opening (body +:+ String closing "")).
Proof.
  intros Hpre Hpost. unfold re_search.
  rewrite after_first_skips by done. by rewrite upto_last_stops.
Qed.

(** X10. The search for a bracketed part, [re.search] with a greedy pattern
    that spans lines, finds its match exactly from the first opening
    character of the text that has a closing character somewhere after it
    up to the last closing character of the text: nothing before the match
    holds an opening character, nothing after it a closing one. It finds
    nothing exactly when the text has no such pair. *)
Theorem re_search_leftmost_longest (opening closing : ascii) (text m : string) :
  re_search opening closing text = Some m
  <-> exists pre body post,
        text = pre +:+ String opening (body +:+ String closing post)
        /\ m = String opening (body +:+ String closing "")
        /\ occurs opening pre = false
        /\ occurs closing post = false.
Proof.
  split.
  - apply re_search_inv.
  - intros (pre & body & post & -> & -> & Hpre & Hpost). by apply re_search_found.
Qed.

Lemma re_search_fixed (opening closing : ascii) (text m : string) :
  re_search opening closing text = Some m -> re_search opening closing m = Some m.
Proof.
  intros H. apply re_search_inv in H as (pre & body & post & _ & -> & _ & _).
  apply (re_search_found opening closing "" body ""); reflexivity.
Qed.

(** X11. What [_parse_llm_response] makes of a text with a bracketed part
    is what it makes of that part alone: the prose around the match plays
    no role, and neither does any object outside it. *)
Theorem parse_ignores_prose (text m : string) :
  re_search "[" "]" text = Some m ->
  _parse_llm_response text = _parse_llm_response m.
Proof.
  intros H. unfold _parse_llm_response. by rewrite (re_search_fixed _ _ _ _ H), H.
Qed.

Lemma parse_ignores_prose_witness :
  _parse_llm_response ("Here is the question: [" +:+ good_record +:+ "] Hope this helps!")
  = _parse_llm_response ("[" +:+ good_record +:+ "]").
Proof.
  apply (parse_ignores_prose
           ("Here is the question: [" +:+ good_record +:+ "] Hope this helps!")
           ("[" +:+ good_record +:+ "]")).
  vm_compute. reflexivity.
Defined.


Lemma clean_json_shorter (c : ascii) (s : string) : _clean_json s <> String c s.
Proof.
  intros H. pose proof (clean_json_length s) as Hlen. rewrite H in Hlen. simpl in Hlen. lia.
Qed.

(** X13. The repair pass [_clean_json] takes commas away and does nothing
    else: without their commas, the text before and the text after are the
    same. It leaves a text as it is exactly when no comma of the text is
    followed, after optional whitespace, by a closing bracket or brace. *)
Theorem clean_json_only_commas (s : string) :
  remove_char "," (_clean_json s) = remove_char "," s
  /\ (_clean_json s = s
      <-> forall pre post, s = pre +:+ String "," post -> closes post = false).
Proof.
  split.
  - induction s as [|c s IH]; simpl; [done|].
    destruct (Ascii.eqb_spec c ",") as [->|Hne]; simpl.
    + destruct (closes s); simpl; exact IH.
    + apply Ascii.eqb_neq in Hne. rewrite Hne. by rewrite IH.
  - induction s as [|c s IH]; simpl.
    + split; [|done]. intros _ pre post H. by destruct pre.
    + destruct ((c =? ",")%char && closes s) eqn:E.
      * split; [intros H; by apply clean_json_shorter in H|].
        intros H. apply andb_true_iff in E as [Hc Hs]. apply Ascii.eqb_eq in Hc. subst c.
        specialize (H "" s eq_refl). congruence.
      * split.
        -- intros [= H] pre post Hs. destruct pre as [|x pre]; push_append.
           ++ rewrite append_nil in Hs. injection Hs as -> ->. by rewrite Ascii.eqb_refl in E.
           ++ rewrite append_cons in Hs. injection Hs as -> Hs. by apply (proj1 IH H pre).
        -- intros H. f_equal. apply IH. intros pre post ->.
           apply (H (String c pre) post). reflexivity.
Qed.

End SearchFacts.


(* ===================================================================== *)
(** * Response Parser: a bare object *)
(* ===================================================================== *)

Module ObjectFacts.
Import Text Dict Json Models Config mcq_generator Spec Scenarios JsonFacts ParserFacts.

Lemma skip_ws_bracket (s : string) :
  skip_ws (s +:+ "]") = skip_ws s +:+ "]".
Proof.
  induction s as [|c s IH]; push_append; simpl; [done|].
  destruct (is_ws c); [exact IH | done].
Qed.

Lemma span_digits_bracket (s : string) :
  span_digits (s +:+ "]") = (fst (span_digits s), snd (span_digits s) +:+ "]").
Proof.
  induction s as [|c s IH]; push_append; simpl; [done|].
  destruct (is_digit c); [|done]. rewrite IH. by destruct (span_digits s).
Qed.

Lemma strip_prefix_bracket (p : string) :
  occurs "]" p = false -> p <> "" ->
  leaves_bracket (fun s => match strip_prefix p s with Some r => Some (tt, r) | None => None end).
Proof.
  intros Hp Hne s. revert s Hp Hne.
  induction p as [|a p IH]; intros s Hp Hne; [done|]. simpl in Hp.
  apply orb_false_iff in Hp as [Ha Hp].
  destruct s as [|b s]; push_append; simpl.
  - by rewrite Ha.
  - destruct (a =? b)%char; [|done].
    destruct p as [|a' p]; [done|]. by apply IH.
Qed.

Lemma py_scanstring_bracket (n : nat) :
  forall s, (String.length s <= n)%nat ->
  forall v r, py_scanstring s = Some (v, r) ->
    py_scanstring (s +:+ "]") = Some (v, r +:+ "]").
Proof.
  induction n as [|n IH]; intros s Hn v r Hscan.
  { destruct s; [done|]. simpl in Hn. lia. }
  destruct s as [|c s1]; [done|]. simpl in Hn. push_append.
  simpl in Hscan |- *.
  destruct (c =? quote)%char.
  { by injection Hscan as <- <-. }
  destruct (c =? backslash)%char.
  - destruct s1 as [|esc s2]; [done|]. simpl in Hn. push_append.
    destruct (esc =? "u")%char.
    + destruct s2 as [|h1 [|h2 [|h3 [|h4 s2]]]]; try done. push_append.
      destruct (decode_uXXXX h1 h2 h3 h4); [|done].
      apply cons_char_some in Hscan as (v0 & Hscan & ->).
      rewrite (IH s2 ltac:(simpl in Hn; lia) v0 r Hscan). done.
    + destruct (BACKSLASH esc); [|done].
      apply cons_char_some in Hscan as (v0 & Hscan & ->).
      rewrite (IH s2 ltac:(lia) v0 r Hscan). done.
  - destruct (code c <? 32)%N; [done|].
    apply cons_char_some in Hscan as (v0 & Hscan & ->).
    rewrite (IH s1 ltac:(lia) v0 r Hscan). done.
Qed.

Lemma match_integer_bracket : leaves_bracket match_integer.
Proof.
  intros s. unfold match_integer.
  destruct s as [|c s1]; push_append; [done|].
  destruct (c =? "-")%char.
  - destruct s1 as [|c2 s2]; push_append; [done|].
    destruct (c2 =? "0")%char; [done|].
    destruct (is_digit c2); [|done].
    rewrite span_digits_bracket. by destruct (span_digits s2).
  - destruct (c =? "0")%char; [done|].
    destruct (is_digit c); [|done].
    rewrite span_digits_bracket. by destruct (span_digits s1).
Qed.

Lemma match_frac_bracket : leaves_bracket match_frac.
Proof.
  intros s. unfold match_frac.
  destruct s as [|c s1]; push_append; [done|].
  destruct (c =? ".")%char; [|done].
  rewrite span_digits_bracket. by destruct (span_digits s1) as [[|d0 d] r].
Qed.

Lemma match_exp_bracket : leaves_bracket match_exp.
Proof.
  intros s. unfold match_exp.
  destruct s as [|e s1]; push_append; [done|].
  destruct ((e =? "e")%char || (e =? "E")%char); [|done].
  destruct s1 as [|c s2]; push_append; [done|].
  destruct ((c =? "-")%char || (c =? "+")%char).
  - rewrite span_digits_bracket. by destruct (span_digits s2) as [[|d0 d] r].
  - change (String c (s2 +:+ "]")) with (String c s2 +:+ "]").
    rewrite span_digits_bracket. by destruct (span_digits (String c s2)) as [[|d0 d] r].
Qed.

Lemma match_number_bracket : leaves_bracket match_number.
Proof.
  intros s. unfold match_number.
  pose proof (match_integer_bracket s) as Hi.
  destruct (match_integer s) as [[integer r]|]; rewrite Hi; [|done].
  pose proof (match_frac_bracket r) as Hf.
  destruct (match_frac r) as [[frac r1]|]; rewrite Hf.
  - pose proof (match_exp_bracket r1) as He.
    destruct (match_exp r1) as [[exp r2]|]; by rewrite He.
  - pose proof (match_exp_bracket r) as He.
    destruct (match_exp r) as [[exp r2]|]; by rewrite He.
Qed.

Lemma scan_once_nil fuel x : scan_once fuel "" <> Done x.
Proof. by destruct fuel. Qed.

Lemma array_loop_nil fuel x : array_loop fuel "" <> Done x.
Proof.
  destruct fuel; [done|]. rewrite array_loop_S. apply bind_not_done. apply scan_once_nil.
Qed.

Lemma scan_bracket fuel :
  keeps_bracket (scan_once fuel) /\ keeps_bracket (array_loop fuel)
  /\ keeps_bracket (object_loop fuel).
Proof.
  induction fuel as [|fuel (IHscan & IHarray & IHobject)].
  { repeat split; intros s v r; done. }
  split; [|split]; intros s v r Hrun.
  - (* scan_once *)
    destruct s as [|c s1]; [done|]. push_append.
    rewrite scan_once_S in Hrun |- *.
    destruct (c =? quote)%char.
    { apply bind_done in Hrun as ([v0 r0] & Hstr & [= <- <-]).
      destruct (py_scanstring s1) as [[v1 r1]|] eqn:E; [|done]. injection Hstr as -> ->.
      by rewrite (py_scanstring_bracket _ s1 (le_n _) _ _ E). }
    destruct (c =? "{")%char.
    { apply bind_done in Hrun as ([pairs r0] & Hobj & [= <- <-]).
      unfold JSONObject in Hobj |- *. rewrite skip_ws_bracket.
      destruct (skip_ws s1) as [|c2 t]; [done|]. push_append.
      destruct (c2 =? "}")%char.
      { by injection Hobj as <- <-. }
      destruct (c2 =? quote)%char; [|done].
      by rewrite (IHobject _ _ _ Hobj). }
    destruct (c =? "[")%char.
    { apply bind_done in Hrun as ([values r0] & Harr & [= <- <-]).
      unfold JSONArray in Harr |- *. rewrite skip_ws_bracket.
      destruct (skip_ws s1) as [|c2 t] eqn:Hw.
      { by apply array_loop_nil in Harr. }
      push_append.
      destruct (c2 =? "]")%char.
      { by injection Harr as <- <-. }
      change (String c2 (t +:+ "]")) with (String c2 t +:+ "]").
      by rewrite (IHarray _ _ _ Harr). }
    change (String c (s1 +:+ "]")) with (String c s1 +:+ "]").
    repeat match type of Hrun with
    | context [strip_prefix ?p (String c s1)] =>
        let H := fresh "H" in
        pose proof (strip_prefix_bracket p eq_refl ltac:(discriminate) (String c s1)) as H;
        cbv beta in H;
        destruct (strip_prefix p (String c s1));
        [ destruct (strip_prefix p (String c s1 +:+ "]")); [|discriminate H];
          injection H as ->; by injection Hrun as <- <-
        | destruct (strip_prefix p (String c s1 +:+ "]")); [discriminate H|]; clear H ]
    | context [match_number (String c s1)] =>
        let H := fresh "H" in
        pose proof (match_number_bracket (String c s1)) as H;
        destruct (match_number (String c s1)) as [[? ?]|];
        [ rewrite H; by injection Hrun as <- <- | rewrite H; clear H ]
    end.
    done.
  - (* array_loop *)
    rewrite array_loop_S in Hrun |- *.
    apply bind_done in Hrun as ([value r0] & Hscan & Hrest).
    rewrite (IHscan _ _ _ Hscan). cbn [mbind decoded_bind]. rewrite skip_ws_bracket.
    destruct (skip_ws r0) as [|c t]; [done|]. push_append.
    destruct (c =? "]")%char.
    { by injection Hrest as <- <-. }
    destruct (c =? ",")%char; [|done].
    apply bind_done in Hrest as ([values r2] & Hloop & [= <- <-]).
    rewrite skip_ws_bracket. by rewrite (IHarray _ _ _ Hloop).
  - (* object_loop *)
    rewrite object_loop_S in Hrun |- *.
    apply bind_done in Hrun as ([key r0] & Hkey & Hrest).
    destruct (py_scanstring s) as [[k1 r1]|] eqn:E; [|done]. injection Hkey as -> ->.
    rewrite (py_scanstring_bracket _ s (le_n _) _ _ E). cbn [of_option mbind decoded_bind].
    rewrite skip_ws_bracket.
    destruct (skip_ws r0) as [|colon t]; [done|]. push_append.
    destruct (colon =? ":")%char; [|done].
    apply bind_done in Hrest as ([value r2] & Hscan & Hrest).
    rewrite skip_ws_bracket. rewrite (IHscan _ _ _ Hscan). cbn [mbind decoded_bind].
    rewrite skip_ws_bracket.
    destruct (skip_ws r2) as [|c t3]; [done|]. push_append.
    destruct (c =? "}")%char.
    { by injection Hrest as <- <-. }
    destruct (c =? ",")%char; [|done].
    rewrite skip_ws_bracket.
    destruct (skip_ws t3) as [|q t4]; [done|]. push_append.
    destruct (q =? quote)%char; [|done].
    apply bind_done in Hrest as ([pairs r5] & Hloop & [= <- <-]).
    by rewrite (IHobject _ _ _ Hloop).
Qed.

(** An object that decodes as it stands decodes, put in brackets, to the
    list of that one object. *)
Lemma json_loads_wrapped (body : string) (v : json) :
  json_loads (String "{" body) = Some v ->
  json_loads ("[" +:+ String "{" body +:+ "]") = Some (JList [v]).
Proof.
  unfold json_loads. intros Hok.
  destruct (decode (loads_fuel (String "{" body)) (String "{" body)) as [obj| |] eqn:Hdec;
    [|done|done].
  injection Hok as ->. unfold decode in Hdec.
  change (skip_ws (String "{" body)) with (String "{" body) in Hdec.
  apply bind_done in Hdec as ([obj r] & Hscan & Hend).
  destruct (is_empty (skip_ws r)) eqn:Hr; [|done]. injection Hend as ->.
  destruct (skip_ws r) as [|] eqn:Hws; [|done].
  set (fuel := loads_fuel (String "{" body)) in *.
  change ("[" +:+ String "{" body +:+ "]") with (String "[" (String "{" body +:+ "]")).
  assert (Hfuel : loads_fuel (String "[" (String "{" body +:+ "]")) = S (S (S (S fuel)))).
  { unfold fuel, loads_fuel. simpl. rewrite length_append. simpl. lia. }
  rewrite Hfuel. unfold decode.
  change (skip_ws (String "[" (String "{" body +:+ "]")))
    with (String "[" (String "{" body +:+ "]")).
  rewrite scan_once_S. simpl ((_ =? _)%char). cbv iota.
  unfold JSONArray. rewrite skip_ws_bracket.
  change (skip_ws (String "{" body)) with (String "{" body). push_append.
  simpl ((_ =? _)%char). cbv iota.
  change (String "{" (body +:+ "]")) with (String "{" body +:+ "]").
  rewrite array_loop_S.
  rewrite (scan_once_stable fuel (S (S fuel)) (String "{" body +:+ "]"));
    [|lia|by rewrite (proj1 (scan_bracket fuel) _ _ _ Hscan)].
  rewrite (proj1 (scan_bracket fuel) _ _ _ Hscan). cbn [mbind decoded_bind].
  rewrite skip_ws_bracket, Hws. push_append. simpl. done.
Qed.

(** X14. A reply that holds no bracketed part but a braced one that
    decodes as it stands is read as a list of one object, the decoded
    one. *)
Theorem parse_bare_object (text m : string) (v : json) :
  re_search "[" "]" text = None ->
  re_search "{" "}" text = Some m ->
  json_loads m = Some v ->
  _parse_llm_response text = inr [v] /\ is_record v = true.
Proof.
  intros Harr Hobj Hloads. unfold _parse_llm_response. rewrite Harr, Hobj.
  destruct (re_search_opens _ _ _ _ Hobj) as [body ->].
  rewrite (json_loads_wrapped body v Hloads). split; [done|].
  unfold json_loads in Hloads.
  destruct (decode _ _) as [obj| |] eqn:Hdec; [|done|done]. injection Hloads as ->.
  unfold decode in Hdec. change (skip_ws (String "{" body)) with (String "{" body) in Hdec.
  apply bind_done in Hdec as ([obj r] & Hscan & Hend).
  destruct (is_empty (skip_ws r)); [|done]. injection Hend as ->.
  unfold loads_fuel in Hscan. cbn [Nat.add Nat.mul String.length] in Hscan.
  rewrite scan_once_S in Hscan. simpl ((_ =? _)%char) in Hscan. cbv iota in Hscan.
  apply bind_done in Hscan as ([pairs r0] & _ & [= <- _]). done.
Qed.

Lemma parse_bare_object_witness :
  _parse_llm_response (dq "Sure. {'answer': 'B', 'score': 1} Anything else?")
  = inr [JDict [("answer", JStr "B"); ("score", JInt 1)]].
Proof.
  apply (parse_bare_object (dq "Sure. {'answer': 'B', 'score': 1} Anything else?")
           (dq "{'answer': 'B', 'score': 1}")
           (JDict [("answer", JStr "B"); ("score", JInt 1)]));
    vm_compute; reflexivity.
Defined.

End ObjectFacts.


(* ===================================================================== *)
(** * Section Builder: bands, labels and counts *)
(* ===================================================================== *)

Module SectionFacts.
Import Text Dict Models mcq_generator paper_builder Spec Scenarios PartitionFacts BuilderFacts.

Lemma getitem_known (label : string) :
  DifficultyLevel_getitem (upper label)
  = if known_label label
    then DifficultyLevel_getitem (upper label)
    else inl (KeyError (upper label)).
Proof.
  unfold known_label, DifficultyLevel_getitem, str_in. simpl.
  destruct (upper label =? "EASY")%string; [done|].
  destruct (upper label =? "MEDIUM")%string; [done|].
  by destruct (upper label =? "HARD")%string.
Qed.

Lemma getitem_known_inr (label : string) (d : DifficultyLevel) :
  DifficultyLevel_getitem (upper label) = inr d -> known_label label = true.
Proof. rewrite getitem_known. by destruct (known_label label). Qed.

Lemma known_getitem (label : string) :
  known_label label = true -> exists d, DifficultyLevel_getitem (upper label) = inr d.
Proof.
  unfold known_label, DifficultyLevel_getitem, str_in. simpl.
  destruct (upper label =? "EASY")%string; [eauto|].
  destruct (upper label =? "MEDIUM")%string; [eauto|].
  destruct (upper label =? "HARD")%string; [eauto|done].
Qed.

Lemma difficulties_loop_no_topics {World TextImagePair : Type}
    (C : Collaborators World TextImagePair) (section : PaperSection) (subject : string)
    (diagram_pairs : option (list TextImagePair)) (items : list (string * Z)) :
  topics section = [] ->
  forall questions w,
    difficulties_loop (Collaborators0 := C) section subject diagram_pairs items questions w
    = (match List.find bad_band items with
       | Some band => inl (KeyError (upper (fst band)))
       | None => inr questions
       end, w).
Proof.
  intros Htopics. induction items as [|[label count] items IH]; intros questions w; [done|].
  simpl. unfold bad_band at 1. simpl. destruct (count =? 0); simpl; [apply IH|].
  rewrite getitem_known. destruct (known_label label) eqn:Hk; simpl; [|done].
  destruct (known_getitem label Hk) as [d ->]. rewrite Htopics. apply IH.
Qed.

(** X15. A section without topics gives no question and calls no
    generator. Its bands are still read in order: the first band that asks
    for questions under a label that names no difficulty makes
    [_build_section] raise [KeyError] with the label in capitals; with no
    such band the result is the empty list. *)
Theorem build_section_no_topics {World TextImagePair : Type}
    (C : Collaborators World TextImagePair) (section : PaperSection) (subject : string)
    (diagram_pairs : option (list TextImagePair)) (w : World) :
  topics section = [] ->
  _build_section (Collaborators0 := C) section subject diagram_pairs w
  = (match List.find bad_band (difficulty_distribution section) with
     | Some band => inl (KeyError (upper (fst band)))
     | None => inr []
     end, w).
Proof. intros Htopics. unfold _build_section. by apply difficulties_loop_no_topics. Qed.

Lemma build_section_no_topics_witness :
  let section := {| name := "Aptitude"; question_count := 3;
                    paper_builder.difficulty_distribution := [("Easy", 0); ("Tricky", 3)];
                    topics := [] |} in
  _build_section (Collaborators0 := repeating_generator) section "Metallurgical Engineering"
    None tt
  = (inl (KeyError "TRICKY"), tt).
Proof.
  intros section.
  apply (build_section_no_topics repeating_generator section "Metallurgical Engineering"
           None tt).
  reflexivity.
Defined.

Lemma difficulties_loop_labels {World TextImagePair : Type}
    (C : Collaborators World TextImagePair) (section : PaperSection) (subject : string)
    (diagram_pairs : option (list TextImagePair)) (items : list (string * Z)) :
  forall questions w questions' w',
    difficulties_loop (Collaborators0 := C) section subject diagram_pairs items questions w
    = (inr questions', w') ->
    List.find bad_band items = None.
Proof.
  induction items as [|[label count] items IH]; intros questions w questions' w'; [done|].
  simpl. unfold bad_band at 1. simpl. destruct (count =? 0); simpl; [apply IH|].
  destruct (DifficultyLevel_getitem (upper label)) as [e|d] eqn:Hd; [done|].
  rewrite (getitem_known_inr _ _ Hd). simpl.
  destruct (topics section); [apply IH|].
  destruct (topics_loop _ _ _ _ _ _ _ _ _) as [[e|questions1] w1]; [done|]. apply IH.
Qed.

(** X16. [_build_section] returns questions only for a section each of
    whose bands either asks for no question or is labelled Easy, Medium or
    Hard, in whatever letter case: with any other label on a band that asks
    for questions, it raises. *)
Theorem build_section_labels {World TextImagePair : Type}
    (C : Collaborators World TextImagePair) (section : PaperSection) (subject : string)
    (diagram_pairs : option (list TextImagePair)) (w w' : World)
    (questions : list Question) :
  _build_section (Collaborators0 := C) section subject diagram_pairs w = (inr questions, w') ->
  Forall (fun band => snd band = 0 \/ known_label (fst band) = true)
         (difficulty_distribution section).
Proof.
  unfold _build_section. intros H. apply difficulties_loop_labels in H.
  apply Forall_forall. intros band Hin. apply list_elem_of_In in Hin.
  pose proof (find_none _ _ H band Hin) as Hb. unfold bad_band in Hb.
  destruct (Z.eqb_spec (snd band) 0); [by left|]. right.
  by destruct (known_label (fst band)).
Qed.

Lemma build_section_labels_witness :
  Forall (fun band => snd band = 0 \/ known_label (fst band) = true)
         (difficulty_distribution sample_section).
Proof.
  eapply (build_section_labels repeating_generator sample_section
            "Metallurgical Engineering" None tt tt).
  vm_compute. reflexivity.
Defined.

Section Delivers.

Context {World TextImagePair : Type} (C : Collaborators World TextImagePair).
Variable section : PaperSection.
Variable subject : string.

(** The text generator gives as many questions as it is asked for. *)
Hypothesis delivers : forall main_topic subtopic difficulty n w,
  1 <= n ->
  exists qs w', generate_mcqs subject main_topic subtopic difficulty n w = (inr qs, w')
                /\ Z.of_nat (length qs) = n.

Lemma topics_loop_count (difficulty : DifficultyLevel) (count : Z) :
  0 <= count ->
  forall rest i questions w,
    exists questions' w',
      topics_loop (Collaborators0 := C) section subject None difficulty count i
        rest questions w = (inr questions', w')
      /\ Z.of_nat (length questions')
         = Z.of_nat (length questions)
           + sum_list (map (topic_count count (length (topics section)))
                           (seq i (length rest))).
Proof.
  intros Hcount. induction rest as [|topic_spec rest IH]; intros i questions w; simpl.
  - exists questions, w. split; [done|lia].
  - assert (Hpos : 0 <= topic_count count (length (topics section)) i).
    { rewrite topic_count_cases.
      destruct (Nat.eq_dec (length (topics section)) 0%nat) as [E|E].
      - rewrite E. simpl. rewrite Z.div_0_r, Z.mod_0_r. destruct (_ <? _); lia.
      - assert (0 <= count / Z.of_nat (length (topics section))) by (apply Z.div_pos; lia).
        destruct (_ <? _); lia. }
    destruct (Z.eqb_spec (topic_count count (length (topics section)) i) 0) as [E|E].
    + destruct (IH (S i) questions w) as (q' & w' & -> & Hlen).
      exists q', w'. split; [done|]. lia.
    + unfold build_topic.
      destruct (delivers (default "General" (topic_spec !! "main_topic"))
                  (default "General" (topic_spec !! "subtopic")) difficulty
                  (topic_count count (length (topics section)) i) w ltac:(lia))
        as (qs & w1 & -> & Hqs).
      destruct (IH (S i) (questions ++ map (set_test_section (name section)) qs) w1)
        as (q' & w' & -> & Hlen).
      exists q', w'. split; [done|].
      rewrite Hlen, length_app, length_map. lia.
Qed.

Lemma difficulties_loop_count (items : list (string * Z)) :
  topics section <> [] ->
  Forall (fun band => 0 <= snd band /\ known_label (fst band) = true) items ->
  forall questions w,
    exists questions' w',
      difficulties_loop (Collaborators0 := C) section subject None items questions w
      = (inr questions', w')
      /\ Z.of_nat (length questions')
         = Z.of_nat (length questions) + sum_list (map snd items).
Proof.
  intros Htopics. induction items as [|[label count] items IH]; intros Hall questions w.
  - exists questions, w. simpl. split; [done|lia].
  - apply Forall_cons in Hall as [[Hcount Hlabel] Hall]. simpl in Hcount, Hlabel. simpl.
    destruct (Z.eqb_spec count 0) as [->|Hne].
    + destruct (IH Hall questions w) as (q' & w' & -> & Hlen). exists q', w'.
      split; [done|]. lia.
    + destruct (known_getitem label Hlabel) as [d ->].
      destruct (topics section) as [|t ts] eqn:Ht; [done|]. rewrite <- Ht.
      destruct (topics_loop_count d count Hcount (topics section) 0%nat questions w)
        as (q1 & w1 & -> & Hlen1).
      destruct (IH Hall q1 w1) as (q' & w' & -> & Hlen). exists q', w'.
      split; [done|]. rewrite Hlen, Hlen1.
      change (map _ (seq 0 _)) with (allocation count (length (topics section))).
      rewrite allocation_sum by (rewrite Ht; simpl; lia). lia.
Qed.

End Delivers.

(** X17. Let a section have at least one topic and bands with known labels
    and counts that are not negative, and let no diagram be at hand. If the
    text generator gives as many questions as it is asked for, whenever it
    is asked for at least one, then [_build_section] returns as many
    questions as the counts of the bands add up to: the split of each band
    over the topics loses no question and adds none. *)
Theorem build_section_count {World TextImagePair : Type}
    (C : Collaborators World TextImagePair) (section : PaperSection) (subject : string)
    (w : World) :
  (forall main_topic subtopic difficulty n w,
     1 <= n ->
     exists qs w', generate_mcqs subject main_topic subtopic difficulty n w = (inr qs, w')
                   /\ Z.of_nat (length qs) = n) ->
  topics section <> [] ->
  Forall (fun band => 0 <= snd band /\ known_label (fst band) = true)
         (difficulty_distribution section) ->
  exists questions w',
    _build_section (Collaborators0 := C) section subject None w = (inr questions, w')
    /\ Z.of_nat (length questions) = sum_list (map snd (difficulty_distribution section)).
Proof.
  intros Hgen Htopics Hbands. unfold _build_section.
  destruct (difficulties_loop_count C section subject Hgen (difficulty_distribution section)
              Htopics Hbands [] w) as (q' & w' & Hrun & Hlen).
  exists q', w'. split; [exact Hrun|]. simpl in Hlen. lia.
Qed.

Lemma build_section_count_witness :
  exists questions w',
    _build_section (Collaborators0 := repeating_generator) sample_section
      "Metallurgical Engineering" None tt = (inr questions, w')
    /\ Z.of_nat (length questions) = 5.
Proof.
  apply (build_section_count repeating_generator sample_section "Metallurgical Engineering" tt).
  - intros main_topic subtopic difficulty n w Hn. do 2 eexists. split; [reflexivity|].
    rewrite repeat_length. lia.
  - discriminate.
  - simpl. repeat (apply Forall_cons; split; [split; [simpl; lia | reflexivity]|]).
    apply Forall_nil_2.
Defined.

Lemma build_section_named {World TextImagePair : Type}
    (C : Collaborators World TextImagePair) (section : PaperSection) (subject : string)
    (diagram_pairs : option (list TextImagePair)) (w w' : World)
    (questions : list Question) :
  _build_section (Collaborators0 := C) section subject diagram_pairs w = (inr questions, w') ->
  Forall (fun q => test_section q = name section) questions.
Proof.
  unfold _build_section. intros Hrun.
  pose proof (difficulties_loop_unlogged C section subject diagram_pairs
                (difficulty_distribution section) [] w []) as Hun.
  rewrite Hrun in Hun.
  destruct (difficulties_loop (Collaborators0 := logged C) _ _ _ _ _ _)
    as [r [w1 log1]] eqn:Hlog.
  unfold unlogged in Hun. simpl in Hun. injection Hun as -> ->.
  apply difficulties_loop_logged in Hlog as (generated & -> & ->). simpl.
  apply Forall_forall. intros q Hq. apply list_elem_of_In, in_map_iff in Hq.
  destruct Hq as (g & <- & _). reflexivity.
Qed.

Lemma sections_loop_named {World TextImagePair : Type}
    (C : Collaborators World TextImagePair) (subject : string)
    (diagram_pairs : option (list TextImagePair)) (sections : list PaperSection) :
  forall (known : list string) all_questions w all_questions' w',
    Forall (fun q => test_section q ∈ known) all_questions ->
    sections_loop (Collaborators0 := C) subject diagram_pairs sections all_questions w
    = (inr all_questions', w') ->
    Forall (fun q => test_section q ∈ known ++ map name sections) all_questions'.
Proof.
  induction sections as [|section sections IH]; intros known qs w qs' w' Hall; simpl.
  - intros [= <- _]. by rewrite app_nil_r.
  - destruct (_build_section _ _ _ _) as [[e|section_questions] w1] eqn:Hs; [done|].
    intros Hrest. apply build_section_named in Hs.
    apply (IH (known ++ [name section])) in Hrest.
    + by rewrite <- app_assoc in Hrest.
    + apply Forall_app. split.
      * eapply Forall_impl; [exact Hall|]. intros q Hq. simpl in Hq. set_solver.
      * eapply Forall_impl; [exact Hs|]. intros q Hq. simpl in Hq. rewrite Hq. set_solver.
Qed.

(** X18. When [build_paper] returns a paper, each question of the paper is
    filed under the name of one of the sections asked for, is marked as
    used in the bank of the builder, and has its identifier in the state
    file; and the bank has forgotten no identifier that it knew before. *)
Theorem build_paper_files_and_marks {World TextImagePair float : Type}
    (C : Collaborators World TextImagePair) (config : PaperConfig float)
    (sections : list PaperSection) (diagram_pairs : option (list TextImagePair))
    (question_bank : QuestionBank) (w : World) (paper : Paper) :
  let b := build_paper (Collaborators0 := C) config sections diagram_pairs question_bank w in
  returned b = inr paper ->
  Forall (fun q => test_section q ∈ map name sections
                   /\ is_used (bank b) (question_id q) = true
                   /\ question_id q ∈ persisted (bank b)) (questions paper)
  /\ used_question_ids question_bank ⊆ used_question_ids (bank b).
Proof.
  intros b. subst b. unfold build_paper.
  destruct (sections_loop _ _ _ _ _) as [[e|all_questions] w1] eqn:Hloop; [done|].
  destruct (uuid4 w1) as [id w2]. destruct (now_isoformat w2) as [now w3].
  cbn [returned bank]. intros [= <-]. cbn [questions].
  apply (sections_loop_named C _ _ _ []) in Hloop; [|constructor]. simpl in Hloop.
  split.
  - apply Forall_forall. intros q Hq. split; [|split].
    + by apply (proj1 (Forall_forall _ _) Hloop).
    + unfold is_used. apply bool_decide_eq_true. rewrite BankFacts.add_questions_used.
      apply elem_of_union_l, elem_of_list_to_set, list_elem_of_fmap. eauto.
    + rewrite BankFacts.add_questions_persisted.
      apply elem_of_union_l, elem_of_list_to_set, list_elem_of_fmap. eauto.
  - rewrite BankFacts.add_questions_used. set_solver.
Qed.

Lemma build_paper_files_and_marks_witness :
  let b := build_paper (Collaborators0 := repeating_generator) default_config
             [sample_section] None (QuestionBank_init (Some ["W"])) tt in
  exists paper,
    returned b = inr paper
    /\ Forall (fun q => test_section q ∈ ["Main Subject"]
                        /\ is_used (bank b) (question_id q) = true
                        /\ question_id q ∈ persisted (bank b)) (questions paper)
    /\ used_question_ids (QuestionBank_init (Some ["W"])) ⊆ used_question_ids (bank b).
Proof.
  intros b. eexists. split; [vm_compute; reflexivity|].
  apply (build_paper_files_and_marks repeating_generator default_config [sample_section]
           None (QuestionBank_init (Some ["W"])) tt).
  vm_compute. reflexivity.
Defined.

End SectionFacts.


(* ===================================================================== *)
(** * PaperConfig: the entries of the counts *)
(* ===================================================================== *)

Module EntriesFacts.
Import Text Dict Models Spec PartitionFacts DifficultyFacts.

Section Counts.

Context {float : Type}.
Variable int_of_product : Z -> float -> result Z.

Lemma difficulty_counts_loop_entries (section_count : Z) (items : list (string * float)) :
  forall (counts : list (string * Z)) (remaining : Z),
    NoDup (keys counts ++ keys items) ->
    computable int_of_product section_count items ->
    exists new,
      difficulty_counts_loop int_of_product (List.last (keys items) "") section_count
        items counts remaining = inr (counts ++ new)
      /\ keys new = keys items
      /\ Forall2 (fun item entry => int_of_product section_count (snd item) = inr (snd entry))
           (removelast items) (removelast new).
Proof.
  induction items as [|[k p] items IH]; intros counts remaining Hnd Hc.
  { exists []. simpl. rewrite app_nil_r. split; [done|]. split; [done|constructor]. }
  destruct items as [|[k2 p2] items].
  - simpl. rewrite String.eqb_refl. simpl.
    exists [(k, remaining)]. split; [|split; [done|constructor]].
    f_equal. apply keys_dict_set_fresh.
    apply NoDup_app in Hnd as (_ & Hd & _). intros Hin. apply (Hd k Hin). set_solver.
  - change (keys ((k, p) :: (k2, p2) :: items)) with (k :: keys ((k2, p2) :: items)) in *.
    change (List.last (k :: keys ((k2, p2) :: items)) "")
      with (List.last (keys ((k2, p2) :: items)) "").
    assert (Hfresh : (k ∉ keys counts) /\ (k ∉ keys ((k2, p2) :: items))).
    { apply NoDup_app in Hnd as (_ & Hd & Hi). apply NoDup_cons in Hi as [Hk _].
      split; [|done]. intros Hin. apply (Hd k Hin). set_solver. }
    destruct Hfresh as [Hk1 Hk2].
    cbn [difficulty_counts_loop].
    destruct (String.eqb_spec k (List.last (keys ((k2, p2) :: items)) "")) as [Heq|_].
    { exfalso. apply Hk2. rewrite Heq. apply last_elem_of. }
    unfold computable in Hc. change (removelast ((k, p) :: (k2, p2) :: items))
      with ((k, p) :: removelast ((k2, p2) :: items)) in Hc.
    apply Forall_cons in Hc as [[count Hcount] Hc]. simpl in Hcount. rewrite Hcount.
    destruct (IH (dict_set k count counts) (remaining - count)) as (new & Hres & Hkeys & Hall).
    + rewrite keys_dict_set_fresh by done. unfold keys in *.
      rewrite map_app. simpl. rewrite <- app_assoc. simpl.
      rewrite <- Permutation_middle in Hnd |- *. exact Hnd.
    + exact Hc.
    + exists ((k, count) :: new). split; [|split].
      * replace (counts ++ (k, count) :: new) with (dict_set k count counts ++ new)
          by (rewrite keys_dict_set_fresh by done; by rewrite <- app_assoc).
        exact Hres.
      * unfold keys in *. simpl. by rewrite Hkeys.
      * change (removelast ((k, p) :: (k2, p2) :: items))
          with ((k, p) :: removelast ((k2, p2) :: items)).
        destruct new as [|entry new]; [done|].
        change (removelast ((k, count) :: entry :: new))
          with ((k, count) :: removelast (entry :: new)).
        constructor; [exact Hcount | exact Hall].
Qed.

(** X19. When none of the truncated products raises,
    [get_difficulty_counts] returns one count for each difficulty of the
    distribution, under the same keys in the same order, and each count but
    the last is the product of the section count and the percentage, cut to
    an integer. An empty distribution gives an empty dict, whatever the
    section count. *)
Theorem difficulty_counts_entries (config : PaperConfig float) (section_count : Z) :
  NoDup (keys (difficulty_distribution config)) ->
  computable int_of_product section_count (difficulty_distribution config) ->
  exists counts,
    get_difficulty_counts int_of_product config section_count = inr counts
    /\ keys counts = keys (difficulty_distribution config)
    /\ Forall2 (fun item entry => int_of_product section_count (snd item) = inr (snd entry))
         (removelast (difficulty_distribution config)) (removelast counts).
Proof.
  intros Hnd Hc. unfold get_difficulty_counts.
  destruct (difficulty_counts_loop_entries section_count (difficulty_distribution config)
              [] section_count Hnd Hc) as (new & Hres & Hkeys & Hall).
  exists new. by rewrite Hres.
Qed.

End Counts.

Lemma difficulty_counts_entries_witness :
  exists counts,
    get_difficulty_counts int_of_hundredths default_config 17 = inr counts
    /\ keys counts = ["Easy"; "Medium"; "Hard"]
    /\ Forall2 (fun item entry => int_of_hundredths 17 (snd item) = inr (snd entry))
         [("Easy", 60); ("Medium", 30)] (removelast counts).
Proof.
  apply (difficulty_counts_entries int_of_hundredths default_config 17).
  - simpl. repeat (apply NoDup_cons; split; [set_solver|]). apply NoDup_nil_2.
  - unfold computable. simpl. repeat constructor; eexists; reflexivity.
Defined.

End EntriesFacts.


(* ===================================================================== *)
(** * Multimodal generator *)
(* ===================================================================== *)

Module MultimodalFacts.
Import Text Dict Json Models Config Spec Scenarios.
Import multimodal_models multimodal_generator.

Section Loop.

Context {World : Type} `{!Collaborators World}.
Variable config : GenerationConfig.
Variable pair : TextImagePair.t.
Variables (subject main_topic subtopic : string) (difficulty : DifficultyLevel).
Variable n : Z.
Variable test_section : string.

#[local] Abbreviation accepted :=
  (accepted_from_pair config pair test_section main_topic subtopic difficulty).
#[local] Abbreviation count qs := (Z.of_nat (length qs)).

Lemma dict_to_question_stamped (q_dict : json) (w w' : World) (q : Question) :
  _dict_to_question q_dict test_section main_topic subtopic difficulty pair w = (inr q, w') ->
  Models.test_section q = test_section /\ Models.main_topic q = main_topic
  /\ Models.subtopic q = subtopic /\ Models.difficulty q = difficulty
  /\ has_diagram q = true /\ source_pdf q = TextImagePair.source_pdf pair.
Proof.
  unfold _dict_to_question.
  destruct (mcq_generator.missing_fields _ _) as [e|[|f fs]]; [done| |done].
  destruct q_dict as [| | | | | |d]; try done.
  destruct (match dict_get "references" d with None => _ | Some _ => _ end) as [e|refs];
    [done|].
  destruct (uuid4 w) as [id w1]. destruct (datetime_now w1) as [now w2].
  intros [= <- _]. simpl. done.
Qed.

Lemma passes_keyword (q : Question) :
  _passes_additional_validation config q = true ->
  exists keyword, keyword ∈ diagram_keywords
                  /\ mcq_generator.is_substring keyword (lower (question_text_en q)) = true.
Proof.
  unfold _passes_additional_validation.
  destruct (_ <? _); [done|]. destruct (_ && _); [done|].
  destruct (existsb _ diagram_keywords) eqn:E; [|done]. intros _.
  apply existsb_exists in E as (keyword & Hin & Hsub).
  exists keyword. split; [by apply list_elem_of_In | done].
Qed.

Lemma accept_dicts_from_pair (question_dicts : list json) :
  forall questions w,
    Forall accepted questions ->
    Forall accepted
      (fst (accept_dicts config pair main_topic subtopic difficulty n test_section
              question_dicts questions w))
    /\ count (fst (accept_dicts config pair main_topic subtopic difficulty n test_section
                     question_dicts questions w)) <= Z.max n (count questions).
Proof.
  induction question_dicts as [|q_dict rest IH]; intros questions w Hall; simpl.
  { split; [done|lia]. }
  destruct (Z.leb_spec n (count questions)); [simpl; split; [done|lia]|].
  destruct (_dict_to_question _ _ _ _ _ _ _) as [[e|question] w1] eqn:Hq; [by apply IH|].
  destruct (validate question) eqn:Hv; [|by apply IH].
  destruct (_passes_additional_validation config question) eqn:Hp; simpl; [|by apply IH].
  destruct (IH (questions ++ [question]) w1) as [H1 H2].
  - apply Forall_app. split; [done|]. constructor; [|constructor].
    apply dict_to_question_stamped in Hq. pose proof (passes_keyword _ Hp).
    unfold accepted_from_pair. tauto.
  - split; [exact H1|]. rewrite length_app in H2. simpl in H2. lia.
Qed.

Lemma attempt_from_pair (questions : list Question) (w : World) :
  Forall accepted questions ->
  Forall accepted
    (fst (attempt config pair subject main_topic subtopic difficulty n test_section
            questions w))
  /\ count (fst (attempt config pair subject main_topic subtopic difficulty n test_section
                   questions w)) <= Z.max n (count questions).
Proof.
  intros Hall. unfold attempt.
  destruct (generate_multimodal _ _ w) as [[e|text] w1]; [simpl; split; [done|lia]|].
  destruct (_parse_vlm_response text); [simpl; split; [done|lia]|].
  by apply accept_dicts_from_pair.
Qed.

Lemma attempts_loop_from_pair (max_attempts : Z) (budget : nat) :
  forall questions attempts w,
    Forall accepted questions ->
    Forall accepted
      (fst (fst (attempts_loop config pair subject main_topic subtopic difficulty n
                   test_section budget max_attempts questions attempts w)))
    /\ count (fst (fst (attempts_loop config pair subject main_topic subtopic difficulty n
                          test_section budget max_attempts questions attempts w)))
       <= Z.max n (count questions).
Proof.
  induction budget as [|budget IH]; intros questions attempts w Hall; simpl.
  { split; [done|lia]. }
  destruct (_ && _); [|simpl; split; [done|lia]].
  destruct (attempt_from_pair questions w Hall) as [H1 H2].
  destruct (attempt _ _ _ _ _ _ _ _ _ _) as [questions1 w1]. simpl in H1, H2.
  destruct (IH questions1 (attempts + 1) w1 H1) as [H3 H4]. split; [exact H3|lia].
Qed.

End Loop.

Lemma generate_from_pair_returns {World : Type} `{!Collaborators World}
    (config : GenerationConfig) (pair : TextImagePair.t)
    (subject main_topic subtopic : string) (difficulty : DifficultyLevel) (n : Z)
    (test_section : option string) (w : World) :
  exists questions w',
    generate_from_pair config pair subject main_topic subtopic difficulty n test_section w
    = (inr questions, w')
    /\ Z.of_nat (length questions) <= Z.max n 0
    /\ Forall (accepted_from_pair config pair
                 (match test_section with
                  | Some s => if is_empty s then main_topic else s
                  | None => main_topic
                  end) main_topic subtopic difficulty) questions.
Proof.
  unfold generate_from_pair.
  set (ts := match test_section with Some s => _ | None => _ end).
  destruct (attempts_loop_from_pair config pair subject main_topic subtopic difficulty n ts
              (n * (1 + max_validation_retries config))
              (Z.to_nat (n * (1 + max_validation_retries config))) [] 0 w
              (Forall_nil_2 _)) as [H1 H2].
  destruct (attempts_loop _ _ _ _ _ _ _ _ _ _ _ _ _) as [[qs attempts] w1].
  simpl in H1, H2. exists qs, w1. split; [done|]. split; [lia | exact H1].
Qed.

(** X20. [generate_from_pair] raises nothing: it returns what it has
    accepted, be it nothing, and never more than [n] questions. Each
    question it returns has passed [validate] and the additional validation
    of the generator, is filed under the topic, subtopic and difficulty of
    the call and under its test section, is marked as a question on a
    diagram of the PDF of the pair, and has one of the diagram keywords in
    its text. *)
Theorem generate_from_pair_accepted {World : Type} `{!Collaborators World}
    (config : GenerationConfig) (pair : TextImagePair.t)
    (subject main_topic subtopic : string) (difficulty : DifficultyLevel) (n : Z)
    (test_section : option string) (w : World) :
  exists questions w',
    generate_from_pair config pair subject main_topic subtopic difficulty n test_section w
    = (inr questions, w')
    /\ Z.of_nat (length questions) <= Z.max n 0
    /\ Forall (accepted_from_pair config pair
                 (match test_section with
                  | Some s => if is_empty s then main_topic else s
                  | None => main_topic
                  end) main_topic subtopic difficulty) questions.
Proof. apply generate_from_pair_returns. Qed.

(** X21. The multimodal parser and the text parser are one function under
    two names: on every text both fail, or both return the same list. *)
Theorem parse_vlm_as_llm (text : string) :
  match _parse_vlm_response text, mcq_generator._parse_llm_response text with
  | inr vlm_values, inr llm_values => vlm_values = llm_values
  | inl _, inl _ => True
  | _, _ => False
  end.
Proof.
  unfold _parse_vlm_response, mcq_generator._parse_llm_response, _clean_json.
  destruct (mcq_generator.re_search "[" "]" text) as [m|].
  - destruct (json_loads m) as [v|].
    + by destruct v.
    + destruct (json_loads (mcq_generator._clean_json m)) as [v|]; [by destruct v | done].
  - destruct (mcq_generator.re_search "{" "}" text) as [m|]; [|done].
    destruct (json_loads ("[" +:+ m +:+ "]")) as [v|].
    + by destruct v.
    + destruct (json_loads (mcq_generator._clean_json ("[" +:+ m +:+ "]"))) as [v|];
        [by destruct v | done].
Qed.

Section Pipeline.

Context {World : Type}.
Variable M : multimodal_generator.Collaborators World.
Variable section : paper_builder.PaperSection.
Variable subject : string.
Variable pair : TextImagePair.t.
Variable pairs : list TextImagePair.t.

#[local] Abbreviation from_first_pair q :=
  (has_diagram q = true /\ source_pdf q = TextImagePair.source_pdf pair
   /\ Models.test_section q = paper_builder.name section).

Lemma build_topic_with_diagrams (T T' : mcq_generator.Collaborators World)
    difficulty topic_spec topic_count questions w :
  Forall (fun q => from_first_pair q) questions ->
  paper_builder.build_topic (Collaborators0 := full_pipeline T M) section subject
    (Some (pair :: pairs)) difficulty topic_spec topic_count questions w
  = paper_builder.build_topic (Collaborators0 := full_pipeline T' M) section subject
      (Some (pair :: pairs)) difficulty topic_spec topic_count questions w
  /\ exists questions' w',
       paper_builder.build_topic (Collaborators0 := full_pipeline T M) section subject
         (Some (pair :: pairs)) difficulty topic_spec topic_count questions w
       = (inr questions', w')
       /\ Forall (fun q => from_first_pair q) questions'.
Proof.
  intros Hall. unfold paper_builder.build_topic. cbn [paper_builder.generate_from_pair full_pipeline].
  destruct (generate_from_pair_returns (Collaborators0 := M) DEFAULT_GENERATION_CONFIG pair
              subject (default "General" (topic_spec !! "main_topic"))
              (default "General" (topic_spec !! "subtopic")) difficulty topic_count None w)
    as (qs & w1 & -> & _ & Hqs).
  split; [done|]. do 2 eexists. split; [done|].
  apply Forall_app. split; [done|]. apply Forall_forall. intros q Hq.
  apply list_elem_of_In, in_map_iff in Hq as (g & <- & Hg).
  apply list_elem_of_In in Hg.
  pose proof (proj1 (Forall_forall _ _) Hqs g Hg) as Hacc.
  unfold accepted_from_pair in Hacc. destruct g. simpl in *. tauto.
Qed.

Lemma topics_loop_with_diagrams (T T' : mcq_generator.Collaborators World)
    difficulty count rest :
  forall i questions w,
    Forall (fun q => from_first_pair q) questions ->
    paper_builder.topics_loop (Collaborators0 := full_pipeline T M) section subject
      (Some (pair :: pairs)) difficulty count i rest questions w
    = paper_builder.topics_loop (Collaborators0 := full_pipeline T' M) section subject
        (Some (pair :: pairs)) difficulty count i rest questions w
    /\ exists questions' w',
         paper_builder.topics_loop (Collaborators0 := full_pipeline T M) section subject
           (Some (pair :: pairs)) difficulty count i rest questions w
         = (inr questions', w')
         /\ Forall (fun q => from_first_pair q) questions'.
Proof.
  induction rest as [|topic_spec rest IH]; intros i questions w Hall;
    cbn [paper_builder.topics_loop].
  { split; [done|]. eauto. }
  destruct (_ =? 0); [by apply IH|].
  destruct (build_topic_with_diagrams T T' difficulty topic_spec
              (paper_builder.topic_count count (length (paper_builder.topics section)) i)
              questions w Hall) as (Heq & questions1 & w1 & Hrun & Hall1).
  rewrite <- Heq, Hrun. by apply IH.
Qed.

Lemma difficulties_loop_with_diagrams (T T' : mcq_generator.Collaborators World) items :
  forall questions w,
    Forall (fun q => from_first_pair q) questions ->
    paper_builder.difficulties_loop (Collaborators0 := full_pipeline T M) section subject
      (Some (pair :: pairs)) items questions w
    = paper_builder.difficulties_loop (Collaborators0 := full_pipeline T' M) section subject
        (Some (pair :: pairs)) items questions w
    /\ match fst (paper_builder.difficulties_loop (Collaborators0 := full_pipeline T M)
                    section subject (Some (pair :: pairs)) items questions w) with
       | inl e => exists key, e = KeyError key
       | inr questions' => Forall (fun q => from_first_pair q) questions'
       end.
Proof.
  induction items as [|[label count] items IH]; intros questions w Hall;
    cbn [paper_builder.difficulties_loop].
  { done. }
  destruct (count =? 0); [by apply IH|].
  unfold paper_builder.DifficultyLevel_getitem.
  destruct (_ =? "EASY")%string; [|destruct (_ =? "MEDIUM")%string;
    [|destruct (_ =? "HARD")%string; [|simpl; eauto]]].
  all: destruct (paper_builder.topics section) as [|t ts] eqn:Ht; [by apply IH|]; rewrite <- Ht.
  all: match goal with
       | |- context [paper_builder.topics_loop _ _ _ ?d _ _ _ _ _] =>
           destruct (topics_loop_with_diagrams T T' d count (paper_builder.topics section)
                       0%nat questions w Hall) as (Heq & questions1 & w1 & Hrun & Hall1)
       end.
  all: rewrite <- Heq, Hrun; by apply IH.
Qed.

End Pipeline.

(** X22. With a diagram at hand, [_build_section] on top of the two
    generators takes every question from the multimodal generator and the
    first pair: each question it returns is marked as a question on a
    diagram of the PDF of that pair and carries the name of the section.
    The text generator is never called, whatever the multimodal generator
    accepts, so that the result is the same under any text model, and the
    only exception is the [KeyError] of an unknown difficulty label. *)
Theorem build_section_with_diagrams {World : Type}
    (T T' : mcq_generator.Collaborators World) (M : multimodal_generator.Collaborators World)
    (section : paper_builder.PaperSection) (subject : string)
    (pair : TextImagePair.t) (pairs : list TextImagePair.t) (w : World) :
  paper_builder._build_section (Collaborators0 := full_pipeline T M) section subject
    (Some (pair :: pairs)) w
  = paper_builder._build_section (Collaborators0 := full_pipeline T' M) section subject
      (Some (pair :: pairs)) w
  /\ match fst (paper_builder._build_section (Collaborators0 := full_pipeline T M)
                  section subject (Some (pair :: pairs)) w) with
     | inl e => exists key, e = KeyError key
     | inr questions =>
         Forall (fun q => has_diagram q = true
                          /\ source_pdf q = TextImagePair.source_pdf pair
                          /\ Models.test_section q = paper_builder.name section) questions
     end.
Proof.
  unfold paper_builder._build_section.
  apply difficulties_loop_with_diagrams. constructor.
Qed.

End MultimodalFacts.


(* ===================================================================== *)
(** * Documents and pairs *)
(* ===================================================================== *)

Module ExtractorFacts.
Import Text Spec Scenarios PartitionFacts.
Import multimodal_models pdf_extractor.

Section Pairer.

Variable path_name : string -> string.
Variable min_text_length : Z.

Lemma create_single_image_pair_inv image page source_pdf p :
  _create_single_image_pair path_name min_text_length image page source_pdf = Some p ->
  TextImagePair.images p = [image]
  /\ TextImagePair.page_number p = PDFPage.page_number page
  /\ TextImagePair.source_pdf p = Some (path_name source_pdf)
  /\ min_text_length <= len (TextImagePair.text p).
Proof.
  unfold _create_single_image_pair. cbv zeta.
  match goal with |- context [len ?t <? _] => generalize t end. intros text.
  destruct (Z.ltb_spec (len text) min_text_length); [done|].
  intros [= <-]. simpl. done.
Qed.

Lemma images_loop_sound (page : PDFPage.t) (source_pdf : string) (images : list ExtractedImage.t) :
  forall pairs,
    exists new,
      images_loop path_name min_text_length images page source_pdf pairs = pairs ++ new
      /\ (length new <= length images)%nat
      /\ Forall (fun p => exists image,
                   image ∈ images
                   /\ TextImagePair.images p = [image]
                   /\ TextImagePair.page_number p = PDFPage.page_number page
                   /\ TextImagePair.source_pdf p = Some (path_name source_pdf)
                   /\ min_text_length <= len (TextImagePair.text p)) new.
Proof.
  induction images as [|img images IH]; intros pairs; simpl.
  { exists []. rewrite app_nil_r. split; [done|]. split; [done|constructor]. }
  destruct (_create_single_image_pair _ _ img page source_pdf) as [p|] eqn:Hp.
  - destruct (IH (pairs ++ [p])) as (new & -> & Hlen & Hall).
    exists (p :: new). split; [by rewrite <- app_assoc|]. split; [simpl; lia|].
    constructor.
    + apply create_single_image_pair_inv in Hp. exists img. split; [set_solver|done].
    + eapply Forall_impl; [exact Hall|]. intros q (image & Hin & Hq). exists image.
      split; [set_solver|done].
  - destruct (IH pairs) as (new & -> & Hlen & Hall).
    exists new. split; [done|]. split; [lia|].
    eapply Forall_impl; [exact Hall|]. intros q (image & Hin & Hq). exists image.
    split; [set_solver|done].
Qed.

Lemma pages_loop_sound (source_pdf : string) (pages : list PDFPage.t) :
  forall pairs,
    exists new,
      pages_loop path_name min_text_length pages source_pdf pairs = pairs ++ new
      /\ Z.of_nat (length new)
         <= sum_list (map (fun page => Z.of_nat (length (PDFPage.images page))) pages)
      /\ Forall (fun p => exists page image,
                   page ∈ pages
                   /\ image ∈ PDFPage.images page
                   /\ TextImagePair.images p = [image]
                   /\ TextImagePair.page_number p = PDFPage.page_number page
                   /\ TextImagePair.source_pdf p = Some (path_name source_pdf)
                   /\ min_text_length <= len (TextImagePair.text p)) new.
Proof.
  induction pages as [|page pages IH]; intros pairs; simpl.
  { exists []. rewrite app_nil_r. split; [done|]. split; [done|constructor]. }
  destruct (PDFPage.images page) as [|img imgs] eqn:Himgs.
  - destruct (IH pairs) as (new & -> & Hlen & Hall).
    exists new. split; [done|]. split; [simpl; lia|].
    eapply Forall_impl; [exact Hall|]. intros q (pg & image & Hin & Hq). exists pg, image.
    split; [set_solver|done].
  - rewrite <- Himgs.
    destruct (images_loop_sound page source_pdf (PDFPage.images page) pairs)
      as (new1 & -> & Hlen1 & Hall1).
    destruct (IH (pairs ++ new1)) as (new & -> & Hlen & Hall).
    exists (new1 ++ new). split; [by rewrite <- app_assoc|]. split.
    + rewrite length_app. rewrite Himgs in *. simpl in *. lia.
    + apply Forall_app. split.
      * eapply Forall_impl; [exact Hall1|]. intros q (image & Hin & Hq). exists page, image.
        split; [set_solver|done].
      * eapply Forall_impl; [exact Hall|]. intros q (pg & image & Hin & Hq). exists pg, image.
        split; [set_solver|done].
Qed.

(** X23. Each pair that [create_pairs] makes of a document holds exactly
    one image, an image of a page of the document; it carries the number of
    that page and the file name of the document, and its text has the
    minimum length at least. There are never more pairs than the document
    has images. *)
Theorem create_pairs_sound (pdf_doc : PDFDocument.t) :
  Forall (pair_of path_name min_text_length pdf_doc)
         (create_pairs path_name min_text_length pdf_doc)
  /\ Z.of_nat (length (create_pairs path_name min_text_length pdf_doc))
     <= PDFDocument.total_images pdf_doc.
Proof.
  unfold create_pairs, PDFDocument.total_images.
  destruct (pages_loop_sound (PDFDocument.filepath pdf_doc) (PDFDocument.pages pdf_doc) [])
    as (new & -> & Hlen & Hall).
  simpl. split; [exact Hall | exact Hlen].
Qed.

End Pairer.

Lemma fold_left_extend (pages : list PDFPage.t) :
  forall all_images,
    fold_left (fun all_images page => all_images ++ PDFPage.images page) pages all_images
    = all_images ++ concat (map PDFPage.images pages).
Proof.
  induction pages as [|page pages IH]; intros all_images; simpl.
  - by rewrite app_nil_r.
  - by rewrite IH, app_assoc.
Qed.

(** X24. [total_images] counts exactly the images that [get_all_images]
    returns, and the pages that [get_pages_with_images] keeps hold all of
    them: each kept page has an image, and a document cut down to the kept
    pages has the same images in the same order. *)
Theorem pdf_document_images (pdf_doc : PDFDocument.t) :
  PDFDocument.total_images pdf_doc
  = Z.of_nat (length (PDFDocument.get_all_images pdf_doc))
  /\ Forall (fun page => PDFPage.images page <> [])
            (PDFDocument.get_pages_with_images pdf_doc)
  /\ PDFDocument.get_all_images
       (with_pages (PDFDocument.get_pages_with_images pdf_doc) pdf_doc)
     = PDFDocument.get_all_images pdf_doc.
Proof.
  unfold PDFDocument.total_images, PDFDocument.get_all_images,
    PDFDocument.get_pages_with_images, with_pages. simpl.
  rewrite !fold_left_extend. simpl.
  induction (PDFDocument.pages pdf_doc) as [|page pages (IH1 & IH2 & IH3)]; simpl.
  { split; [done|]. split; [constructor|done]. }
  destruct (PDFPage.images page) as [|img imgs] eqn:Himgs; simpl.
  - split; [lia|]. split; [done|done].
  - rewrite Himgs. simpl. rewrite IH3. split; [|split; [|done]].
    + rewrite length_app. lia.
    + constructor; [by rewrite Himgs | done].
Qed.

End ExtractorFacts.


(* ===================================================================== *)
(** * The hint on the type of a diagram *)
(* ===================================================================== *)

Module HintFacts.
Import Text mcq_generator multimodal_prompts ParserFacts.

Lemma startswith_append (p post : string) : startswith p (p +:+ post) = true.
Proof.
  induction p as [|c p IH]; push_append; simpl; [done|]. by rewrite Ascii.eqb_refl.
Qed.

Lemma is_substring_here (p s : string) : startswith p s = true -> is_substring p s = true.
Proof. intros H. destruct s; simpl; by rewrite H. Qed.

Lemma is_substring_skip (p : string) (c : ascii) (s : string) :
  is_substring p s = true -> is_substring p (String c s) = true.
Proof. intros H. simpl. rewrite H. apply orb_true_r. Qed.

Lemma is_substring_inside (p pre post : string) : is_substring p (pre +:+ p +:+ post) = true.
Proof.
  induction pre as [|c pre IH]; push_append.
  - apply is_substring_here, startswith_append.
  - apply is_substring_skip, IH.
Qed.

Lemma startswith_inv (p s : string) :
  startswith p s = true -> exists post, s = p +:+ post.
Proof.
  revert s. induction p as [|a p IH]; intros s; simpl.
  - intros _. by exists s.
  - destruct s as [|b s]; [done|]. intros H. apply andb_true_iff in H as [Hab Hp].
    apply Ascii.eqb_eq in Hab. subst b. destruct (IH s Hp) as [post ->]. by exists post.
Qed.

Lemma is_substring_inv (p s : string) :
  is_substring p s = true -> exists pre post, s = pre +:+ p +:+ post.
Proof.
  induction s as [|c s IH]; simpl.
  - rewrite orb_false_r. intros H. apply startswith_inv in H as [post ->]. by exists "", post.
  - intros H. apply orb_true_iff in H as [H|H].
    + apply startswith_inv in H as [post ->]. by exists "", post.
    + destruct (IH H) as (pre & post & ->). by exists (String c pre), post.
Qed.


(** A keyword that holds another within it brings it along. *)
Lemma is_substring_part (part before after s : string) :
  is_substring (before +:+ part +:+ after) s = true -> is_substring part s = true.
Proof.
  intros H. apply is_substring_inv in H as (pre & post & ->).
  replace (pre +:+ (before +:+ part +:+ after) +:+ post)
    with ((pre +:+ before) +:+ part +:+ (after +:+ post)).
  - apply is_substring_inside.
  - by rewrite !append_assoc.
Qed.

(** X25. In the table of [get_diagram_type_hint] the type graph stands
    before the type flowchart, and its keyword chart is part of the
    keywords flowchart and flow chart: a text that has one of these two is
    never given the hint flowchart. It is given the hint graph, or, when it
    also has a keyword of phase diagrams, the hint phase diagram. *)
Theorem flowchart_keywords_shadowed (text : string) :
  is_substring "flowchart" (lower text) = true
  \/ is_substring "flow chart" (lower text) = true ->
  get_diagram_type_hint text = "graph" \/ get_diagram_type_hint text = "phase diagram".
Proof.
  intros H.
  assert (Hchart : is_substring "chart" (lower text) = true).
  { destruct H as [H|H].
    - by apply (is_substring_part "chart" "flow" "").
    - by apply (is_substring_part "chart" "flow " ""). }
  unfold get_diagram_type_hint. cbv zeta. unfold type_keywords.
  cbn [types_loop keywords_loop]. rewrite Hchart.
  destruct (is_substring "phase diagram" (lower text)); [by right|].
  destruct (is_substring "equilibrium diagram" (lower text)); [by right|].
  destruct (is_substring "binary diagram" (lower text)); [by right|].
  destruct (is_substring "graph" (lower text)); [by left|].
  destruct (is_substring "plot" (lower text)); [by left|].
  destruct (is_substring "curve" (lower text)); by left.
Qed.

Lemma flowchart_keywords_shadowed_witness :
  get_diagram_type_hint "Flowchart of the smelting process" = "graph"
  \/ get_diagram_type_hint "Flowchart of the smelting process" = "phase diagram".
Proof.
  apply (flowchart_keywords_shadowed "Flowchart of the smelting process").
  left. vm_compute. reflexivity.
Defined.

End HintFacts.


(* ===================================================================== *)
(** * The client of the model endpoint *)
(* ===================================================================== *)

Module ClientFacts.
Import Text Dict Json Scenarios llm_client.

Lemma posts_posted (log : list endpoint_event) : posts (log ++ [Posted]) = S (posts log).
Proof. unfold posts. rewrite List.filter_app, length_app. simpl. lia. Qed.

Lemma posts_slept (log : list endpoint_event) (seconds : Z) :
  posts (log ++ [Slept seconds]) = posts log.
Proof. unfold posts. rewrite List.filter_app, length_app. simpl. lia. Qed.

Section Client.

Context {float : Type}.
Variable script : nat -> http_outcome.
Variable config : LLMConfig float.
Variable payload : Payload float.

#[local] Abbreviation retry_loop' :=
  (retry_loop (Endpoint0 := scripted_endpoint script) config).

Lemma call_llm_fails (log : list endpoint_event) :
  fails (script (posts log)) ->
  exists e, _call_llm (Endpoint0 := scripted_endpoint script) payload log
            = (inl e, log ++ [Posted]).
Proof.
  unfold _call_llm. simpl. destruct (script (posts log)) as [| |data]; simpl; eauto.
  intros [e ->]. eauto.
Qed.

Lemma retry_loop_first_success (data : json) (text : string) (k : nat) :
  forall (j turns : nat) (log : list endpoint_event),
    posts log = j ->
    Z.of_nat (j + k) < max_retries config ->
    turns = Z.to_nat (max_retries config - Z.of_nat j) ->
    (forall i, (i < k)%nat -> fails (script (j + i))) ->
    script (j + k)%nat = Body data ->
    extract_text data = inr text ->
    retry_loop' turns (Z.of_nat j) payload log
    = (inr text, log ++ failed_rounds k (retry_delay_seconds config) ++ [Posted]).
Proof.
  induction k as [|k IH]; intros j turns log Hj Hlt Hturns Hfail Hk Htext.
  - destruct turns as [|turns]; [lia|]. cbn [retry_loop].
    unfold _call_llm. simpl. rewrite Hj. rewrite Nat.add_0_r in Hk. by rewrite Hk, Htext.
  - destruct turns as [|turns]; [lia|]. cbn [retry_loop].
    destruct (call_llm_fails log) as [e ->].
    { rewrite Hj. rewrite <- (Nat.add_0_r j). apply Hfail. lia. }
    destruct (Z.ltb_spec (Z.of_nat j) (max_retries config - 1)); [|lia].
    replace (Z.of_nat j + 1) with (Z.of_nat (S j)) by lia.
    cbn [time_sleep scripted_endpoint].
    rewrite (IH (S j) turns).
    + cbn [failed_rounds]. by rewrite <- !app_assoc.
    + by rewrite posts_slept, posts_posted, Hj.
    + lia.
    + lia.
    + intros i Hi. replace (S j + i)%nat with (j + S i)%nat by lia. apply Hfail. lia.
    + by replace (S j + k)%nat with (j + S k)%nat by lia.
    + exact Htext.
Qed.

Lemma retry_loop_exhausted :
  (forall i, Z.of_nat i < max_retries config -> fails (script i)) ->
  forall (turns j : nat) (log : list endpoint_event),
    posts log = j ->
    turns = Z.to_nat (max_retries config - Z.of_nat j) ->
    retry_loop' turns (Z.of_nat j) payload log
    = (inl (LLMError ("Failed to generate response after "
                        +:+ pretty (max_retries config) +:+ " attempts")),
       log ++ match turns with
              | O => []
              | S rounds => failed_rounds rounds (retry_delay_seconds config) ++ [Posted]
              end).
Proof.
  intros Hfail. induction turns as [|turns IH]; intros j log Hj Hturns.
  - simpl. by rewrite app_nil_r.
  - cbn [retry_loop].
    destruct (call_llm_fails log) as [e ->].
    { rewrite Hj. apply Hfail. lia. }
    replace (Z.of_nat j + 1) with (Z.of_nat (S j)) by lia.
    destruct (Z.ltb_spec (Z.of_nat j) (max_retries config - 1)).
    + cbn [time_sleep scripted_endpoint]. rewrite (IH (S j)).
      * destruct turns as [|rounds]; [lia|]. cbn [failed_rounds]. by rewrite <- !app_assoc.
      * by rewrite posts_slept, posts_posted, Hj.
      * lia.
    + rewrite (IH (S j)).
      * destruct turns as [|rounds]; [|lia]. simpl. by rewrite <- !app_assoc.
      * by rewrite posts_posted, Hj.
      * lia.
Qed.

End Client.





End ClientFacts.
